(** * Baltimore 311 explorer: the analysis engine of [scripts/analyze.py]

    A shallow embedding of the analysis functions of [scripts/analyze.py]
    and the properties the specification states about them.

    Conventions of the embedding.
    - A pandas cell that may be missing (NaN / NaT / None) is an [option].
    - A pandas [Timestamp] is its integer count of nanoseconds ([Z]); a
      [Timedelta]'s [.days] is the floor of the difference divided by one
      day. pandas raises when a difference of timestamps overflows 64
      bits: statements that the program returns, or raises only for
      other reasons, are about frames whose timestamps lie between 1970
      and 2116 ([timestamps_in_era]).
    - A Python [str] is a [string] of ASCII text; [str.lower] is modelled
      on the ASCII letters.
    - Python dicts keep insertion order: they are association lists.
    - Code that can raise returns an [option]; [None] is the raised exception.
    - A float is the rational number it holds. [fl] rounds an exact result
      to the nearest binary64 float, as each float operation of the
      program does; the quotients and percentages of counts are formed
      with it, and [round] is Python's or NumPy's on the float it is
      given. The mean of the official counts and the median of the
      resolution days are taken exactly. The severity score, which takes
      a logarithm, and the haversine distance are real numbers ([R]).
    - The clusterer calls scikit-learn's DBSCAN: its labelling loop is
      embedded as the library runs it, and the radius query is the
      haversine distance of two points against the radius. *)

From Stdlib Require Import ZArith List Bool String Ascii Lia Arith.
From Stdlib Require Import QArith Qround Qpower Qabs Qreals.
From Stdlib Require Import Sorting.Sorted Sorting.Permutation.
From Stdlib Require Import Reals Lra.
From Stdlib Require Import Relations.
From Stdlib Require Lqa.
Import ListNotations.

Local Open Scope string_scope.
Local Open Scope Z_scope.

(** ** Python strings *)

Module PyStr.

(** [c.lower()] on one ASCII character. *)
Definition lower_ascii (c : ascii) : ascii :=
  let n := nat_of_ascii c in
  if ((65 <=? n) && (n <=? 90))%nat then ascii_of_nat (n + 32) else c.

(** [s.lower()] on ASCII text. Python also lowers the letters outside
    ASCII (and maps the Kelvin sign to "k"); the strings of the model hold
    none: statements about the letter case are about ASCII text. *)
Fixpoint lower (s : string) : string :=
  match s with
  | EmptyString => EmptyString
  | String c t => String (lower_ascii c) (lower t)
  end.

(** Text written in ASCII. *)
Fixpoint is_ascii (s : string) : bool :=
  match s with
  | EmptyString => true
  | String c t => (nat_of_ascii c <? 128)%nat && is_ascii t
  end.

(** Letter case set aside, in the words of the specification: two
    characters are the same letter when they are equal or one is the
    capital of the other; a keyword occurs in a text, whatever the case
    of the letters of either, when its characters are the same letters as
    those of some segment of the text. *)
Definition same_letter (a b : ascii) : bool :=
  let x := nat_of_ascii a in
  let y := nat_of_ascii b in
  ((x =? y) || ((65 <=? x) && (x <=? 90) && (y =? x + 32))
   || ((65 <=? y) && (y <=? 90) && (x =? y + 32)))%nat.

(** A text without capitals, as the keywords of the program are. *)
Definition no_capital (kw : string) : Prop :=
  forall c, In c (list_ascii_of_string kw) ->
            ((65 <=? nat_of_ascii c) && (nat_of_ascii c <=? 90))%nat = false.

Fixpoint prefix_ci (needle hay : string) : bool :=
  match needle, hay with
  | EmptyString, _ => true
  | String c k, String d t => same_letter c d && prefix_ci k t
  | String _ _, EmptyString => false
  end.

Fixpoint contains_ci (needle hay : string) : bool :=
  prefix_ci needle hay ||
  match hay with
  | EmptyString => false
  | String _ t => contains_ci needle t
  end.

(** [needle in hay] for two strings. *)
Fixpoint contains (needle hay : string) : bool :=
  String.prefix needle hay ||
  match hay with
  | EmptyString => false
  | String _ t => contains needle t
  end.

(** [str(x)] of a cell that holds a string or NaN. *)
Definition str (x : option string) : string :=
  match x with
  | Some s => s
  | None => "nan"
  end.

(** Truth value of a cell that holds a string or NaN: only the empty string
    is falsy (NaN is a non-zero float). *)
Definition truthy (x : option string) : bool :=
  match x with
  | Some EmptyString => false
  | _ => true
  end.

(** [s[:n]]. *)
Definition take (n : nat) (s : string) : string := String.substring 0 n s.

End PyStr.

(** ** Category Recurrence Calculator: [categorize_type] *)

Module Category.
Import PyStr.

(** The nested function [categorize_type] of [category_fix_rates]. *)
Definition categorize_type (srtype : option string) : string :=
  if negb (truthy srtype) then "Other" else
  let t := lower (str srtype) in
  if contains "pothole" t then "Pothole" else
  if contains "light" t || contains "streetlight" t then "Street Light" else
  if contains "alley" t then "Alley" else
  if contains "sidewalk" t then "Sidewalk" else
  if contains "water" t || contains "main" t then "Water Main" else
  if contains "cave" t || contains "sinkhole" t then "Cave-In / Sinkhole" else
  if contains "storm" t || contains "drain" t || contains "catch" t
  then "Storm Drain" else
  if contains "curb" t || contains "bridge" t || contains "street" t
  then "Street / Curb" else
  "Other".

(** The priority list the specification describes: each rule is a set of
    keywords and the category it gives. *)
Definition PRIORITY_RULES : list (list string * string) :=
  [ (["pothole"], "Pothole");
    (["light"; "streetlight"], "Street Light");
    (["alley"], "Alley");
    (["sidewalk"], "Sidewalk");
    (["water"; "main"], "Water Main");
    (["cave"; "sinkhole"], "Cave-In / Sinkhole");
    (["storm"; "drain"; "catch"], "Storm Drain");
    (["curb"; "bridge"; "street"], "Street / Curb") ].

(** The fixed set of categories. *)
Definition CATEGORIES : list string :=
  map snd PRIORITY_RULES ++ ["Other"].

(** A rule matches a text, letter case set aside, when one of its keywords
    occurs in it. *)
Definition rule_matches_ci (s : string) (rule : list string * string)
  : bool :=
  existsb (fun kw => contains_ci kw s) (fst rule).

(** First-match-wins evaluation of a priority list on a text, letter case
    set aside. *)
Fixpoint first_match_ci (rules : list (list string * string)) (s : string)
  : string :=
  match rules with
  | [] => "Other"
  | rule :: rest =>
      if rule_matches_ci s rule then snd rule else first_match_ci rest s
  end.

(** A rule matches a lower-cased text when one of its keywords occurs in it. *)
Definition rule_matches (t : string) (rule : list string * string) : bool :=
  existsb (fun kw => contains kw t) (fst rule).

(** First-match-wins evaluation of a priority list, following the
    specification's words: the first rule that matches gives the category,
    and ["Other"] is the default. *)
Fixpoint first_match (rules : list (list string * string)) (t : string)
  : string :=
  match rules with
  | [] => "Other"
  | rule :: rest => if rule_matches t rule then snd rule else first_match rest t
  end.

End Category.

(** ** Frames, rows and timestamps *)

Module Frame.
Import PyStr.

(** Nanoseconds in one day: the unit of [Timedelta.days]. *)
Definition NS_PER_DAY : Z := 86400000000000.

(** [n] days as a nanosecond count. *)
Definition days (n : Z) : Z := n * NS_PER_DAY.

(** [(t).days] of the [Timedelta] of [t] nanoseconds: pandas floors, also
    for negative differences. *)
Definition timedelta_days (t : Z) : Z := t / NS_PER_DAY.

(** One row of the 311 frame. A cell is [None] when it is NaN / NaT; the
    coordinates are numbers, as [fetch_311.py] writes only the rows that
    have both (in degrees, inside the bounding box of the city). *)
Record Row : Type := mkRow {
  servicerequestnum : option string;
  srtype : option string;
  srstatus : option string;
  createddate : option Z;
  statusdate : option Z;
  resolution_days : option Z;
  neighborhood : option string;
  latitude : Q;
  longitude : Q;
  cluster_id : Z
}.

(** A frame: the names of its columns and its rows, in row order. The cells
    of a column the frame does not have are never read. *)
Record DataFrame : Type := mkFrame {
  columns : list string;
  rows : list Row
}.

(** pandas keeps a timestamp, and the difference of two, as a signed
    64-bit count of nanoseconds, and raises when a difference or a shifted
    timestamp does not fit. From 1970 to 2 ^ 62 nanoseconds after it (the
    year 2116) every difference of two timestamps and every timestamp
    shifted by the re-report window fits: there the arithmetic of the
    program is that of the integers. *)
Definition in_era (cell : option Z) : bool :=
  match cell with
  | Some t => (0 <=? t) && (t <=? 2 ^ 62)
  | None => true
  end.

Definition timestamps_in_era (df : DataFrame) : bool :=
  forallb (fun r => in_era (createddate r) && in_era (statusdate r))
          (rows df).

(** ['c' in df.columns]. *)
Definition has_column (df : DataFrame) (c : string) : bool :=
  existsb (String.eqb c) (columns df).

(** [row.get(c, '')] for a string column: the empty string when the frame
    has no such column. *)
Definition get_str (df : DataFrame) (c : string) (cell : option string)
  : option string :=
  if has_column df c then cell else Some "".

(** [row.get(c)] for a timestamp or number column: [None] without it. *)
Definition get_cell {A : Type} (df : DataFrame) (c : string) (cell : option A)
  : option A :=
  if has_column df c then cell else None.

(** [x or ''] on a cell that holds a string or NaN: NaN is truthy and
    stays. *)
Definition or_empty (x : option string) : option string :=
  if truthy x then x else Some "".

(** [pd.notna]. *)
Definition notna {A : Type} (x : option A) : bool :=
  match x with Some _ => true | None => false end.

(** A step that raises when its condition fails. *)
Definition require (b : bool) : option unit :=
  if b then Some tt else None.

(** Sequencing of steps that can raise. *)
Definition bind {A B : Type} (m : option A) (k : A -> option B) : option B :=
  match m with
  | Some a => k a
  | None => None
  end.

Declare Scope raise_scope.
Delimit Scope raise_scope with raise.
Notation "'do' x <- m ; k" := (bind m (fun x => k))
  (at level 10, x name, m at level 100, k at level 200) : raise_scope.
Notation "'check' b ; k" := (bind (require b) (fun _ => k))
  (at level 10, b at level 100, k at level 200) : raise_scope.

(** Stable insertion sort for a boolean order [le]: an element goes before
    the first one it is [le] to, so equal keys keep their input order. *)
Section StableSort.
Context {A : Type} (le : A -> A -> bool).

Fixpoint insert_sorted (x : A) (l : list A) : list A :=
  match l with
  | [] => [x]
  | y :: t => if le x y then x :: y :: t else y :: insert_sorted x t
  end.

Fixpoint stable_sort (l : list A) : list A :=
  match l with
  | [] => []
  | x :: t => insert_sorted x (stable_sort t)
  end.
End StableSort.

(** Order of two present creation timestamps. *)
Definition created_le (a b : Row) : bool :=
  match createddate a, createddate b with
  | Some x, Some y => x <=? y
  | _, _ => true
  end.

(** [df.sort_values('createddate')]: the rows with a timestamp in ascending
    order, then the rows without one (NaT goes last) in their input order.
    The default sort of pandas is not stable: it does not fix the order of
    rows with equal timestamps (up to 16 rows it is an insertion sort and
    keeps their input order). The model keeps the input order, which is
    the order of pandas whenever the timestamps differ; what is stated
    about the walk of a history holds for every order of the rows. *)
Definition sort_values_createddate (rs : list Row) : list Row :=
  stable_sort created_le (filter (fun r => notna (createddate r)) rs)
  ++ filter (fun r => negb (notna (createddate r))) rs.

(** [Series.min()] and [Series.max()] of a timestamp column: missing cells
    are skipped and the result is NaT when none is present. *)
Fixpoint series_min (l : list (option Z)) : option Z :=
  match l with
  | [] => None
  | None :: t => series_min t
  | Some x :: t =>
      match series_min t with
      | None => Some x
      | Some m => Some (Z.min x m)
      end
  end.

Fixpoint series_max (l : list (option Z)) : option Z :=
  match l with
  | [] => None
  | None :: t => series_max t
  | Some x :: t =>
      match series_max t with
      | None => Some x
      | Some m => Some (Z.max x m)
      end
  end.

(** A float that is a number or NaN. *)
Inductive PyFloat : Type :=
| Num (q : Q)
| NaN.

(** [Series.median()] of an integer column with missing cells: the middle
    value of the sorted present values, or the mean of the two middle ones;
    NaN when no value is present. *)
Definition present {A : Type} (l : list (option A)) : list A :=
  flat_map (fun x => match x with Some v => [v] | None => [] end) l.

Definition median (l : list (option Z)) : PyFloat :=
  let vs := stable_sort Z.leb (present l) in
  let n := List.length vs in
  let lo := nth (n / 2 - 1)%nat vs 0 in
  let hi := nth (n / 2)%nat vs 0 in
  match vs with
  | [] => NaN
  | _ :: _ =>
      if Nat.even n then Num ((inject_Z lo + inject_Z hi) / 2)%Q
      else Num (inject_Z hi)
  end.

(** Python's truth value of a float or NaN: only zero is falsy. *)
Definition float_truthy (x : PyFloat) : bool :=
  match x with
  | Num q => negb (Qeq_bool q 0)
  | NaN => true
  end.

End Frame.

(** ** Re-report Detector *)

Module Rereport.
Import PyStr Frame.

(** FAILED_FIX_WINDOW_DAYS *)
Definition FAILED_FIX_WINDOW_DAYS : Z := 120.

(** One entry of a hotspot's timeline. [date] is the calendar day of the
    creation timestamp, as its day number. *)
Record HistoryEntry : Type := mkEntry {
  date : option Z;
  status : string;
  entry_srtype : option string;
  sr_num : option string;
  entry_resolution_days : option Z;
  is_rereport : bool
}.

(** The test of lines 115-118: a closure was seen, the creation timestamp is
    present and the whole days between them are in (0, 120]. The
    difference is that of the integers, as it is for timestamps in the
    era. *)
Definition rereport_test (last_closure_date created : option Z) : bool :=
  match last_closure_date, created with
  | Some closure, Some c =>
      let days_since_closure := timedelta_days (c - closure) in
      (0 <? days_since_closure) && (days_since_closure <=? FAILED_FIX_WINDOW_DAYS)
  | _, _ => false
  end.

(** The test of line 130: the status holds the token and the status
    timestamp is present. *)
Definition closes (status : string) (status_date : option Z) : bool :=
  contains "closed" (lower status) && notna status_date.

(** The status and the status timestamp the walk reads from a row. *)
Definition status_cell (g : DataFrame) (r : Row) : option string :=
  or_empty (get_str g "srstatus" (srstatus r)).

Definition status_date_cell (g : DataFrame) (r : Row) : option Z :=
  get_cell g "statusdate" (statusdate r).

(** The closure a row records, if it records one: its status holds the
    token "closed" in any letter case and its status timestamp is present. *)
Definition closure_of (g : DataFrame) (r : Row) : option Z :=
  match status_cell g r with
  | Some st => if closes st (status_date_cell g r) then status_date_cell g r
               else None
  | None => None
  end.

(** In the words of the specification: a row records a closure at [t]
    when its status holds the token "closed", whatever the case of its
    letters, and its status timestamp is [t]. *)
Definition records_closure (g : DataFrame) (r : Row) (t : Z) : Prop :=
  exists st,
    status_cell g r = Some st
    /\ contains_ci "closed" st = true
    /\ status_date_cell g r = Some t.

(** The loop of [build_report_history] over the sorted rows, with the
    running [last_closure_date]. A status cell that is NaN has no [lower]
    method: the walk raises there. *)
Fixpoint report_walk (g : DataFrame) (last_closure_date : option Z)
  (sorted_reports : list Row) : option (list HistoryEntry) :=
  match sorted_reports with
  | [] => Some []
  | row :: rest =>
      let created := createddate row in
      let status_date := get_cell g "statusdate" (statusdate row) in
      let status := or_empty (get_str g "srstatus" (srstatus row)) in
      let srtype := or_empty (get_str g "srtype" (srtype row)) in
      let sr_num := or_empty (get_str g "servicerequestnum"
                                (servicerequestnum row)) in
      let resolution := get_cell g "resolution_days" (resolution_days row) in
      let is_rereport := rereport_test last_closure_date created in
      match status with
      | None => None
      | Some st =>
          let entry :=
            {| date := option_map timedelta_days created;
               status := st;
               entry_srtype := srtype;
               sr_num := if truthy sr_num
                         then Some (take 20 (str sr_num)) else None;
               entry_resolution_days := resolution;
               is_rereport := is_rereport |} in
          let last_closure_date' :=
            if closes st status_date then status_date
            else last_closure_date in
          option_map (cons entry) (report_walk g last_closure_date' rest)
      end
  end.

(** [build_report_history(group)]. Sorting by a column the frame does not
    have raises. *)
Definition build_report_history (group : DataFrame)
  : option (list HistoryEntry) :=
  match require (has_column group "createddate") with
  | None => None
  | Some _ => report_walk group None (sort_values_createddate (rows group))
  end.

(** A creation timestamp in the window after a closure timestamp:
    [created > closure_date] and [created <= window_end]. NaT compares
    false. The end of the window is the integer sum, as it is for
    timestamps in the era. *)
Definition in_window (closure_date : Z) (r : Row) : bool :=
  match createddate r with
  | Some c =>
      (closure_date <? c) && (c <=? closure_date + days FAILED_FIX_WINDOW_DAYS)
  | None => false
  end.

(** [row['srstatus'] == 'Closed']: the exact string; NaN is not equal. *)
Definition is_closed (r : Row) : bool :=
  match srstatus r with
  | Some st => String.eqb st "Closed"
  | None => false
  end.

(** The loop of [detect_failed_fixes]: one count per closed row that has a
    later report in its window. Reading [statusdate] from a frame without
    that column raises. *)
Fixpoint failed_fix_walk (g : DataFrame) (sorted_reports : list Row)
  (todo : list Row) (failed_fixes : nat) : option nat :=
  match todo with
  | [] => Some failed_fixes
  | row :: rest =>
      if negb (is_closed row)
      then failed_fix_walk g sorted_reports rest failed_fixes
      else
        if negb (has_column g "statusdate") then None else
        match statusdate row with
        | None => failed_fix_walk g sorted_reports rest failed_fixes
        | Some closure_date =>
            let subsequent := filter (in_window closure_date) sorted_reports in
            match subsequent with
            | [] => failed_fix_walk g sorted_reports rest failed_fixes
            | _ :: _ => failed_fix_walk g sorted_reports rest (S failed_fixes)
            end
        end
  end.

(** [detect_failed_fixes(group)]. *)
Definition detect_failed_fixes (group : DataFrame) : option nat :=
  if negb (has_column group "srstatus") || negb (has_column group "createddate")
  then Some 0%nat
  else
    let sorted_reports := sort_values_createddate (rows group) in
    failed_fix_walk group sorted_reports sorted_reports 0%nat.

End Rereport.

(** ** Hotspot Builder *)

Module Hotspots.
Import PyStr Frame Rereport.
Local Open Scope raise_scope.

(** CHRONIC_MIN_REPORTS, CHRONIC_MIN_DAYS_SPAN, HIGH_CHRONIC_THRESHOLD *)
Definition CHRONIC_MIN_REPORTS : nat := 4.
Definition CHRONIC_MIN_DAYS_SPAN : Z := 90.
Definition HIGH_CHRONIC_THRESHOLD : nat := 8.

(** A hotspot, with the fields the properties below are about. The centroid,
    the dominant type, neighborhood and street and the status breakdown are
    computed from their own columns and do not enter any other field; they
    are left out. A float field that can be NaN is an [option]. *)
Record Hotspot : Type := mkHotspot {
  hs_cluster_id : Z;
  report_count : nat;
  first_report : option Z;
  last_report : option Z;
  span_days : option Z;
  avg_resolution_days : option PyFloat;
  severity_score : option R;
  possible_failed_fixes : nat;
  is_high_priority : bool;
  history : list HistoryEntry
}.

(** [(last_report - first_report).days]: NaN when the timestamps are NaT. *)
Definition span_between (first_report last_report : option Z) : option Z :=
  match first_report, last_report with
  | Some f, Some l => Some (timedelta_days (l - f))
  | _, _ => None
  end.

(** The test of line 158, which skips the cluster. A comparison with NaN is
    false. *)
Definition below_thresholds (report_count : nat) (span_days : option Z)
  : bool :=
  (report_count <? CHRONIC_MIN_REPORTS)%nat
  || match span_days with
     | Some d => d <? CHRONIC_MIN_DAYS_SPAN
     | None => false
     end.

(** [rint]: the nearest integer of a real, ties to the even one. *)
Definition rint (x : R) : Z :=
  let f := (up x - 1)%Z in
  let d := (x - IZR f)%R in
  if Rlt_dec d (1 / 2) then f
  else if Rlt_dec (1 / 2) d then f + 1
  else if Z.even f then f else f + 1.

(** [round(x, 1)] on the reals. *)
Definition round1 (x : R) : R := (IZR (rint (x * 10)) / 10)%R.

(** Lines 184-185: [max(span_days / 30, 1)] keeps a NaN first argument, so
    the score of a NaN span is NaN. *)
Definition severity (report_count : nat) (span_days : option Z) : option R :=
  match span_days with
  | None => None
  | Some d =>
      let months_span := Rmax (IZR d / 30) 1 in
      Some (round1 (INR report_count * (1 + ln months_span)))
  end.

(** Line 212: [float(m) if m else None]. *)
Definition resolution_field (m : option PyFloat) : option PyFloat :=
  match m with
  | Some x => if float_truthy x then Some x else None
  | None => None
  end.

(** The body of the loop of [identify_chronic_hotspots] for one group:
    [Some None] is [continue], [Some (Some h)] the appended hotspot. *)
Definition build_hotspot (cluster_id : Z) (group : DataFrame)
  : option (option Hotspot) :=
  let report_count := List.length (rows group) in
  check has_column group "createddate";
  let first_report := series_min (map createddate (rows group)) in
  let last_report := series_max (map createddate (rows group)) in
  let span_days := span_between first_report last_report in
  if below_thresholds report_count span_days then Some None else
  check has_column group "latitude" && has_column group "longitude";
  check has_column group "srstatus";
  let closed := filter is_closed (rows group) in
  let avg_resolution_days :=
    match closed with
    | [] => None
    | _ :: _ =>
        if has_column group "resolution_days"
        then Some (median (map resolution_days closed)) else None
    end in
  let severity_score := severity report_count span_days in
  do possible_failed_fixes <- detect_failed_fixes group;
  do history <- build_report_history group;
  Some (Some
    {| hs_cluster_id := cluster_id;
       report_count := report_count;
       first_report := first_report;
       last_report := last_report;
       span_days := span_days;
       avg_resolution_days := resolution_field avg_resolution_days;
       severity_score := severity_score;
       possible_failed_fixes := possible_failed_fixes;
       is_high_priority :=
         (HIGH_CHRONIC_THRESHOLD <=? report_count)%nat
         || (2 <=? possible_failed_fixes)%nat;
       history := history |}).

(** The distinct keys of a column in ascending order, as [groupby] visits
    them. *)
Fixpoint insert_key (k : Z) (ks : list Z) : list Z :=
  match ks with
  | [] => [k]
  | x :: t =>
      if k <? x then k :: x :: t
      else if k =? x then x :: t
      else x :: insert_key k t
  end.

Definition group_keys (rs : list Row) : list Z :=
  fold_right (fun r ks => insert_key (cluster_id r) ks) [] rs.

(** [clustered.groupby('cluster_id')]: one group per key, rows in frame
    order. *)
Definition groupby_cluster_id (df : DataFrame) : list (Z * DataFrame) :=
  map (fun k => (k, mkFrame (columns df)
                      (filter (fun r => cluster_id r =? k) (rows df))))
      (group_keys (rows df)).

(** The loop over the groups, appending to [hotspots]. *)
Fixpoint hotspot_loop (groups : list (Z * DataFrame)) : option (list Hotspot) :=
  match groups with
  | [] => Some []
  | (cluster_id, group) :: rest =>
      do h <- build_hotspot cluster_id group;
      do hs <- hotspot_loop rest;
      Some (match h with Some x => x :: hs | None => hs end)
  end.

(** Descending order of two present scores. *)
Definition severity_ge (a b : Hotspot) : bool :=
  match severity_score a, severity_score b with
  | Some x, Some y => if Rle_dec y x then true else false
  | _, _ => true
  end.

(** [hotspots_df.sort_values('severity_score', ascending=False)]: NaN scores
    go last. *)
Definition sort_values_severity (hs : list Hotspot) : list Hotspot :=
  stable_sort severity_ge (filter (fun h => notna (severity_score h)) hs)
  ++ filter (fun h => negb (notna (severity_score h))) hs.

(** [identify_chronic_hotspots(df)], as the list of the records of the
    frame it returns. *)
Definition identify_chronic_hotspots (df : DataFrame) : option (list Hotspot) :=
  check has_column df "cluster_id";
  let clustered :=
    mkFrame (columns df) (filter (fun r => 0 <=? cluster_id r) (rows df)) in
  match rows clustered with
  | [] => Some []
  | _ :: _ =>
      do hotspots <- hotspot_loop (groupby_cluster_id clustered);
      Some (sort_values_severity hotspots)
  end.

(** The group of one cluster id. *)
Definition cluster_frame (df : DataFrame) (k : Z) : DataFrame :=
  mkFrame (columns df) (filter (fun r => cluster_id r =? k) (rows df)).

(** A frame the builder reads without raising: it has the columns the
    builder reads without a guard, and no status cell is NaN. *)
Definition readable (df : DataFrame) : bool :=
  has_column df "cluster_id" && has_column df "createddate"
  && has_column df "latitude" && has_column df "longitude"
  && has_column df "srstatus" && has_column df "statusdate"
  && forallb (fun r => notna (status_cell df r)) (rows df).

(** The number of flagged entries of a history. *)
Definition count_rereports (h : list HistoryEntry) : nat :=
  List.length (filter is_rereport h).

(** A closed report with a status timestamp that some report of the group
    follows within the window. *)
Definition followed_closure (g : DataFrame) (r : Row) : bool :=
  is_closed r
  && match statusdate r with
     | Some closure_date => existsb (in_window closure_date) (rows g)
     | None => false
     end.

Definition followed_closures (g : DataFrame) : nat :=
  List.length (filter (followed_closure g) (rows g)).

End Hotspots.

(** ** Dicts, value counts and decimal rounding *)

Module Tables.
Import PyStr Frame.

(** [d.get(k, default)] on an insertion-ordered dict. *)
Fixpoint dict_get {V : Type} (d : list (string * V)) (k : string) (default : V)
  : V :=
  match d with
  | [] => default
  | (k', v) :: t => if String.eqb k k' then v else dict_get t k default
  end.

(** [d[k] = v]: a key that is present keeps its place, a new key goes to the
    end. *)
Fixpoint dict_set {V : Type} (d : list (string * V)) (k : string) (v : V)
  : list (string * V) :=
  match d with
  | [] => [(k, v)]
  | (k', v') :: t =>
      if String.eqb k k' then (k', v) :: t else (k', v') :: dict_set t k v
  end.

(** [list(d.keys())]. *)
Definition dict_keys {V : Type} (d : list (string * V)) : list string :=
  map fst d.

(** One more occurrence of [k]. *)
Definition count_one (d : list (string * nat)) (k : string)
  : list (string * nat) :=
  dict_set d k (dict_get d k 0 + 1)%nat.

(** Descending order of two counts. *)
Definition count_ge (a b : string * nat) : bool := (snd b <=? snd a)%nat.

(** [Series.value_counts().to_dict()]: NaN cells are dropped, every value
    is counted, most frequent first. pandas does not fix the order of equal
    counts; the model keeps the order of first occurrence. *)
Definition value_counts (cells : list (option string)) : list (string * nat) :=
  stable_sort count_ge (fold_left count_one (present cells) []).

(** Nearest integer of a rational, ties to the even one. *)
Definition round_half_even (x : Q) : Z :=
  let f := Qfloor x in
  match ((x - inject_Z f) ?= 1 # 2)%Q with
  | Lt => f
  | Gt => f + 1
  | Eq => if Z.even f then f else f + 1
  end.

(** The binade of a positive rational: the [k] with
    [2^k <= x < 2^(k+1)]. *)
Definition binade (x : Q) : Z :=
  let k := (Z.log2 (Qnum x) - Z.log2 (Zpos (Qden x)))%Z in
  if Qle_bool (2 ^ k) x then k else (k - 1)%Z.

(** [x] rounded to a binary64 float (a 53-bit significand), to nearest with
    ties to even: the value of a Python or NumPy float operation whose
    exact result is [x]. The exponent range is not bounded; the quotients
    of row counts the program forms are far inside it. *)
Definition fl (x : Q) : Q :=
  if Qeq_bool x 0 then 0%Q else
  let e := (binade (Qabs x) - 52)%Z in
  (inject_Z (round_half_even (x * 2 ^ (- e))) * 2 ^ e)%Q.

(** [round(x, ndigits)] of a Python float [x], given by its exact binary
    value: Python rounds that exact value to the nearest decimal, ties to
    even. The float it returns is the one nearest to this decimal; the
    decimal stands for it. *)
Definition round_nd (ndigits : nat) (x : Q) : Q :=
  let scale := inject_Z (10 ^ Z.of_nat ndigits) in
  (inject_Z (round_half_even (x * scale)) / scale)%Q.

(** [round(x, ndigits)] of a NumPy float [x]: NumPy multiplies by the power
    of ten, takes the nearest integer of that float product (ties to even)
    and divides. *)
Definition np_round (ndigits : nat) (x : Q) : Q :=
  let scale := inject_Z (10 ^ Z.of_nat ndigits) in
  (inject_Z (round_half_even (fl (x * scale))) / scale)%Q.

(** [a / b * 100] on two integers: two float operations. *)
Definition percent (a b : Z) : Q :=
  fl (fl (inject_Z a / inject_Z b) * 100).

End Tables.

(** ** Gap Analyzer *)

Module Gap.
Import PyStr Frame Tables.
Local Open Scope raise_scope.

(** The [location_hints] cell of a post, by what [json.loads] makes of it:
    - not a string (NaN, a number): nothing is parsed;
    - a string that is not JSON: the decoder's error is caught;
    - a JSON array of strings;
    - a JSON string: the loop over it runs through its characters;
    - a JSON object: the loop over it runs through its keys;
    - any other JSON value: a number, [true], [false] or [null] cannot be
      iterated, and in an array that holds anything but strings an item
      has no [lower]; the loop over the hints raises. *)
Inductive HintsCell : Type :=
| HintsMissing
| HintsMalformed
| HintsJson (hints : list string)
| HintsJsonText (text : string)
| HintsJsonObject (keys : list string)
| HintsJsonOther.

(** One row of the weak-signal frame. *)
Record Post : Type := mkPost {
  location_hints : HintsCell
}.

(** The one-character strings of a text, as a [for] loop over a Python
    string yields them (for a text written in ASCII). *)
Fixpoint characters (text : string) : list string :=
  match text with
  | EmptyString => []
  | String c rest => String c EmptyString :: characters rest
  end.

(** Lines 339-346: the hints the inner loop runs through for one cell. A
    cell that is not a string, or does not parse, gives no hint; the loop
    raises ([None]) on a parsed value it cannot iterate or whose items
    have no [lower]. *)
Definition parse_hints (cell : HintsCell) : option (list string) :=
  match cell with
  | HintsMissing | HintsMalformed => Some []
  | HintsJson hints => Some hints
  | HintsJsonText text => Some (characters text)
  | HintsJsonObject keys => Some keys
  | HintsJsonOther => None
  end.

(** Line 349: the bidirectional, case-insensitive substring test. *)
Definition hint_matches (hint_lower neighborhood : string) : bool :=
  contains (lower neighborhood) hint_lower
  || contains hint_lower (lower neighborhood).

(** Lines 348-352: the loop over the known neighborhoods for one hint. *)
Definition count_hint (neighborhoods : list string)
  (signals : list (string * nat)) (hint : string) : list (string * nat) :=
  let hint_lower := lower hint in
  fold_left
    (fun acc neighborhood =>
       if hint_matches hint_lower neighborhood
       then dict_set acc neighborhood (dict_get acc neighborhood 0 + 1)%nat
       else acc)
    neighborhoods signals.

(** Lines 338-352: the loop over the posts and over the hints of a post,
    from the counts so far. *)
Fixpoint signals_loop (neighborhoods : list string) (df_reddit : list Post)
  (signals : list (string * nat)) : option (list (string * nat)) :=
  match df_reddit with
  | [] => Some signals
  | row :: rest =>
      do hints <- parse_hints (location_hints row);
      signals_loop neighborhoods rest
        (fold_left (count_hint neighborhoods) hints signals)
  end.

Definition reddit_neighborhood_signals (neighborhoods : list string)
  (df_reddit : list Post) : option (list (string * nat)) :=
  signals_loop neighborhoods df_reddit [].

(** The hint lists of the posts, one per post, when the loop runs through
    every cell. *)
Fixpoint post_hints (df_reddit : list Post) : option (list (list string)) :=
  match df_reddit with
  | [] => Some []
  | row :: rest =>
      do hints <- parse_hints (location_hints row);
      do others <- post_hints rest;
      Some (hints :: others)
  end.

(** The matches of one neighborhood over hint lists, one list per post:
    one per hint of a post that matches it in either direction, whatever
    the letter case. *)
Definition mentions (neighborhood : string) (hints : list (list string))
  : nat :=
  list_sum
    (map (fun post_hints =>
            List.length
              (filter (fun hint =>
                         contains (lower neighborhood) (lower hint)
                         || contains (lower hint) (lower neighborhood))
                      post_hints))
         hints).

(** [np.mean(list(report_counts.values())) if report_counts else 0], as
    the exact mean: the float of NumPy is its rounding to 53 bits, far
    below what the comparison of line 366 with an integer count can
    see for the counts of a frame. *)
Definition avg_311_reports (report_counts : list (string * nat)) : Q :=
  match report_counts with
  | [] => 0
  | _ :: _ =>
      (inject_Z (Z.of_nat (list_sum (map snd report_counts)))
       / inject_Z (Z.of_nat (List.length report_counts)))%Q
  end.

(** One gap record. *)
Record GapRecord : Type := mkGap {
  gap_neighborhood : string;
  reddit_signal : nat;
  reports_311 : nat;
  gap_score : Q;
  note : string
}.

(** The fixed note of line 371. *)
Definition GAP_NOTE : string :=
  "High social signal, low 311 activity — possible reporting barrier".

(** Line 370: the float quotient of the two integers, rounded by Python. *)
Definition gap_score_of (reddit_count balt_311_count : nat) : Q :=
  round_nd 2 (fl (inject_Z (Z.of_nat reddit_count)
                  / inject_Z (Z.of_nat (Nat.max balt_311_count 1))))%Q.

(** Lines 358-372: the loop over the signalled neighborhoods. *)
Fixpoint gap_loop (report_counts : list (string * nat)) (avg : Q)
  (signals : list (string * nat)) : list GapRecord :=
  match signals with
  | [] => []
  | (neighborhood, reddit_count) :: rest =>
      if (reddit_count <? 2)%nat then gap_loop report_counts avg rest else
      let balt_311_count := dict_get report_counts neighborhood 0%nat in
      match (inject_Z (Z.of_nat balt_311_count) ?= avg * (1 # 2))%Q with
      | Lt =>
          {| gap_neighborhood := neighborhood;
             reddit_signal := reddit_count;
             reports_311 := balt_311_count;
             gap_score := gap_score_of reddit_count balt_311_count;
             note := GAP_NOTE |}
          :: gap_loop report_counts avg rest
      | _ => gap_loop report_counts avg rest
      end
  end.

(** Descending order of two gap scores. *)
Definition gap_ge (a b : GapRecord) : bool :=
  Qle_bool (gap_score b) (gap_score a).

(** Lines 330-375 for given report counts: the signals, the gap test and
    the stable descending sort. *)
Definition gaps_of (report_counts : list (string * nat))
  (df_reddit : list Post) : option (list GapRecord) :=
  do signals <-
    reddit_neighborhood_signals (dict_keys report_counts) df_reddit;
  Some (stable_sort gap_ge
          (gap_loop report_counts (avg_311_reports report_counts) signals)).

(** Lines 331-333. *)
Definition report_counts_of (df_311 : option DataFrame)
  : list (string * nat) :=
  match df_311 with
  | Some df =>
      if has_column df "neighborhood"
      then value_counts (map neighborhood (rows df)) else []
  | None => []
  end.

(** [gap_analysis(df_311, df_reddit)]; an absent frame is [None]. *)
Definition gap_analysis (df_311 : option DataFrame)
  (df_reddit : option (list Post)) : option (list GapRecord) :=
  match df_reddit with
  | None => Some []
  | Some [] => Some []
  | Some (p :: ps) => gaps_of (report_counts_of df_311) (p :: ps)
  end.

End Gap.

(** ** Neighborhood Aggregator *)

Module Neighborhoods.
Import PyStr Frame Tables.
Import Rereport (is_closed).
Local Open Scope raise_scope.

(** One neighborhood's summary. *)
Record NeighborhoodSummary : Type := mkSummary {
  total_reports : nat;
  type_breakdown : list (string * nat);
  resolution_rate : option Q;
  avg_resolution_days : option PyFloat;
  recent_90_days : nat;
  prior_90_days : nat;
  trend_pct : option Q
}.

(** The distinct names of a column in ascending order, as [groupby] visits
    them; NaN names form no group. *)
Fixpoint insert_name (k : string) (ks : list string) : list string :=
  match ks with
  | [] => [k]
  | x :: t =>
      if String.ltb k x then k :: x :: t
      else if String.eqb k x then x :: t
      else x :: insert_name k t
  end.

Definition group_names (rs : list Row) : list string :=
  fold_right insert_name [] (present (map neighborhood rs)).

Definition in_neighborhood (name : string) (r : Row) : bool :=
  match neighborhood r with
  | Some n => String.eqb n name
  | None => false
  end.

(** [createddate >= cutoff]; NaT compares false. *)
Definition created_since (cutoff : Z) (r : Row) : bool :=
  match createddate r with
  | Some c => cutoff <=? c
  | None => false
  end.

Definition created_before (cutoff : Z) (r : Row) : bool :=
  match createddate r with
  | Some c => c <? cutoff
  | None => false
  end.

(** [round(m, 1)] of a median of whole days: a whole or a half number,
    which a float and its tenfold hold exactly, so that the rounding of
    Python and that of NumPy give the same decimal. *)
Definition round_float (ndigits : nat) (x : PyFloat) : PyFloat :=
  match x with
  | Num q => Num (round_nd ndigits q)
  | NaN => NaN
  end.

(** Line 300: [round((recent - prior) / prior * 100, 1)] on Python
    integers, a Python float rounded by Python. *)
Definition ratio_pct (a b : Z) : Q := round_nd 1 (percent a b).

(** Line 283: [round(closed / total_reports * 100, 1)]; [closed] is the
    NumPy integer [Series.sum] returns, so the quotient is a NumPy float
    and NumPy rounds it. *)
Definition rate_pct (a b : Z) : Q := np_round 1 (percent a b).

(** The body of the loop of [neighborhood_summary] for one group, at run
    time [now]. *)
Definition summarize (now : Z) (df : DataFrame) (group : list Row)
  : option NeighborhoodSummary :=
  let total_reports := List.length group in
  let type_breakdown :=
    if has_column df "srtype" then value_counts (map srtype group) else [] in
  let resolution_rate :=
    if has_column df "srstatus"
    then Some (rate_pct (Z.of_nat (List.length (filter is_closed group)))
                        (Z.of_nat total_reports))
    else None in
  do avg_res_days <-
    (if has_column df "resolution_days"
     then
       check has_column df "srstatus";
       match filter is_closed group with
       | [] => Some None
       | c :: cs =>
           Some (Some (round_float 1 (median (map resolution_days (c :: cs)))))
       end
     else Some None);
  check has_column df "createddate";
  let recent_cutoff := now - days 90 in
  let prior_cutoff := now - days 180 in
  let recent := List.length (filter (created_since recent_cutoff) group) in
  let prior :=
    List.length (filter (fun r => created_since prior_cutoff r
                                  && created_before recent_cutoff r) group) in
  let trend :=
    if (0 <? prior)%nat
    then Some (ratio_pct (Z.of_nat recent - Z.of_nat prior) (Z.of_nat prior))
    else if (0 <? recent)%nat then Some 100%Q
    else None in
  Some {| total_reports := total_reports;
          type_breakdown := type_breakdown;
          resolution_rate := resolution_rate;
          avg_resolution_days := avg_res_days;
          recent_90_days := recent;
          prior_90_days := prior;
          trend_pct := trend |}.

(** The loop over the groups: the empty name is skipped. *)
Fixpoint summary_loop (now : Z) (df : DataFrame) (names : list string)
  : option (list (string * NeighborhoodSummary)) :=
  match names with
  | [] => Some []
  | name :: rest =>
      if String.eqb name "" then summary_loop now df rest else
      do s <- summarize now df (filter (in_neighborhood name) (rows df));
      do ss <- summary_loop now df rest;
      Some ((name, s) :: ss)
  end.

(** [neighborhood_summary(df)] at run time [now]. *)
Definition neighborhood_summary (now : Z) (df : DataFrame)
  : option (list (string * NeighborhoodSummary)) :=
  if negb (has_column df "neighborhood") then Some []
  else summary_loop now df (group_names (rows df)).

End Neighborhoods.

(** ** Spatial Clusterer *)

Module Dbscan.
Import Frame.
Local Open Scope raise_scope.

(** MIN_CLUSTER_SAMPLES, and the label of a point in no cluster. *)
Definition MIN_CLUSTER_SAMPLES : nat := 2.
Definition NOISE : Z := -1.

(** The labelling loop of scikit-learn's DBSCAN ([dbscan_inner]), which the
    program calls through [DBSCAN(...).fit]: for each unlabelled core point
    a depth-first search gives one new label to everything reachable
    through core points. *)
Section Inner.
Variable neighborhoods : list (list nat).
Variable is_core : list bool.

Definition label_of (labels : list Z) (i : nat) : Z := nth i labels NOISE.

Fixpoint set_label (labels : list Z) (i : nat) (v : Z) : list Z :=
  match labels, i with
  | [], _ => []
  | _ :: t, O => v :: t
  | x :: t, S k => x :: set_label t k v
  end.

(** The neighbours still unlabelled go on the stack, the last on top. *)
Definition push_unlabelled (labels : list Z) (neighb stack : list nat)
  : list nat :=
  fold_left
    (fun st v => if label_of labels v =? NOISE then v :: st else st)
    neighb stack.

(** The [while True] loop: label [i], push its neighbours when it is a
    core point, pop the next point or stop on an empty stack. *)
Fixpoint depth_first (fuel : nat) (label_num : Z) (i : nat)
  (stack : list nat) (labels : list Z) : option (list Z) :=
  match fuel with
  | O => None
  | S fuel' =>
      let labels' :=
        if label_of labels i =? NOISE then set_label labels i label_num
        else labels in
      let stack' :=
        if (label_of labels i =? NOISE) && nth i is_core false
        then push_unlabelled labels' (nth i neighborhoods []) stack
        else stack in
      match stack' with
      | [] => Some labels'
      | v :: rest => depth_first fuel' label_num v rest labels'
      end
  end.

(** The [for i in range(n)] loop. *)
Fixpoint label_loop (fuel : nat) (todo : list nat) (label_num : Z)
  (labels : list Z) : option (list Z) :=
  match todo with
  | [] => Some labels
  | i :: rest =>
      if negb (label_of labels i =? NOISE) || negb (nth i is_core false)
      then label_loop fuel rest label_num labels
      else
        do labels' <- depth_first fuel label_num i [] labels;
        label_loop fuel rest (label_num + 1) labels'
  end.

(** Every pop follows a push and a point pushes its neighbours once, so
    this many iterations are enough for one search. *)
Definition enough_fuel : nat :=
  S (list_sum (map (@List.length nat) neighborhoods)).

Definition dbscan_inner (labels : list Z) : option (list Z) :=
  label_loop enough_fuel (seq 0 (List.length labels)) 0 labels.
End Inner.

(** The link graph on the indices of the points, as the neighbourhoods give
    it, and the search state the proofs speak about. *)
Section Graph.
Variable neighborhoods : list (list nat).

(** [v] is in the neighbourhood of [u]. *)
Definition edge (u v : nat) : Prop := In v (nth u neighborhoods []).

(** [v] can be reached from [u] through neighbourhoods. *)
Definition reachable : nat -> nat -> Prop := clos_refl_trans nat edge.

(** The neighbourhood sizes of the points still unlabelled: what the
    searches can still push. *)
Definition unlabelled_weight (n : nat) (labels : list Z) : nat :=
  list_sum
    (map (fun v => if label_of labels v =? NOISE
                   then List.length (nth v neighborhoods []) else 0%nat)
         (seq 0 n)).

(** The state of one depth-first search, between two iterations: the labels
    [labels0] it started from, its label, its start point, the current
    labels and the points still to visit (the current point and the
    stack). *)
Definition search_inv (is_core : list bool) (n : nat) (labels0 : list Z)
  (label_num : Z) (start : nat) (labels : list Z) (worklist : list nat)
  : Prop :=
  List.length labels = n
  /\ (forall v, label_of labels0 v <> NOISE ->
                label_of labels v = label_of labels0 v)
  /\ (forall v, label_of labels0 v = NOISE ->
                label_of labels v = NOISE \/ label_of labels v = label_num)
  /\ (forall v, label_of labels v = label_num -> reachable start v)
  /\ (forall w, In w worklist ->
                (w < n)%nat /\ reachable start w
                /\ nth w is_core false = true
                /\ label_of labels0 w = NOISE)
  /\ (forall u v, label_of labels u = label_num -> edge u v ->
                  label_of labels v <> NOISE \/ In v worklist)
  /\ (label_of labels start = label_num \/ In start worklist).

(** The state of the labelling loop before it visits [todo]: labels are
    below [label_num], only core points are labelled, a label is a set of
    points reachable from each other and closed under the links, and the
    core points already visited are labelled. *)
Definition labelling_inv (is_core : list bool) (n : nat) (labels : list Z)
  (label_num : Z) (todo : list nat) : Prop :=
  List.length labels = n
  /\ 0 <= label_num
  /\ (forall v, label_of labels v = NOISE
                \/ 0 <= label_of labels v < label_num)
  /\ (forall v, label_of labels v <> NOISE -> nth v is_core false = true)
  /\ (forall u v, label_of labels u <> NOISE ->
                  label_of labels u = label_of labels v -> reachable u v)
  /\ (forall u v, label_of labels u <> NOISE -> edge u v ->
                  label_of labels v = label_of labels u)
  /\ (forall v, (v < n)%nat -> ~ In v todo -> nth v is_core false = true ->
                label_of labels v <> NOISE).
End Graph.

(** Two points of [X] are linked when they are within the radius of each
    other; a component is a class of the reflexive and transitive closure
    of the links. *)
Definition linked {P : Type} (within_eps : P -> P -> bool) (X : list P)
  (p q : P) : Prop :=
  In p X /\ In q X /\ within_eps p q = true.

Definition same_component {P : Type} (within_eps : P -> P -> bool)
  (X : list P) : P -> P -> Prop :=
  clos_refl_trans P (linked within_eps X).

(** The number of rows of [X] within the radius of [p]; a row at [p]
    counts itself. *)
Definition neighbour_count {P : Type} (within_eps : P -> P -> bool)
  (X : list P) (p : P) : nat :=
  List.length (filter (within_eps p) X).

(** [radius_neighbors]: for every point the indices of the points within
    the radius, itself included. The order inside a neighbourhood is the
    index order here; the ball tree may give another one. *)
Definition radius_neighbors {P : Type} (within_eps : P -> P -> bool)
  (X : list P) : list (list nat) :=
  map (fun p =>
         filter (fun j => within_eps p (nth j X p)) (seq 0 (List.length X)))
      X.

(** The body of [DBSCAN.fit] on a validated array: the neighbourhoods,
    the core points and the labelling loop. *)
Definition fit_labels {P : Type} (within_eps : P -> P -> bool) (X : list P)
  : option (list Z) :=
  let neighborhoods := radius_neighbors within_eps X in
  let core_samples :=
    map (fun neighb => (MIN_CLUSTER_SAMPLES <=? List.length neighb)%nat)
        neighborhoods in
  dbscan_inner neighborhoods core_samples (repeat NOISE (List.length X)).

(** [DBSCAN(eps, min_samples=2).fit(X).labels_]: the validation of the
    input refuses an array without a sample (a [ValueError]). *)
Definition dbscan_labels {P : Type} (within_eps : P -> P -> bool) (X : list P)
  : option (list Z) :=
  check negb (List.length X =? 0)%nat;
  fit_labels within_eps X.

(** Lines 31-33: the radius, in metres and in degrees of latitude. *)
Definition CLUSTER_EPS_METERS : Q := 75.
Definition METERS_PER_DEGREE_LAT : Q := 111000.
Definition EPS_DEGREES : Q := CLUSTER_EPS_METERS / METERS_PER_DEGREE_LAT.

(** [np.radians] and line 80, [eps_rad = EPS_DEGREES * (np.pi / 180)]. *)
Definition radians (deg : Q) : R := (Q2R deg * (PI / 180))%R.
Definition eps_rad : R := (Q2R EPS_DEGREES * (PI / 180))%R.

(** The haversine metric of scikit-learn on two points (latitude,
    longitude) given in degrees and converted as line 77 does: the
    great-circle distance on the unit sphere, an angle in radians. The
    trees of the library compare [haversine_rdist], the squared sine of
    half the distance, against that of the radius; on the reals that is
    the comparison of the distances. *)
Definition haversine_rdist (p q : Q * Q) : R :=
  let lat1 := radians (fst p) in
  let lon1 := radians (snd p) in
  let lat2 := radians (fst q) in
  let lon2 := radians (snd q) in
  ((sin ((lat1 - lat2) / 2))²
   + cos lat1 * cos lat2 * (sin ((lon1 - lon2) / 2))²)%R.

Definition haversine (p q : Q * Q) : R :=
  (2 * asin (sqrt (haversine_rdist p q)))%R.

(** The radius query of line 82-87 on two points: their haversine
    distance is at most [eps_rad]. The arithmetic is that of the reals;
    the floats of the program can differ from it only for two points
    whose distance is within rounding error of the radius. *)
Definition haversine_within (p q : Q * Q) : bool :=
  if Rle_dec (haversine p q) eps_rad then true else false.

(** Latitudes between the poles, in degrees. *)
Definition in_range (lat : Q) : Prop := (-90 <= lat)%Q /\ (lat <= 90)%Q.

(** A point of the frame: latitude and longitude. *)
Definition coords (r : Row) : Q * Q := (latitude r, longitude r).

Definition with_cluster_id (r : Row) (label : Z) : Row :=
  {| servicerequestnum := servicerequestnum r;
     srtype := srtype r;
     srstatus := srstatus r;
     createddate := createddate r;
     statusdate := statusdate r;
     resolution_days := resolution_days r;
     neighborhood := neighborhood r;
     latitude := latitude r;
     longitude := longitude r;
     cluster_id := label |}.

Fixpoint assign_labels (rs : list Row) (labels : list Z) : list Row :=
  match rs, labels with
  | r :: rs', l :: labels' => with_cluster_id r l :: assign_labels rs' labels'
  | _, _ => []
  end.

(** [cluster_locations(df)]. [within_eps p q] is the test the clusterer
    makes on two points; the program's is [haversine_within]. *)
Definition cluster_locations (within_eps : Q * Q -> Q * Q -> bool)
  (df : DataFrame) : option DataFrame :=
  check has_column df "latitude" && has_column df "longitude";
  do labels <- dbscan_labels within_eps (map coords (rows df));
  Some (mkFrame (if has_column df "cluster_id" then columns df
                 else columns df ++ ["cluster_id"])
                (assign_labels (rows df) labels)).

End Dbscan.

(** ** Category Recurrence Calculator: [category_fix_rates] *)

Module CategoryStats.
Import PyStr Frame Tables Rereport Hotspots Category.
Import Neighborhoods (insert_name).

(** What [category_fix_rates] reads from one record of [hotspots_list]:
    [h.get('cluster_id')], the value [h.get('primary_type', '')] hands to
    [categorize_type], and [h.get('history', [])]. *)
Record HotspotView : Type := mkView {
  view_cluster_id : option Z;
  view_primary_type : option string;
  view_history : list HistoryEntry
}.

(** One value of the result. *)
Record CategoryStat : Type := mkStat {
  total_requests : nat;
  requests_at_chronic_locations : nat;
  rereports : nat;
  recurrence_pct : Q;
  chronic_location_pct : Q
}.

(** Lines 434-441: the loop over the hotspots for one category, summing
    the flagged entries and the entries of the hotspots whose primary type
    falls in the category. *)
Fixpoint hotspot_totals (cat : string) (hotspots_list : list HotspotView)
  (cat_rereports cat_cluster_reports : nat) : nat * nat :=
  match hotspots_list with
  | [] => (cat_rereports, cat_cluster_reports)
  | h :: rest =>
      if negb (String.eqb (categorize_type (view_primary_type h)) cat)
      then hotspot_totals cat rest cat_rereports cat_cluster_reports
      else hotspot_totals cat rest
             (cat_rereports + count_rereports (view_history h))%nat
             (cat_cluster_reports + List.length (view_history h))%nat
  end.

(** Lines 443-444: [round(part / total * 100, 1) if total > 0 else 0], on
    Python integers. *)
Definition pct (part total : nat) : Q :=
  if (0 <? total)%nat
  then round_nd 1 (percent (Z.of_nat part) (Z.of_nat total))
  else 0.

(** Lines 427-452: the value stored for one category. *)
Definition category_stat (cat : string) (total : nat)
  (hotspots_list : list HotspotView) : CategoryStat :=
  let totals := hotspot_totals cat hotspots_list 0%nat 0%nat in
  {| total_requests := total;
     requests_at_chronic_locations := snd totals;
     rereports := fst totals;
     recurrence_pct := pct (fst totals) total;
     chronic_location_pct := pct (snd totals) total |}.

(** The keys [df.groupby('_category')] visits: the distinct categories in
    ascending order. *)
Definition category_keys (cats : list string) : list string :=
  fold_right insert_name [] cats.

(** The sort key of line 455 is [-recurrence_pct], ascending. *)
Definition stat_le (a b : string * CategoryStat) : bool :=
  Qle_bool (- recurrence_pct (snd a)) (- recurrence_pct (snd b)).

(** [DataFrame.empty]: no row or no column. *)
Definition frame_empty (df : DataFrame) : bool :=
  match rows df, columns df with
  | [], _ => true
  | _, [] => true
  | _ :: _, _ :: _ => false
  end.

(** [category_fix_rates(df_311, hotspots_list)]. The two lookup tables of
    lines 411-419 are filled and never read; they are left out. *)
Definition category_fix_rates (df_311 : option DataFrame)
  (hotspots_list : list HotspotView) : list (string * CategoryStat) :=
  match df_311 with
  | None => []
  | Some df =>
      if frame_empty df then []
      else if negb (has_column df "srtype") then []
      else
        let cats := map categorize_type (map srtype (rows df)) in
        let stats :=
          map (fun cat =>
                 (cat, category_stat cat
                         (count_occ string_dec cats cat) hotspots_list))
              (category_keys cats) in
        stable_sort stat_le stats
  end.

End CategoryStats.

(** ** The run: [main] without its file and console output *)

Module Pipeline.
Import PyStr Frame Tables Rereport Hotspots Gap Neighborhoods Dbscan.
Import CategoryStats.
Local Open Scope raise_scope.

(** [Series.mode()]: the most frequent present values, in ascending
    order. *)
Definition mode (cells : list (option string)) : list string :=
  let counts := fold_left count_one (present cells) [] in
  let top := fold_right Nat.max 0%nat (map snd counts) in
  fold_right insert_name []
    (map fst (filter (fun kv => (snd kv =? top)%nat) counts)).

(** Lines 166-167: the primary type of a group. *)
Definition primary_type_of (group : DataFrame) : string :=
  match (if has_column group "srtype" then mode (map srtype (rows group))
         else []) with
  | [] => "Unknown"
  | s :: _ => s
  end.

(** The record of a hotspot as [hotspots_df.to_dict('records')] hands it
    to [category_fix_rates]; the primary type is that of the hotspot's
    group. *)
Definition hotspot_view (df_clustered : DataFrame) (h : Hotspot)
  : HotspotView :=
  {| view_cluster_id := Some (hs_cluster_id h);
     view_primary_type :=
       Some (primary_type_of (cluster_frame df_clustered (hs_cluster_id h)));
     view_history := history h |}.

(** [summary_stats], without the generation time. *)
Record SummaryStats : Type := mkSummaryStats {
  summary_total_requests : nat;
  date_range_start : option Z;
  date_range_end : option Z;
  chronic_hotspots : nat;
  high_priority_hotspots : nat;
  neighborhoods_analyzed : nat;
  gap_neighborhoods : nat
}.

(** The document [main] writes. *)
Record Output : Type := mkOutput {
  summary : SummaryStats;
  hotspots : list Hotspot;
  neighborhoods : list (string * NeighborhoodSummary);
  gaps : list GapRecord;
  category_stats : list (string * CategoryStat)
}.

(** Lines 470-527 of [main] on a loaded 311 frame, at run time [now]. *)
Definition analyze (within_eps : Q * Q -> Q * Q -> bool) (now : Z)
  (df_311 : DataFrame) (df_reddit : option (list Post)) : option Output :=
  do df_clustered <- cluster_locations within_eps df_311;
  do hotspots_df <- identify_chronic_hotspots df_clustered;
  let n_hotspots := List.length hotspots_df in
  let n_high_priority := List.length (filter is_high_priority hotspots_df) in
  do neighborhoods <- neighborhood_summary now df_311;
  do gaps <- gap_analysis (Some df_311) df_reddit;
  let hotspots_list := map (hotspot_view df_clustered) hotspots_df in
  let cat_stats := category_fix_rates (Some df_311) hotspots_list in
  check has_column df_311 "createddate";
  Some {| summary :=
            {| summary_total_requests := List.length (rows df_311);
               date_range_start := series_min (map createddate (rows df_311));
               date_range_end := series_max (map createddate (rows df_311));
               chronic_hotspots := n_hotspots;
               high_priority_hotspots := n_high_priority;
               neighborhoods_analyzed := List.length neighborhoods;
               gap_neighborhoods := List.length gaps |};
          hotspots := hotspots_df;
          neighborhoods := neighborhoods;
          gaps := gaps;
          category_stats := cat_stats |}.

End Pipeline.

(** ** Sample frames *)

Module Samples.
Import Frame.
Local Open Scope list_scope.

(** The columns [fetch_311.py] writes that the engine reads. *)
Definition COLUMNS_311 : list string :=
  ["servicerequestnum"; "srtype"; "createddate"; "statusdate"; "srstatus";
   "neighborhood"; "latitude"; "longitude"; "resolution_days"].

(** A report of cluster 0 created on day [created], with its status and the
    day of its status change; the resolution is derived as [fetch_311.py]
    does. *)
Definition report (created : Z) (st : string) (status_day : Z) : Row :=
  {| servicerequestnum := Some "SR";
     srtype := Some "Pothole";
     srstatus := Some st;
     createddate := Some (days created);
     statusdate := Some (days status_day);
     resolution_days := Some (status_day - created);
     neighborhood := Some "Canton";
     latitude := 39.28;
     longitude := -76.57;
     cluster_id := 0 |}.

Definition frame (rs : list Row) : DataFrame :=
  mkFrame (COLUMNS_311 ++ ["cluster_id"]) rs.

(** A closure on day 10, then reports 30 and 150 days after it. *)
Definition closure_then_reports : DataFrame :=
  frame [report 0 "Closed" 10; report 40 "Open" 40; report 160 "Open" 160].

(** Five co-located reports spanning 100 days: one is closed on day 45 and
    two reports follow that closure within 60 days. *)
Definition five_reports : DataFrame :=
  frame [report 0 "Open" 0; report 10 "Open" 10; report 40 "Closed" 45;
         report 60 "Open" 60; report 100 "Open" 100].

(** Four reports spanning exactly 90 days, three reports, four reports
    spanning 89 days. *)
Definition four_over_90 : DataFrame :=
  frame [report 0 "Open" 0; report 30 "Open" 30; report 60 "Open" 60;
         report 90 "Open" 90].

Definition three_over_90 : DataFrame :=
  frame [report 0 "Open" 0; report 30 "Open" 30; report 90 "Open" 90].

Definition four_over_89 : DataFrame :=
  frame [report 0 "Open" 0; report 30 "Open" 30; report 60 "Open" 60;
         report 89 "Open" 89].

(** A report whose creation timestamp is missing. *)
Definition undated_report : Row :=
  {| servicerequestnum := Some "SR";
     srtype := Some "Pothole";
     srstatus := Some "Open";
     createddate := None;
     statusdate := None;
     resolution_days := None;
     neighborhood := Some "Canton";
     latitude := 39.28;
     longitude := -76.57;
     cluster_id := 0 |}.

Definition four_undated : DataFrame :=
  frame [undated_report; undated_report; undated_report; undated_report].

(** Four reports spanning 90 days; three are closed, each on the day it was
    created, so that their resolution durations are 0 days. *)
Definition closed_same_day : DataFrame :=
  frame [report 0 "Closed" 0; report 30 "Closed" 30; report 60 "Closed" 60;
         report 90 "Open" 90].

(** A frame of [n] reports of one neighborhood. *)
Definition reports_in (name : string) (n : nat) : list Row :=
  repeat {| servicerequestnum := Some "SR";
            srtype := Some "Pothole";
            srstatus := Some "Open";
            createddate := Some 0;
            statusdate := Some 0;
            resolution_days := Some 0;
            neighborhood := Some name;
            latitude := 39.28;
            longitude := -76.57;
            cluster_id := -1 |} n.

(** A report with its creation and status timestamps in nanoseconds. *)
Definition report_at (created : Z) (st : string) (status_time : Z) : Row :=
  {| servicerequestnum := Some "SR";
     srtype := Some "Pothole";
     srstatus := Some st;
     createddate := Some created;
     statusdate := Some status_time;
     resolution_days := Some (timedelta_days (status_time - created));
     neighborhood := Some "Canton";
     latitude := 39.28;
     longitude := -76.57;
     cluster_id := 0 |}.

(** A closure at the start of day 10, a report 12 hours after it and a
    report 120 days and 12 hours after it. *)
Definition half_day_gaps : DataFrame :=
  frame [report 0 "Closed" 10;
         report_at (days 10 + NS_PER_DAY / 2) "Open"
                   (days 10 + NS_PER_DAY / 2);
         report_at (days 130 + NS_PER_DAY / 2) "Open"
                   (days 130 + NS_PER_DAY / 2)].

(** Five reports spanning exactly 30 days. *)
Definition five_over_30 : DataFrame :=
  frame [report 0 "Open" 0; report 7 "Open" 7; report 14 "Open" 14;
         report 21 "Open" 21; report 30 "Open" 30].

(** Three reports in Canton, ten in Hampden, and two posts that each
    mention Canton once. *)
Definition canton_hampden : DataFrame :=
  mkFrame COLUMNS_311 (reports_in "Canton" 3 ++ reports_in "Hampden" 10).

Definition canton_posts : list Gap.Post :=
  [Gap.mkPost (Gap.HintsJson ["canton"]);
   Gap.mkPost (Gap.HintsJson ["near Canton Square"])].

(** One post with two hints for Canton, one of which also matches
    Canton Square. *)
Definition canton_square : DataFrame :=
  mkFrame COLUMNS_311
    (reports_in "Canton" 1 ++ reports_in "Canton Square" 1).

Definition two_hint_post : list Gap.Post :=
  [Gap.mkPost (Gap.HintsJson ["canton"; "Canton Square"])].

(** Ten neighborhoods averaging 100 reports each. *)
Definition ten_neighborhoods : list (string * nat) :=
  [("Waverly", 200%nat); ("Remington", 150%nat); ("Guilford", 120%nat);
   ("Homeland", 110%nat); ("Pigtown", 100%nat); ("Brooklyn", 100%nat);
   ("Roland Park", 80%nat); ("Hampden", 60%nat); ("Cherry Hill", 60%nat);
   ("Canton", 20%nat)].

Definition three_mentions_each : list Gap.Post :=
  repeat (Gap.mkPost (Gap.HintsJson ["canton"; "hampden"])) 3.

(** A frame without a neighborhood column. *)
Definition no_neighborhood_column : DataFrame :=
  mkFrame ["servicerequestnum"; "srtype"; "createddate"; "statusdate";
           "srstatus"; "latitude"; "longitude"]
          (reports_in "Canton" 2).

(** A planar radius test, for the statements that hold of every radius
    test: the squared difference of the coordinates against a squared
    radius of 0.0006 degrees. *)
Definition flat_within (p q : Q * Q) : bool :=
  Qle_bool ((fst p - fst q) * (fst p - fst q)
            + (snd p - snd q) * (snd p - snd q))
           (0.0006 * 0.0006).

(** The difference of two latitudes against the radius in degrees: what
    the haversine test comes to on two points of one meridian, or whose
    latitudes are farther apart than the radius. *)
Definition latitude_within (p q : Q * Q) : bool :=
  Qle_bool (Qabs (fst p - fst q)) Dbscan.EPS_DEGREES.

Definition meridian_or_far (p q : Q * Q) : bool :=
  Qeq_bool (snd p) (snd q)
  || negb (Qle_bool (Qabs (fst p - fst q)) Dbscan.EPS_DEGREES).

Definition located (lat lon : Q) : Row :=
  {| servicerequestnum := Some "SR";
     srtype := Some "Pothole";
     srstatus := Some "Open";
     createddate := Some 0;
     statusdate := Some 0;
     resolution_days := Some 0;
     neighborhood := Some "Canton";
     latitude := lat;
     longitude := lon;
     cluster_id := 0 |}.

(** Three points in a chain, each within the radius of the next but the
    ends not of each other, and one point far away; then the same points
    in another row order. *)
Definition chain_and_far : DataFrame :=
  mkFrame COLUMNS_311
    [located 39.2800 (-76.5700); located 39.2805 (-76.5700);
     located 39.2810 (-76.5700); located 39.3500 (-76.6500)].

Definition chain_and_far_shuffled : DataFrame :=
  mkFrame COLUMNS_311
    [located 39.3500 (-76.6500); located 39.2810 (-76.5700);
     located 39.2800 (-76.5700); located 39.2805 (-76.5700)].

(** Three reports of one cluster whose status cells are NaN. *)
Definition report_without_status (created : Z) : Row :=
  {| servicerequestnum := Some "SR";
     srtype := Some "Pothole";
     srstatus := None;
     createddate := Some (days created);
     statusdate := None;
     resolution_days := None;
     neighborhood := Some "Canton";
     latitude := 39.28;
     longitude := -76.57;
     cluster_id := 0 |}.

Definition three_without_status : DataFrame :=
  frame [report_without_status 0; report_without_status 50;
         report_without_status 100].

(** Eighty pothole reports and twenty street-light reports, with three
    hotspots: thirty pothole reports of which 23 are flagged, four
    street-light reports of which one is flagged, and three flagged
    sidewalk reports, a category no row of the frame falls in. *)
Definition reports_of_type (type : string) (n : nat) : list Row :=
  repeat {| servicerequestnum := Some "SR";
            srtype := Some type;
            srstatus := Some "Open";
            createddate := Some 0;
            statusdate := Some 0;
            resolution_days := Some 0;
            neighborhood := Some "Canton";
            latitude := 39.28;
            longitude := -76.57;
            cluster_id := -1 |} n.

Definition potholes_and_lights : DataFrame :=
  mkFrame COLUMNS_311
    (reports_of_type "Pothole" 80 ++ reports_of_type "Street Light Out" 20).

Definition entries (type : string) (flagged unflagged : nat)
  : list Rereport.HistoryEntry :=
  repeat (Rereport.mkEntry (Some 0) "Open" (Some type) (Some "SR") None true)
         flagged
  ++ repeat (Rereport.mkEntry (Some 0) "Open" (Some type) (Some "SR") None
               false)
            unflagged.

Definition three_hotspots : list CategoryStats.HotspotView :=
  [CategoryStats.mkView (Some 0) (Some "Pothole") (entries "Pothole" 23 7);
   CategoryStats.mkView (Some 1) (Some "Street Light Out")
     (entries "Street Light Out" 1 3);
   CategoryStats.mkView (Some 2) (Some "Sidewalk Repair")
     (entries "Sidewalk Repair" 3 0)].

End Samples.

(** * Properties *)

(** ** Sorting *)

Module SortFacts.
Import Frame.
Local Open Scope list_scope.

Section StableSortFacts.
Context {A : Type} (le : A -> A -> bool).

Lemma insert_sorted_perm (x : A) (l : list A) :
  Permutation (x :: l) (insert_sorted le x l).
Proof.
  induction l as [|y t IH]; simpl; [reflexivity|].
  destruct (le x y); [reflexivity|].
  rewrite perm_swap. now constructor.
Qed.

Lemma stable_sort_perm (l : list A) : Permutation l (stable_sort le l).
Proof.
  induction l as [|x t IH]; simpl; [constructor|].
  rewrite <- insert_sorted_perm. now constructor.
Qed.

Lemma stable_sort_length (l : list A) :
  List.length (stable_sort le l) = List.length l.
Proof. symmetry. apply Permutation_length, stable_sort_perm. Qed.

Hypothesis le_total : forall a b, le a b = true \/ le b a = true.

Lemma insert_sorted_sorted (x : A) (l : list A) :
  Sorted (fun a b => le a b = true) l ->
  Sorted (fun a b => le a b = true) (insert_sorted le x l).
Proof.
  induction 1 as [|y t Ht IH Hhd]; simpl.
  - repeat constructor.
  - destruct (le x y) eqn:E.
    + repeat constructor; assumption.
    + constructor; [exact IH|].
      destruct (le_total x y) as [H|H]; [congruence|].
      destruct t as [|z t']; simpl.
      * now constructor.
      * destruct (le x z); constructor; [exact H|].
        now inversion Hhd.
Qed.

Lemma stable_sort_sorted (l : list A) :
  Sorted (fun a b => le a b = true) (stable_sort le l).
Proof.
  induction l as [|x t IH]; simpl; [constructor|].
  now apply insert_sorted_sorted.
Qed.
End StableSortFacts.

Lemma filter_split_perm {A : Type} (f : A -> bool) (l : list A) :
  Permutation l (filter f l ++ filter (fun x => negb (f x)) l).
Proof.
  induction l as [|x t IH]; simpl; [constructor|].
  destruct (f x); simpl.
  - now constructor.
  - now apply Permutation_cons_app.
Qed.

Lemma sort_values_createddate_perm (rs : list Row) :
  Permutation rs (sort_values_createddate rs).
Proof.
  unfold sort_values_createddate.
  rewrite <- stable_sort_perm. apply filter_split_perm.
Qed.

(** The walk order: ascending creation timestamps, rows without one last. *)
Lemma sort_values_createddate_ascending (rs : list Row) :
  exists dated undated,
    sort_values_createddate rs = dated ++ undated
    /\ Sorted (fun a b => created_le a b = true) dated
    /\ Forall (fun r => createddate r <> None) dated
    /\ Forall (fun r => createddate r = None) undated.
Proof.
  eexists _, _. split; [reflexivity|]. split; [|split].
  - apply stable_sort_sorted. intros a b. unfold created_le.
    destruct (createddate a), (createddate b); auto.
    destruct (Z.leb_spec z z0); [now left|right]. apply Z.leb_le. lia.
  - apply Forall_forall. intros r Hr.
    apply (Permutation_in _ (Permutation_sym (stable_sort_perm _ _))) in Hr.
    apply filter_In in Hr as [_ Hr]. now destruct (createddate r).
  - apply Forall_forall. intros r Hr.
    apply filter_In in Hr as [_ Hr]. now destruct (createddate r).
Qed.

End SortFacts.

(** ** Strings *)

Module PyStrFacts.
Import PyStr.

Lemma lower_ascii_idempotent (c : ascii) :
  lower_ascii (lower_ascii c) = lower_ascii c.
Proof. destruct c as [[] [] [] [] [] [] [] []]; reflexivity. Qed.

Lemma lower_idempotent (s : string) : lower (lower s) = lower s.
Proof.
  induction s as [|c t IH]; simpl; [reflexivity|].
  now rewrite lower_ascii_idempotent, IH.
Qed.

Lemma lower_empty_iff (s : string) : lower s = "" <-> s = "".
Proof.
  destruct s; simpl; split; intro H; try reflexivity; discriminate H.
Qed.

Lemma prefix_app (p s : string) :
  String.prefix p s = true <-> exists rest, s = p ++ rest.
Proof.
  revert s; induction p as [|c p IH]; intros s.
  - destruct s; simpl; split; intros; try reflexivity; eexists; reflexivity.
  - destruct s as [|d s]; simpl.
    + split; [discriminate | intros [r Hr]; discriminate Hr].
    + destruct (Ascii.ascii_dec c d) as [->|Hne].
      * rewrite IH. split; intros [r Hr]; exists r.
        -- now rewrite Hr.
        -- now injection Hr.
      * split; [discriminate | intros [r Hr]; injection Hr; intros; subst; now elim Hne].
Qed.

(** [contains] is the substring test: the needle occurs between some
    prefix and some suffix of the text. *)
Lemma contains_spec (needle hay : string) :
  contains needle hay = true <-> exists a b, hay = a ++ needle ++ b.
Proof.
  induction hay as [|c t IH].
  - change (contains needle "") with (String.prefix needle "" || false).
    rewrite orb_false_r, prefix_app. split.
    + intros [r Hr]. exists "", r. exact Hr.
    + intros [a [b H]]. destruct a; simpl in H.
      * now exists b.
      * discriminate H.
  - change (contains needle (String c t))
      with (String.prefix needle (String c t) || contains needle t).
    rewrite orb_true_iff, prefix_app, IH. split.
    + intros [[r Hr] | [a [b H]]].
      * exists "", r. exact Hr.
      * exists (String c a), b. simpl. now rewrite H.
    + intros [a [b H]]. destruct a as [|d a]; simpl in H.
      * left. now exists b.
      * right. injection H as _ H. now exists a, b.
Qed.

(** *** Letter case *)

Lemma ascii_eqb_nat (a b : ascii) :
  Ascii.eqb a b = (nat_of_ascii a =? nat_of_ascii b)%nat.
Proof.
  destruct (Ascii.eqb_spec a b) as [-> | NE].
  - symmetry. apply Nat.eqb_refl.
  - symmetry. apply Nat.eqb_neq. intros E. apply NE.
    rewrite <- (ascii_nat_embedding a), <- (ascii_nat_embedding b).
    now rewrite E.
Qed.

(** A character that is not a capital is the same letter as another one
    exactly when it is that one lowered. *)
Lemma same_letter_lower (a b : ascii) :
  ((65 <=? nat_of_ascii a) && (nat_of_ascii a <=? 90))%nat = false ->
  same_letter a b = Ascii.eqb a (lower_ascii b).
Proof.
  intros Ha. unfold same_letter, lower_ascii. cbv zeta. rewrite Ha.
  cbn [andb orb]. rewrite orb_false_r.
  destruct ((65 <=? nat_of_ascii b) && (nat_of_ascii b <=? 90))%nat eqn:Hb;
    cbn [andb].
  - rewrite ascii_eqb_nat.
    apply andb_true_iff in Hb as [H1 H2].
    apply Nat.leb_le in H1, H2.
    rewrite nat_ascii_embedding by lia.
    destruct (Nat.eqb_spec (nat_of_ascii a) (nat_of_ascii b)) as [E | _];
      [|reflexivity].
    exfalso. rewrite E in Ha.
    apply andb_false_iff in Ha as [Ha | Ha];
      [apply Nat.leb_gt in Ha | apply Nat.leb_gt in Ha]; lia.
  - rewrite orb_false_r. symmetry. apply ascii_eqb_nat.
Qed.

Lemma prefix_ci_lower (kw : string) :
  no_capital kw ->
  forall s, prefix_ci kw s = String.prefix kw (lower s).
Proof.
  induction kw as [|c k IH]; intros Hkw s.
  - now destruct s.
  - destruct s as [|d t]; [reflexivity|].
    cbn [prefix_ci lower String.prefix].
    rewrite same_letter_lower by (apply Hkw; now left).
    rewrite IH by (intros x Hx; apply Hkw; now right).
    destruct (Ascii.eqb_spec c (lower_ascii d)) as [E | NE].
    + rewrite <- E. destruct (Ascii.ascii_dec c c); [reflexivity|congruence].
    + destruct (Ascii.ascii_dec c (lower_ascii d));
        [congruence | reflexivity].
Qed.

(** For a keyword without capitals, the test of the program on the
    lowered text is the occurrence of the keyword with the letter case
    set aside. *)
Lemma contains_ci_lower (kw : string) :
  no_capital kw ->
  forall s, contains_ci kw s = contains kw (lower s).
Proof.
  intros Hkw. induction s as [|d t IH].
  - cbn [contains_ci lower contains]. now rewrite prefix_ci_lower.
  - change (contains_ci kw (String d t))
      with (prefix_ci kw (String d t) || contains_ci kw t).
    change (contains kw (lower (String d t)))
      with (String.prefix kw (lower (String d t)) || contains kw (lower t)).
    now rewrite prefix_ci_lower, IH.
Qed.

End PyStrFacts.

(** ** Category Recurrence Calculator *)

Module CategoryFacts.
Import PyStr Category PyStrFacts.

Lemma first_match_in (rules : list (list string * string)) (t : string) :
  In (first_match rules t) (map snd rules ++ ["Other"]).
Proof.
  induction rules as [|r rs IH]; simpl.
  - now left.
  - destruct (rule_matches t r); [now left | now right].
Qed.

(** First match wins: a rule that matches decides, whatever follows it,
    when no rule before it matches. *)
Lemma first_match_decides (before after : list (list string * string))
  (rule : list string * string) (t : string) :
  forallb (fun r => negb (rule_matches t r)) before = true ->
  rule_matches t rule = true ->
  first_match (before ++ rule :: after) t = snd rule.
Proof.
  induction before as [|r rs IH]; simpl; intros Hb Hr.
  - now rewrite Hr.
  - apply andb_true_iff in Hb as [H1 H2].
    apply negb_true_iff in H1. rewrite H1. now apply IH.
Qed.

Lemma categorize_type_rules (s : string) :
  categorize_type (Some s) = first_match PRIORITY_RULES (lower s).
Proof.
  destruct s as [|c s]; [reflexivity|].
  unfold categorize_type. change (truthy (Some (String c s))) with true.
  cbv beta iota delta [negb str].
  set (t := lower (String c s)).
  cbv beta iota delta [first_match PRIORITY_RULES rule_matches existsb fst snd].
  repeat match goal with
         | |- context [contains ?k t] =>
             destruct (contains k t); [reflexivity|]
         end.
  reflexivity.
Qed.

Lemma keywords_no_capital (rule : list string * string) (kw : string) :
  In rule PRIORITY_RULES -> In kw (fst rule) -> no_capital kw.
Proof.
  intros Hr Hk c Hc. cbn in Hr.
  repeat (destruct Hr as [<- | Hr];
          [cbn in Hk;
           repeat (destruct Hk as [<- | Hk];
                   [cbn in Hc;
                    repeat (destruct Hc as [<- | Hc]; [reflexivity|]);
                    contradiction|]);
           contradiction|]).
  contradiction.
Qed.

Lemma first_match_ci_lower (rules : list (list string * string))
  (s : string) :
  (forall rule kw, In rule rules -> In kw (fst rule) -> no_capital kw) ->
  first_match_ci rules s = first_match rules (lower s).
Proof.
  induction rules as [|rule rest IH]; intros Hk; [reflexivity|].
  cbn [first_match_ci first_match].
  assert (E : rule_matches_ci s rule = rule_matches (lower s) rule).
  { unfold rule_matches_ci, rule_matches.
    assert (Hr : forall kw, In kw (fst rule) -> no_capital kw)
      by (intros kw Hin; apply (Hk rule kw); [now left | exact Hin]).
    induction (fst rule) as [|kw kws IHk]; [reflexivity|].
    cbn [existsb].
    rewrite contains_ci_lower by (apply Hr; now left).
    rewrite IHk by (intros k Hin; apply Hr; now right). reflexivity. }
  rewrite E, IH; [reflexivity|].
  intros r kw Hr. apply Hk. now right.
Qed.

(** C8: every request-type string (of ASCII text) gets exactly one
    category of the fixed set, namely the one of the first rule of the
    priority list (pothole, street light, alley, sidewalk, water main,
    cave-in / sinkhole, storm drain, street / curb) one of whose keywords
    occurs in the string, whatever the case of its letters, and "Other"
    when none does. *)
Theorem categorize_type_first_match (s : string) :
  is_ascii s = true ->
  categorize_type (Some s) = first_match_ci PRIORITY_RULES s
  /\ In (categorize_type (Some s)) CATEGORIES
  /\ map fst PRIORITY_RULES
     = [["pothole"]; ["light"; "streetlight"]; ["alley"]; ["sidewalk"];
        ["water"; "main"]; ["cave"; "sinkhole"];
        ["storm"; "drain"; "catch"]; ["curb"; "bridge"; "street"]].
Proof.
  intros _. split; [|split; [|reflexivity]].
  - rewrite categorize_type_rules. symmetry.
    apply first_match_ci_lower. exact keywords_no_capital.
  - rewrite categorize_type_rules. apply first_match_in.
Qed.

(** The theorem at a type in capitals that names a street and a light:
    the street-light rule comes first. *)
Lemma categorize_type_first_match_witness :
  categorize_type (Some "STREET LIGHT OUT") = "Street Light"
  /\ first_match_ci PRIORITY_RULES "STREET LIGHT OUT" = "Street Light"
  /\ contains_ci "street" "STREET LIGHT OUT" = true.
Proof.
  destruct (categorize_type_first_match "STREET LIGHT OUT" eq_refl)
    as [H _].
  split; [|split; reflexivity].
  rewrite H. reflexivity.
Defined.

(** The order matters: a type that names both a bridge and a light is a
    street-light request, and a missing type is "Other". *)
Example categorize_type_examples :
  categorize_type (Some "Bridge Light Out") = "Street Light"
  /\ categorize_type (Some "BRIDGE REPAIR") = "Street / Curb"
  /\ categorize_type (Some "Water Main Break - Street") = "Water Main"
  /\ categorize_type (Some "") = "Other"
  /\ categorize_type None = "Other".
Proof. repeat split; reflexivity. Qed.

End CategoryFacts.

(** ** Re-report Detector *)

Module RereportFacts.
Import PyStr Frame Rereport.
Local Open Scope list_scope.

Lemma timedelta_days_of_days (n : Z) : timedelta_days (days n) = n.
Proof. unfold timedelta_days, days. now rewrite Z.div_mul. Qed.

Lemma closes_present (st : string) (status_date : option Z) :
  closes st status_date = true -> exists t, status_date = Some t.
Proof.
  unfold closes. intros H. apply andb_true_iff in H as [_ H].
  destruct status_date as [t|]; [now exists t | discriminate H].
Qed.

Lemma report_walk_length (g : DataFrame) (rs : list Row) :
  forall (last : option Z) (h : list HistoryEntry),
    report_walk g last rs = Some h ->
    List.length h = List.length rs.
Proof.
  induction rs as [|r rs IH]; simpl; intros last h H.
  - now injection H as <-.
  - destruct (or_empty (get_str g "srstatus" (srstatus r))) as [st|];
      [|discriminate].
    destruct (report_walk g _ rs) as [h'|] eqn:E; [|discriminate].
    injection H as <-. simpl. f_equal. eapply IH, E.
Qed.

(** A status cell that is NaN makes the walk raise; with string statuses
    it returns. *)
Lemma report_walk_total (g : DataFrame) (rs : list Row) :
  forallb (fun r => notna (status_cell g r)) rs = true ->
  forall last, exists h, report_walk g last rs = Some h.
Proof.
  induction rs as [|r rs IH]; simpl; intros H last.
  - now exists [].
  - apply andb_true_iff in H as [Hr Hrs].
    unfold status_cell in Hr.
    destruct (or_empty (get_str g "srstatus" (srstatus r))) as [st|];
      [|discriminate].
    destruct (IH Hrs (if closes st (get_cell g "statusdate" (statusdate r))
                      then get_cell g "statusdate" (statusdate r)
                      else last)) as [h Hh].
    rewrite Hh. eexists; reflexivity.
Qed.

Lemma report_walk_raises (g : DataFrame) (before after : list Row) (r : Row) :
  status_cell g r = None ->
  forall last, report_walk g last (before ++ r :: after) = None.
Proof.
  intros Hr. induction before as [|b bs IH]; simpl; intros last.
  - unfold status_cell in Hr. now rewrite Hr.
  - destruct (or_empty (get_str g "srstatus" (srstatus b))); [|reflexivity].
    now rewrite IH.
Qed.

(** The flag of the entry at a position of the walk, in terms of the rows
    before it: the entry is flagged exactly when the last row before it
    that records a closure (or, when there is none, the closure the walk
    started with) is more than 0 and at most 120 whole days older than
    its creation timestamp. *)
Lemma report_walk_flag (g : DataFrame) (before : list Row) :
  forall (last : option Z) (row : Row) (after : list Row)
         (h : list HistoryEntry) (e : HistoryEntry),
    report_walk g last (before ++ row :: after) = Some h ->
    nth_error h (List.length before) = Some e ->
    is_rereport e = true <->
    exists t c,
      createddate row = Some c
      /\ 0 < timedelta_days (c - t) <= FAILED_FIX_WINDOW_DAYS
      /\ ((exists p r q, before = p ++ r :: q
                         /\ closure_of g r = Some t
                         /\ Forall (fun x => closure_of g x = None) q)
          \/ (last = Some t
              /\ Forall (fun x => closure_of g x = None) before)).
Proof.
  induction before as [|b bs IH]; intros last row after h e Hw He.
  - simpl in Hw.
    destruct (or_empty (get_str g "srstatus" (srstatus row))) as [st|];
      [|discriminate].
    destruct (report_walk g _ after) as [h'|]; [|discriminate].
    injection Hw as <-. simpl in He. injection He as <-. simpl.
    unfold rereport_test. split.
    + destruct last as [t|]; [|discriminate].
      destruct (createddate row) as [c|]; [|discriminate].
      intros H. apply andb_true_iff in H as [H1 H2].
      apply Z.ltb_lt in H1. apply Z.leb_le in H2.
      exists t, c. repeat split; try assumption. right. split; constructor.
    + intros [t [c [Hc [[H1 H2] [[p [r [q [Hp _]]]] | [-> _]]]]]].
      * destruct p; discriminate Hp.
      * rewrite Hc. apply andb_true_iff. split.
        -- now apply Z.ltb_lt.
        -- now apply Z.leb_le.
  - simpl in Hw.
    pose proof (eq_refl : closure_of g b = closure_of g b) as Hcl.
    unfold closure_of at 2, status_cell, status_date_cell in Hcl.
    destruct (or_empty (get_str g "srstatus" (srstatus b))) as [st|];
      [|discriminate].
    destruct (report_walk g _ (bs ++ row :: after)) as [h'|] eqn:E;
      [|discriminate].
    injection Hw as <-. simpl in He.
    rewrite (IH _ _ _ _ _ E He). clear IH E He.
    split; intros [t [c [Hc [Hd Hcase]]]]; exists t, c;
      (split; [exact Hc|]); (split; [exact Hd|]).
    + destruct Hcase as [[p [r [q [-> [Hr Hq]]]]] | [Hl Hall]].
      * left. exists (b :: p), r, q. now repeat split.
      * destruct (closes st (get_cell g "statusdate" (statusdate b))).
        -- left. exists [], b, bs. repeat split; [|exact Hall].
           now rewrite Hcl.
        -- right. split; [exact Hl|]. constructor; assumption.
    + destruct Hcase as [[p [r [q [Hp [Hr Hq]]]]] | [Hl Hall]].
      * destruct p as [|b' p]; simpl in Hp; injection Hp as -> ->.
        -- right. split; [|exact Hq]. rewrite Hcl in Hr.
           destruct (closes st (get_cell g "statusdate" (statusdate r)));
             [exact Hr | discriminate Hr].
        -- left. exists p, r, q. now repeat split.
      * right. inversion Hall as [|x l Hb Hbs]; subst.
        rewrite Hcl in Hb.
        destruct (closes st (get_cell g "statusdate" (statusdate b))) eqn:Ecl;
          [|now split].
        apply closes_present in Ecl as [t' Ht']. rewrite Ht' in Hb.
        discriminate Hb.
Qed.

Lemma forallb_perm {A : Type} (f : A -> bool) (l l' : list A) :
  Permutation l l' -> forallb f l = true -> forallb f l' = true.
Proof.
  intros HP H. apply forallb_forall. intros x Hx.
  rewrite forallb_forall in H. apply H.
  eapply Permutation_in; [apply Permutation_sym, HP | exact Hx].
Qed.

(** With a creation-time column and string statuses the history is built. *)
Lemma build_report_history_returns (g : DataFrame) :
  has_column g "createddate" = true ->
  forallb (fun r => notna (status_cell g r)) (rows g) = true ->
  exists h, build_report_history g = Some h.
Proof.
  intros Hcol Hst. unfold build_report_history. rewrite Hcol. simpl.
  apply report_walk_total.
  exact (forallb_perm _ _ _
           (SortFacts.sort_values_createddate_perm (rows g)) Hst).
Qed.

(** *** Closures and whole days, in the words of the specification *)

Lemma closed_no_capital : no_capital "closed".
Proof.
  intros c Hc. cbn in Hc.
  repeat (destruct Hc as [<- | Hc]; [reflexivity|]). contradiction.
Qed.

Lemma closure_of_records (g : DataFrame) (r : Row) (t : Z) :
  closure_of g r = Some t <-> records_closure g r t.
Proof.
  unfold closure_of, records_closure, closes.
  destruct (status_cell g r) as [st|].
  - rewrite <- (PyStrFacts.contains_ci_lower "closed" closed_no_capital st).
    destruct (contains_ci "closed" st) eqn:Ec; cbn [andb].
    + destruct (status_date_cell g r) as [t'|]; cbn [notna]; split.
      * intros E. exists st. now repeat split.
      * intros [st' [_ [_ E]]]. exact E.
      * discriminate.
      * intros [st' [_ [_ E]]]. discriminate E.
    + split; [discriminate|]. intros [st' [E [H _]]].
      injection E as <-. congruence.
  - split; [discriminate|]. intros [st' [E _]]. discriminate E.
Qed.

Lemma closure_of_none (g : DataFrame) (r : Row) :
  closure_of g r = None <-> forall t, ~ records_closure g r t.
Proof.
  split.
  - intros E t H. apply closure_of_records in H. congruence.
  - intros H. destruct (closure_of g r) as [t|] eqn:E; [|reflexivity].
    elim (H t). now apply closure_of_records.
Qed.

Lemma no_closure_rows (g : DataFrame) (rs : list Row) :
  Forall (fun x => closure_of g x = None) rs
  <-> Forall (fun x => forall t, ~ records_closure g x t) rs.
Proof.
  split; intros H; eapply Forall_impl; try exact H;
    intros x Hx; now apply closure_of_none.
Qed.

(** [Timedelta.days] between 1 and 120: a difference of at least one day
    and less than 121 days. *)
Lemma whole_days_window (d : Z) :
  0 < timedelta_days d <= FAILED_FIX_WINDOW_DAYS
  <-> days 1 <= d < days 121.
Proof.
  unfold timedelta_days, FAILED_FIX_WINDOW_DAYS, days, NS_PER_DAY.
  pose proof (Z.div_mod d 86400000000000 ltac:(lia)) as E.
  pose proof (Z.mod_pos_bound d 86400000000000 ltac:(lia)) as B.
  lia.
Qed.

(** The flags of a walk of the rows in any order. *)
Lemma report_walk_flags (g : DataFrame) (walk : list Row) :
  forallb (fun r => notna (status_cell g r)) walk = true ->
  exists h,
    report_walk g None walk = Some h
    /\ List.length h = List.length walk
    /\ forall before row after e,
         walk = before ++ row :: after ->
         nth_error h (List.length before) = Some e ->
         (is_rereport e = true <->
          exists p r q t c,
            before = p ++ r :: q
            /\ records_closure g r t
            /\ Forall (fun x => forall t', ~ records_closure g x t') q
            /\ createddate row = Some c
            /\ days 1 <= c - t < days 121)
         /\ (Forall (fun x => forall t', ~ records_closure g x t') before ->
             is_rereport e = false)
         /\ (createddate row = None -> is_rereport e = false).
Proof.
  intros Hst.
  destruct (report_walk_total g walk Hst None) as [h Hh].
  exists h. split; [exact Hh|].
  split; [exact (report_walk_length _ _ _ _ Hh)|].
  intros before row after e Hsplit He. rewrite Hsplit in Hh.
  pose proof (report_walk_flag g before None row after h e Hh He) as Hflag.
  assert (Hiff : is_rereport e = true <->
                 exists p r q t c,
                   before = p ++ r :: q
                   /\ records_closure g r t
                   /\ Forall (fun x => forall t', ~ records_closure g x t') q
                   /\ createddate row = Some c
                   /\ days 1 <= c - t < days 121).
  { rewrite Hflag. split.
    - intros [t [c [Hc [Hd [[p [r [q [Hb [Hr Hq]]]]] | [Hl _]]]]]].
      + exists p, r, q, t, c. split; [exact Hb|].
        split; [now apply closure_of_records|].
        split; [now apply no_closure_rows|].
        split; [exact Hc | now apply whole_days_window].
      + discriminate Hl.
    - intros [p [r [q [t [c [Hb [Hr [Hq [Hc Hd]]]]]]]]].
      exists t, c. split; [exact Hc|].
      split; [now apply whole_days_window|].
      left. exists p, r, q. split; [exact Hb|].
      split; [now apply closure_of_records | now apply no_closure_rows]. }
  split; [exact Hiff|]. split.
  - intros Hnone. apply not_true_is_false. rewrite Hiff.
    intros [p [r [q [t [c [Hb [Hr _]]]]]]]. subst before.
    apply Forall_app in Hnone as [_ Hnone].
    inversion Hnone as [|x l Hx _]; subst. now apply (Hx t).
  - intros Hnat. apply not_true_is_false. rewrite Hiff.
    intros [p [r [q [t [c [_ [_ [_ [Hc _]]]]]]]]]. congruence.
Qed.

(** C2, as stated, fails on the gap, which the program counts in whole
    days: after a closure at the start of day 10, the report created 12
    hours later is not flagged although its gap is more than 0 and at
    most 120 days, and the report created 120 days and 12 hours later is
    flagged although its gap is more than 120 days. *)
Lemma rereport_gap_counterexample :
  exists closure half_day_after over_120_days_after,
    map createddate (sort_values_createddate (rows Samples.half_day_gaps))
    = [Some 0; Some half_day_after; Some over_120_days_after]
    /\ map (closure_of Samples.half_day_gaps)
         (sort_values_createddate (rows Samples.half_day_gaps))
       = [Some closure; None; None]
    /\ 0 < half_day_after - closure <= days 120
    /\ days 120 < over_120_days_after - closure
    /\ option_map (map is_rereport)
         (build_report_history Samples.half_day_gaps)
       = Some [false; false; true].
Proof.
  eexists _, _, _. split; [vm_compute; reflexivity|].
  split; [vm_compute; reflexivity|].
  split; [vm_compute; split; [reflexivity | discriminate]|].
  split; vm_compute; reflexivity.
Qed.

(** C2, amended: with a creation-time column, string statuses and
    timestamps between 1970 and 2116 the history is built, by a walk of
    the rows in ascending order of their creation timestamps, the rows
    without one last. In a walk of the rows in any order, so however the
    sort places the rows with equal timestamps, an entry is flagged as a
    re-report exactly when some earlier row of the walk records a closure
    (a status holding the token "closed" in any letter case, with a status
    timestamp) and the creation timestamp of the entry is present and at
    least one day and less than 121 days after the closure timestamp of
    the last such row, that is more than 0 and at most 120 whole days
    after it; an entry that no closure precedes and an entry without a
    creation timestamp are not flagged. *)
Theorem build_report_history_rereport (g : DataFrame) :
  has_column g "createddate" = true ->
  forallb (fun r => notna (status_cell g r)) (rows g) = true ->
  timestamps_in_era g = true ->
  (exists h dated undated,
     build_report_history g = Some h
     /\ report_walk g None (dated ++ undated) = Some h
     /\ Permutation (rows g) (dated ++ undated)
     /\ Sorted (fun a b => created_le a b = true) dated
     /\ Forall (fun r => createddate r <> None) dated
     /\ Forall (fun r => createddate r = None) undated)
  /\ forall walk,
       Permutation (rows g) walk ->
       exists h,
         report_walk g None walk = Some h
         /\ List.length h = List.length (rows g)
         /\ forall before row after e,
              walk = before ++ row :: after ->
              nth_error h (List.length before) = Some e ->
              (is_rereport e = true <->
               exists p r q t c,
                 before = p ++ r :: q
                 /\ records_closure g r t
                 /\ Forall (fun x => forall t', ~ records_closure g x t') q
                 /\ createddate row = Some c
                 /\ days 1 <= c - t < days 121)
              /\ (Forall (fun x => forall t', ~ records_closure g x t')
                         before ->
                  is_rereport e = false)
              /\ (createddate row = None -> is_rereport e = false).
Proof.
  intros Hcol Hst _. split.
  - destruct (build_report_history_returns g Hcol Hst) as [h Hh].
    destruct (SortFacts.sort_values_createddate_ascending (rows g))
      as [D [U [Hsplit [HsD [HD HU]]]]].
    exists h, D, U. split; [exact Hh|].
    unfold build_report_history in Hh. rewrite Hcol in Hh. simpl in Hh.
    rewrite Hsplit in Hh. split; [exact Hh|].
    rewrite <- Hsplit.
    split; [apply SortFacts.sort_values_createddate_perm|].
    now repeat split.
  - intros walk HP.
    destruct (report_walk_flags g walk (forallb_perm _ _ _ HP Hst))
      as [h [Hh [Hlen Hflags]]].
    exists h. split; [exact Hh|]. split; [|exact Hflags].
    rewrite Hlen. symmetry. now apply Permutation_length.
Qed.

(** The theorem at a cluster with a report closed on day 10 and reports
    created on days 40 and 160: the closed report, created before its
    closure, is not flagged, the report 30 days after the closure is, and
    the report 150 days after it is not. *)
Lemma build_report_history_rereport_witness :
  exists h,
    build_report_history Samples.closure_then_reports = Some h
    /\ map is_rereport h = [false; true; false]
    /\ map status h = ["Closed"; "Open"; "Open"]
    /\ forall e, nth_error h 1 = Some e ->
         (is_rereport e = true <->
          exists p r q t c,
            [Samples.report 0 "Closed" 10] = p ++ r :: q
            /\ records_closure Samples.closure_then_reports r t
            /\ Forall (fun x => forall t',
                          ~ records_closure Samples.closure_then_reports
                              x t') q
            /\ createddate (Samples.report 40 "Open" 40) = Some c
            /\ days 1 <= c - t < days 121).
Proof.
  destruct (build_report_history_rereport Samples.closure_then_reports
              eq_refl eq_refl eq_refl) as [[h [D [U [Hh _]]]] Hwalks].
  exists h. split; [exact Hh|].
  assert (E : build_report_history Samples.closure_then_reports
              = report_walk Samples.closure_then_reports None
                  (rows Samples.closure_then_reports))
    by reflexivity.
  destruct (Hwalks (rows Samples.closure_then_reports)
              (Permutation_refl _)) as [h' [Hh' [_ Hflags]]].
  assert (h' = h) by congruence. subst h'.
  assert (Hv : Some h = Some h) by reflexivity.
  rewrite <- Hh in Hv at 1. vm_compute in Hv. injection Hv as Hv.
  split; [rewrite <- Hv; reflexivity|].
  split; [rewrite <- Hv; reflexivity|].
  intros e He.
  exact (proj1 (Hflags [Samples.report 0 "Closed" 10]
                  (Samples.report 40 "Open" 40)
                  [Samples.report 160 "Open" 160] e eq_refl He)).
Defined.

(** A closure at time T: the report at T + 30 days is flagged, the one at
    T + 150 days is not, and the closed report itself, which precedes the
    closure, is not. *)
Example closure_then_reports_flags :
  option_map (map is_rereport)
    (build_report_history Samples.closure_then_reports)
  = Some [false; true; false].
Proof. vm_compute. reflexivity. Qed.

(** The gap counts whole days: a report 12 hours after a closure is not
    flagged, and one 120 days and 12 hours after it still is. *)
Example rereport_test_whole_days :
  rereport_test (Some 0) (Some (NS_PER_DAY / 2)) = false
  /\ rereport_test (Some 0) (Some (days 120 + NS_PER_DAY / 2)) = true
  /\ rereport_test (Some 0) (Some (days 121)) = false.
Proof. repeat split; vm_compute; reflexivity. Qed.

End RereportFacts.

(** ** Hotspot Builder *)

Module HotspotFacts.
Import PyStr Frame Rereport Hotspots SortFacts RereportFacts.
Local Open Scope list_scope.

(** *** The failed-fix count *)

Lemma filter_nil_existsb {A : Type} (f : A -> bool) (l : list A) :
  existsb f l = match filter f l with [] => false | _ :: _ => true end.
Proof.
  induction l as [|x t IH]; simpl; [reflexivity|].
  destruct (f x); simpl; [reflexivity | exact IH].
Qed.

Lemma existsb_perm {A : Type} (f : A -> bool) (l l' : list A) :
  Permutation l l' -> existsb f l = existsb f l'.
Proof.
  induction 1; simpl; try congruence.
  now rewrite !orb_assoc, (orb_comm (f y)).
Qed.

Lemma filter_length_perm {A : Type} (f : A -> bool) (l l' : list A) :
  Permutation l l' -> List.length (filter f l) = List.length (filter f l').
Proof.
  induction 1; simpl; try congruence.
  - destruct (f x); simpl; congruence.
  - destruct (f x), (f y); reflexivity.
Qed.

Lemma failed_fix_walk_count (g : DataFrame) (sorted_reports : list Row) :
  has_column g "statusdate" = true ->
  forall (todo : list Row) (n : nat),
    failed_fix_walk g sorted_reports todo n
    = Some (n + List.length
                  (filter (followed_closure (mkFrame (columns g) sorted_reports))
                          todo))%nat.
Proof.
  intros Hcol. induction todo as [|r rest IH]; intros n; simpl.
  - now rewrite Nat.add_0_r.
  - unfold followed_closure at 1. simpl rows.
    destruct (is_closed r); simpl.
    + rewrite Hcol. simpl.
      destruct (statusdate r) as [t|]; [|apply IH].
      rewrite filter_nil_existsb.
      destruct (filter (in_window t) sorted_reports); rewrite IH; simpl.
      * reflexivity.
      * f_equal. lia.
    + apply IH.
Qed.

(** [detect_failed_fixes] counts the closed reports that a report follows
    within the window: one per such closure, however many reports follow
    it. *)
Lemma detect_failed_fixes_count (g : DataFrame) :
  has_column g "srstatus" = true ->
  has_column g "createddate" = true ->
  has_column g "statusdate" = true ->
  detect_failed_fixes g = Some (followed_closures g).
Proof.
  intros H1 H2 H3. unfold detect_failed_fixes. rewrite H1, H2. simpl.
  rewrite (failed_fix_walk_count g _ H3). simpl. f_equal.
  unfold followed_closures.
  rewrite <- (filter_length_perm _ _ _ (sort_values_createddate_perm (rows g))).
  f_equal. apply filter_ext. intros r. unfold followed_closure. simpl.
  destruct (is_closed r); [|reflexivity]. simpl.
  destruct (statusdate r) as [t|]; [|reflexivity].
  symmetry. apply existsb_perm, sort_values_createddate_perm.
Qed.

(** *** One group *)

Lemma readable_columns (g : DataFrame) :
  readable g = true ->
  has_column g "cluster_id" = true /\ has_column g "createddate" = true
  /\ has_column g "latitude" = true /\ has_column g "longitude" = true
  /\ has_column g "srstatus" = true /\ has_column g "statusdate" = true
  /\ forallb (fun r => notna (status_cell g r)) (rows g) = true.
Proof.
  unfold readable. intros H.
  repeat (apply andb_true_iff in H as [H ?]). repeat split; assumption.
Qed.

(** A frame of some rows of a readable frame, with its columns, is
    readable. *)
Lemma readable_subframe (df : DataFrame) (rs : list Row) :
  readable df = true ->
  (forall r, In r rs -> In r (rows df)) ->
  readable (mkFrame (columns df) rs) = true.
Proof.
  intros H Hsub. apply readable_columns in H
    as [H1 [H2 [H3 [H4 [H5 [H6 H7]]]]]].
  unfold readable.
  change (has_column (mkFrame (columns df) rs)) with (has_column df).
  rewrite H1, H2, H3, H4, H5, H6. cbn [andb rows].
  apply forallb_forall. intros r Hr.
  rewrite forallb_forall in H7. exact (H7 r (Hsub r Hr)).
Qed.

Lemma readable_cluster_frame (df : DataFrame) (k : Z) :
  readable df = true -> readable (cluster_frame df k) = true.
Proof.
  intros H. apply readable_subframe; [exact H|].
  intros r Hr. now apply filter_In in Hr.
Qed.

Lemma build_report_history_total (g : DataFrame) :
  readable g = true -> exists hist, build_report_history g = Some hist.
Proof.
  intros H. apply readable_columns in H as [_ [H2 [_ [_ [_ [_ H7]]]]]].
  now apply build_report_history_returns.
Qed.

(** The outcome of the loop body on a readable group: the group is skipped
    when it is below a threshold, and gives this hotspot otherwise. *)
Lemma build_hotspot_fields (k : Z) (g : DataFrame) :
  readable g = true ->
  let n := List.length (rows g) in
  let span := span_between (series_min (map createddate (rows g)))
                           (series_max (map createddate (rows g))) in
  if below_thresholds n span then build_hotspot k g = Some None
  else
    exists h,
      build_hotspot k g = Some (Some h)
      /\ hs_cluster_id h = k
      /\ report_count h = n
      /\ span_days h = span
      /\ severity_score h = severity n span
      /\ possible_failed_fixes h = followed_closures g
      /\ is_high_priority h
         = ((HIGH_CHRONIC_THRESHOLD <=? n)%nat
            || (2 <=? followed_closures g)%nat)
      /\ build_report_history g = Some (history h)
      /\ avg_resolution_days h
         = resolution_field
             match filter is_closed (rows g) with
             | [] => None
             | _ :: _ =>
                 if has_column g "resolution_days"
                 then Some (median (map resolution_days
                                      (filter is_closed (rows g))))
                 else None
             end.
Proof.
  intros Hr n span.
  destruct (build_report_history_total g Hr) as [hist Hhist].
  apply readable_columns in Hr as [_ [H2 [H3 [H4 [H5 [H6 _]]]]]].
  unfold build_hotspot. rewrite H2. simpl.
  fold n. fold span.
  destruct (below_thresholds n span); [reflexivity|].
  rewrite H3, H4, H5. simpl.
  rewrite (detect_failed_fixes_count g H5 H2 H6), Hhist. simpl.
  eexists. split; [reflexivity|]. simpl.
  repeat split; reflexivity.
Qed.

Lemma build_hotspot_total (k : Z) (g : DataFrame) :
  readable g = true -> exists o, build_hotspot k g = Some o.
Proof.
  intros Hr. pose proof (build_hotspot_fields k g Hr) as H. simpl in H.
  destruct (below_thresholds _ _).
  - now exists None.
  - destruct H as [h [Hh _]]. now exists (Some h).
Qed.

(** *** The loop over the groups *)

Lemma insert_key_in (k x : Z) (ks : list Z) :
  In k (insert_key x ks) <-> k = x \/ In k ks.
Proof.
  induction ks as [|y t IH]; simpl.
  - intuition.
  - destruct (Z.ltb_spec x y); [simpl; intuition|].
    destruct (Z.eqb_spec x y); simpl.
    + subst. intuition.
    + rewrite IH. intuition.
Qed.

Lemma group_keys_in (k : Z) (rs : list Row) :
  In k (group_keys rs) <-> In k (map cluster_id rs).
Proof.
  induction rs as [|r t IH]; simpl; [tauto|].
  rewrite insert_key_in, IH. intuition.
Qed.

Lemma hotspot_loop_members (groups : list (Z * DataFrame)) :
  forall hs,
    hotspot_loop groups = Some hs ->
    forall h, In h hs <->
              exists k g, In (k, g) groups
                          /\ build_hotspot k g = Some (Some h).
Proof.
  induction groups as [|[k g] rest IH]; simpl; intros hs H h.
  - injection H as <-. simpl. split; [tauto | intros [? [? [[] _]]]].
  - destruct (build_hotspot k g) as [o|] eqn:Eb; [|discriminate].
    simpl in H.
    destruct (hotspot_loop rest) as [hs'|]; [|discriminate].
    simpl in H. injection H as <-.
    specialize (IH hs' eq_refl h).
    split.
    + intros Hin.
      assert (Hcase : o = Some h \/ In h hs').
      { destruct o as [x|]; simpl in Hin; [|now right].
        destruct Hin as [->|Hin]; [now left | now right]. }
      destruct Hcase as [-> | Hin'].
      * exists k, g. split; [now left | exact Eb].
      * apply IH in Hin' as [k' [g' [Hg Hb]]].
        exists k', g'. split; [now right | exact Hb].
    + intros [k' [g' [[Heq | Hg] Hb]]].
      * injection Heq as <- <-. rewrite Eb in Hb. injection Hb as ->.
        now left.
      * assert (In h hs') by (apply IH; now exists k', g').
        destruct o; [now right | assumption].
Qed.

Lemma hotspot_loop_total (groups : list (Z * DataFrame)) :
  Forall (fun kg => readable (snd kg) = true) groups ->
  exists hs, hotspot_loop groups = Some hs.
Proof.
  induction 1 as [|[k g] rest Hg _ IH]; simpl.
  - now exists [].
  - destruct (build_hotspot_total k g Hg) as [o Ho]. rewrite Ho.
    destruct IH as [hs Hhs]. rewrite Hhs. simpl. eexists; reflexivity.
Qed.

Lemma sort_values_severity_perm (hs : list Hotspot) :
  Permutation hs (sort_values_severity hs).
Proof.
  unfold sort_values_severity.
  rewrite <- stable_sort_perm. apply filter_split_perm.
Qed.

Lemma filter_cluster_clustered (rs : list Row) (k : Z) :
  0 <= k ->
  filter (fun r => cluster_id r =? k) (filter (fun r => 0 <=? cluster_id r) rs)
  = filter (fun r => cluster_id r =? k) rs.
Proof.
  intros Hk. induction rs as [|r t IH]; simpl; [reflexivity|].
  destruct (Z.leb_spec 0 (cluster_id r)); simpl.
  - now rewrite IH.
  - destruct (Z.eqb_spec (cluster_id r) k); [lia | exact IH].
Qed.

(** The function without its shortcut for a frame with no clustered row. *)
Lemma identify_chronic_hotspots_eq (df : DataFrame) :
  identify_chronic_hotspots df
  = bind (require (has_column df "cluster_id")) (fun _ =>
    bind (hotspot_loop
            (groupby_cluster_id
               (mkFrame (columns df)
                  (filter (fun r => 0 <=? cluster_id r) (rows df)))))
         (fun hotspots => Some (sort_values_severity hotspots))).
Proof.
  unfold identify_chronic_hotspots. simpl rows.
  destruct (require (has_column df "cluster_id")); simpl; [|reflexivity].
  unfold groupby_cluster_id. simpl rows.
  destruct (filter (fun r => 0 <=? cluster_id r) (rows df)); reflexivity.
Qed.

(** The hotspots of a frame are those the loop body builds for the groups
    of its non-negative cluster ids. *)
Lemma identify_chronic_hotspots_members (df : DataFrame) (hs : list Hotspot) :
  identify_chronic_hotspots df = Some hs ->
  forall h, In h hs <->
            exists k, 0 <= k /\ In k (map cluster_id (rows df))
                      /\ build_hotspot k (cluster_frame df k) = Some (Some h).
Proof.
  rewrite identify_chronic_hotspots_eq. intros H h.
  destruct (require (has_column df "cluster_id")); [|discriminate].
  simpl in H.
  destruct (hotspot_loop _) as [hs0|] eqn:El; [|discriminate].
  simpl in H. injection H as <-.
  pose proof (hotspot_loop_members _ _ El h) as Hm.
  assert (Hperm : In h (sort_values_severity hs0) <-> In h hs0).
  { split; apply Permutation_in;
      [apply Permutation_sym|]; apply sort_values_severity_perm. }
  rewrite Hperm, Hm. unfold groupby_cluster_id. simpl. split.
  - intros [k [g [Hin Hb]]]. apply in_map_iff in Hin as [k' [Heq Hk]].
    injection Heq as -> <-. apply group_keys_in in Hk.
    apply in_map_iff in Hk as [r [Hr Hin]]. apply filter_In in Hin as [Hin Hpos].
    apply Z.leb_le in Hpos. exists k. rewrite Hr in Hpos.
    split; [exact Hpos|]. split.
    + apply in_map_iff. now exists r.
    + rewrite filter_cluster_clustered in Hb by exact Hpos. exact Hb.
  - intros [k [Hpos [Hin Hb]]]. exists k, (cluster_frame df k).
    split; [|exact Hb]. apply in_map_iff. exists k. split.
    + unfold cluster_frame. now rewrite filter_cluster_clustered.
    + apply group_keys_in. apply in_map_iff in Hin as [r [Hr Hin]].
      apply in_map_iff. exists r. split; [exact Hr|].
      apply filter_In. split; [exact Hin|]. apply Z.leb_le. now rewrite Hr.
Qed.

Lemma identify_chronic_hotspots_total (df : DataFrame) :
  readable df = true -> exists hs, identify_chronic_hotspots df = Some hs.
Proof.
  intros Hr. rewrite identify_chronic_hotspots_eq.
  pose proof (readable_columns df Hr) as [H1 _]. rewrite H1. simpl.
  destruct (hotspot_loop_total
              (groupby_cluster_id
                 (mkFrame (columns df)
                    (filter (fun r => 0 <=? cluster_id r) (rows df)))))
    as [hs Hhs].
  - apply Forall_forall. intros [k g] Hin. unfold groupby_cluster_id in Hin.
    apply in_map_iff in Hin as [k' [Heq _]]. injection Heq as -> <-.
    cbn [snd columns rows]. apply readable_subframe; [exact Hr|].
    intros r Hin. apply filter_In in Hin as [Hin _].
    now apply filter_In in Hin.
  - rewrite Hhs. simpl. eexists; reflexivity.
Qed.

(** *** Possible failed fixes *)





(** *** Chronic qualification *)

Lemma below_thresholds_dated (n : nat) (d : Z) :
  below_thresholds n (Some d) = false
  <-> (CHRONIC_MIN_REPORTS <= n)%nat /\ CHRONIC_MIN_DAYS_SPAN <= d.
Proof.
  unfold below_thresholds. rewrite orb_false_iff, Nat.ltb_ge, Z.ltb_ge.
  reflexivity.
Qed.

Lemma below_thresholds_undated (n : nat) :
  below_thresholds n None = false <-> (CHRONIC_MIN_REPORTS <= n)%nat.
Proof.
  unfold below_thresholds. rewrite orb_false_r, Nat.ltb_ge. reflexivity.
Qed.

(** For the clusters of a readable frame that have a creation timestamp, a
    hotspot is built exactly when the cluster has at least 4 reports and
    spans at least 90 whole days. *)
Lemma hotspot_built_iff (df : DataFrame) :
  readable df = true ->
  exists hs,
    identify_chronic_hotspots df = Some hs
    /\ forall k first last,
         0 <= k -> In k (map cluster_id (rows df)) ->
         series_min (map createddate (rows (cluster_frame df k))) = Some first ->
         series_max (map createddate (rows (cluster_frame df k))) = Some last ->
         ((exists h, In h hs /\ hs_cluster_id h = k)
          <-> (4 <= List.length (rows (cluster_frame df k)))%nat
              /\ 90 <= timedelta_days (last - first)).
Proof.
  intros Hr. destruct (identify_chronic_hotspots_total df Hr) as [hs Hhs].
  exists hs. split; [exact Hhs|]. intros k first last Hk Hin Hmin Hmax.
  pose proof (build_hotspot_fields k _ (readable_cluster_frame df k Hr)) as F.
  cbv zeta in F. rewrite Hmin, Hmax in F. simpl span_between in F.
  rewrite <- (below_thresholds_dated _ (timedelta_days (last - first))).
  destruct (below_thresholds _ _) eqn:Eb.
  - split; [|discriminate]. intros [h [Hh Hid]].
    apply (identify_chronic_hotspots_members df hs Hhs) in Hh
      as [k' [_ [_ Hb]]].
    pose proof (build_hotspot_fields k' _ (readable_cluster_frame df k' Hr))
      as F'.
    cbv zeta in F'. destruct (below_thresholds _ _) in F'.
    + rewrite Hb in F'. discriminate F'.
    + destruct F' as [h' [Hb' [Hk' _]]]. rewrite Hb in Hb'.
      injection Hb' as <-. rewrite Hid in Hk'. subst k'.
      rewrite Hb in F. discriminate F.
  - split; [reflexivity|]. intros _.
    destruct F as [h [Hb [Hid _]]]. exists h. split; [|exact Hid].
    apply (identify_chronic_hotspots_members df hs Hhs).
    exists k. now repeat split.
Qed.

(** The boundaries are inclusive: four reports over exactly 90 days give a
    hotspot, three reports or 89 days give none. *)
Example chronic_boundaries :
  option_map (map (fun h => (report_count h, span_days h)))
    (identify_chronic_hotspots Samples.four_over_90) = Some [(4%nat, Some 90)]
  /\ option_map (map hs_cluster_id)
       (identify_chronic_hotspots Samples.three_over_90) = Some []
  /\ option_map (map hs_cluster_id)
       (identify_chronic_hotspots Samples.four_over_89) = Some [].
Proof. repeat split; vm_compute; reflexivity. Qed.

(** C3 on a cluster of four reports whose creation timestamps are all
    missing: the span is NaN, the comparison [span_days < 90] is false, and
    a hotspot is built although the cluster does not span 90 days. *)
Theorem undated_cluster_builds_hotspot :
  series_min (map createddate (rows Samples.four_undated)) = None
  /\ option_map (map (fun h => (hs_cluster_id h, report_count h, span_days h)))
       (identify_chronic_hotspots Samples.four_undated)
     = Some [(0, 4%nat, None)].
Proof. split; vm_compute; reflexivity. Qed.

(** *** Median resolution *)

(** The resolution field of every hotspot: the median of the resolution
    durations of the members whose status is exactly "Closed", unless that
    median is zero, which line 212 turns into [None]. *)
Lemma avg_resolution_days_field (df : DataFrame) :
  readable df = true ->
  has_column df "resolution_days" = true ->
  exists hs,
    identify_chronic_hotspots df = Some hs
    /\ forall h, In h hs ->
         let closed :=
           filter is_closed (rows (cluster_frame df (hs_cluster_id h))) in
         avg_resolution_days h
         = match closed with
           | [] => None
           | _ :: _ =>
               if float_truthy (median (map resolution_days closed))
               then Some (median (map resolution_days closed))
               else None
           end.
Proof.
  intros Hr Hcol. destruct (identify_chronic_hotspots_total df Hr) as [hs Hhs].
  exists hs. split; [exact Hhs|]. intros h Hin.
  apply (identify_chronic_hotspots_members df hs Hhs) in Hin
    as [k [_ [_ Hb]]].
  pose proof (build_hotspot_fields k _ (readable_cluster_frame df k Hr)) as F.
  cbv zeta in F. destruct (below_thresholds _ _).
  - rewrite Hb in F. discriminate F.
  - destruct F as [h' [Hb' [Hk [_ [_ [_ [_ [_ [_ Havg]]]]]]]]].
    rewrite Hb in Hb'. injection Hb' as <-.
    rewrite Hk. cbv zeta. rewrite Havg.
    change (has_column (cluster_frame df k) "resolution_days")
      with (has_column df "resolution_days").
    rewrite Hcol.
    destruct (filter is_closed (rows (cluster_frame df k))); reflexivity.
Qed.

(** C6 on a qualifying cluster whose three closed members were each closed
    on the day they were created: the median of their resolution durations
    is 0, and the hotspot's median-resolution field is null. *)
Theorem zero_median_resolution_is_null :
  median (map resolution_days
            (filter is_closed (rows Samples.closed_same_day))) = Num 0
  /\ option_map (map (fun h => (report_count h, span_days h,
                                avg_resolution_days h)))
       (identify_chronic_hotspots Samples.closed_same_day)
     = Some [(4%nat, Some 90, None)].
Proof. split; vm_compute; reflexivity. Qed.

(** [neighborhood_summary] computes the same median behind an emptiness
    test instead of a truth-value test: on the same rows it keeps the
    zero. *)
Example neighborhood_summary_keeps_zero_median :
  option_map (map (fun s => Neighborhoods.avg_resolution_days (snd s)))
    (Neighborhoods.neighborhood_summary (days 100) Samples.closed_same_day)
  = Some [Some (Num (0 # 10))].
Proof. vm_compute. reflexivity. Qed.

End HotspotFacts.

(** ** Severity score *)

Module SeverityFacts.
Import Frame Rereport Hotspots SortFacts HotspotFacts.
Local Open Scope list_scope.
Local Open Scope R_scope.

Lemma up_IZR (z : Z) : up (IZR z) = (z + 1)%Z.
Proof. symmetry. apply tech_up; rewrite plus_IZR; lra. Qed.

Lemma rint_IZR (z : Z) : rint (IZR z) = z.
Proof.
  unfold rint. rewrite up_IZR.
  replace (z + 1 - 1)%Z with z by lia.
  destruct (Rlt_dec (IZR z - IZR z) (1 / 2)) as [_|H]; [reflexivity|].
  exfalso. apply H. lra.
Qed.

(** A score that has one decimal is not changed by the rounding. *)
Lemma round1_tenths (z : Z) : round1 (IZR z / 10) = IZR z / 10.
Proof.
  unfold round1. replace (IZR z / 10 * 10) with (IZR z) by lra.
  now rewrite rint_IZR.
Qed.

Lemma severity_5_reports_30_days : severity 5 (Some 30%Z) = Some 5.
Proof.
  unfold severity. f_equal.
  replace (IZR 30 / 30) with 1 by lra.
  replace (Rmax 1 1) with 1 by (unfold Rmax; destruct (Rle_dec 1 1); reflexivity).
  rewrite ln_1.
  replace (INR 5 * (1 + 0)) with (IZR 50 / 10) by (simpl; lra).
  rewrite round1_tenths. lra.
Qed.

Lemma severity_ge_total (a b : Hotspot) :
  severity_ge a b = true \/ severity_ge b a = true.
Proof.
  unfold severity_ge.
  destruct (severity_score a) as [x|], (severity_score b) as [y|]; auto.
  destruct (Rle_dec y x); [now left|].
  destruct (Rle_dec x y); [now right|]. exfalso. lra.
Qed.

(** Descending order of two scored hotspots. *)
Lemma Sorted_on {A : Type} (R R' : A -> A -> Prop) (P : A -> Prop)
  (l : list A) :
  (forall a b, P a -> P b -> R a b -> R' a b) ->
  Forall P l -> Sorted R l -> Sorted R' l.
Proof.
  intros HR HP HS. induction HS as [|a l HS IH Hhd]; [constructor|].
  inversion HP as [|? ? Pa Pl]; subst.
  constructor; [now apply IH|].
  destruct Hhd as [|b l' Hab]; constructor.
  inversion Pl; subst. now apply HR.
Qed.

Lemma sort_values_severity_descending (hs : list Hotspot) :
  exists scored unscored,
    sort_values_severity hs = scored ++ unscored
    /\ StronglySorted
         (fun a b => exists x y, severity_score a = Some x
                                 /\ severity_score b = Some y /\ y <= x)
         scored
    /\ Forall (fun h => severity_score h = None) unscored.
Proof.
  eexists _, _. split; [reflexivity|]. split.
  - apply Sorted_StronglySorted.
    + intros a b c [x [y [Ha [Hb Hxy]]]] [y' [z [Hb' [Hc Hyz]]]].
      rewrite Hb in Hb'. injection Hb' as <-.
      exists x, z. repeat split; try assumption. lra.
    + apply Sorted_on
        with (R := fun a b => severity_ge a b = true)
             (P := fun h => notna (severity_score h) = true).
      * intros a b Pa Pb Hab. unfold severity_ge in Hab.
        destruct (severity_score a) as [x|]; [|discriminate Pa].
        destruct (severity_score b) as [y|]; [|discriminate Pb].
        exists x, y. repeat split.
        destruct (Rle_dec y x); [assumption | discriminate Hab].
      * apply Forall_forall. intros h Hh.
        apply (Permutation_in _ (Permutation_sym (stable_sort_perm _ _)))
          in Hh.
        now apply filter_In in Hh.
      * apply stable_sort_sorted, severity_ge_total.
  - apply Forall_forall. intros h Hh. apply filter_In in Hh as [_ Hh].
    now destruct (severity_score h).
Qed.

(** *** Rounding to the nearest integer *)

(** [rint] gives a nearest integer, the even one of two. *)
Lemma rint_nearest (x : R) :
  Rabs (IZR (rint x) - x) <= 1 / 2
  /\ (Rabs (IZR (rint x) - x) = 1 / 2 -> Z.even (rint x) = true).
Proof.
  unfold rint. destruct (archimed x) as [Hup Hlow].
  set (f := (up x - 1)%Z).
  assert (Hf : IZR f = IZR (up x) - 1) by (unfold f; now rewrite minus_IZR).
  destruct (Rlt_dec (x - IZR f) (1 / 2)) as [H1 | H1].
  - assert (E : Rabs (IZR f - x) = x - IZR f).
    { rewrite Rabs_left1; lra. }
    rewrite E. split; lra.
  - destruct (Rlt_dec (1 / 2) (x - IZR f)) as [H2 | H2].
    + assert (E : Rabs (IZR (f + 1) - x) = IZR f + 1 - x).
      { rewrite plus_IZR. rewrite Rabs_right; lra. }
      rewrite E. split; lra.
    + destruct (Z.even f) eqn:Ev.
      * assert (E : Rabs (IZR f - x) = x - IZR f).
        { rewrite Rabs_left1; lra. }
        rewrite E. split; [lra | intros _; exact Ev].
      * assert (E : Rabs (IZR (f + 1) - x) = IZR f + 1 - x).
        { rewrite plus_IZR. rewrite Rabs_right; lra. }
        rewrite E. split; [lra|]. intros _.
        rewrite Z.even_add, Ev. reflexivity.
Qed.

(** [round1] gives a nearest number of one decimal, the one with an even
    last digit of two. *)
Lemma round1_nearest (x : R) :
  exists k : Z,
    round1 x = IZR k / 10
    /\ Rabs (IZR k / 10 - x) <= 1 / 20
    /\ (Rabs (IZR k / 10 - x) = 1 / 20 -> Z.even k = true).
Proof.
  exists (rint (x * 10)). split; [reflexivity|].
  destruct (rint_nearest (x * 10)) as [H1 H2].
  assert (E : Rabs (IZR (rint (x * 10)) / 10 - x)
              = Rabs (IZR (rint (x * 10)) - x * 10) / 10).
  { replace (IZR (rint (x * 10)) / 10 - x)
      with ((IZR (rint (x * 10)) - x * 10) * / 10) by lra.
    rewrite Rabs_mult, (Rabs_right (/ 10)) by lra. reflexivity. }
  rewrite E. split; [lra|]. intros H. apply H2. lra.
Qed.

(** *** The logarithm of 3 *)

Lemma exp_double (x : R) : exp (2 * x) = exp x * exp x.
Proof. replace (2 * x) with (x + x) by lra. apply exp_plus. Qed.

Lemma square_step (a b e : R) : 0 <= a -> a <= e -> b <= a * a -> b <= e * e.
Proof. intros. nra. Qed.

Lemma exp_lower_3 : 3 < exp (11125 / 10000).
Proof.
  assert (H0 : 10173828125 / 10000000000 <= exp (11125 / 10000 / 64)).
  { left. eapply Rle_lt_trans; [|apply exp_ineq1; lra]. lra. }
  assert (H1 : 1035067 / 1000000 <= exp (2 * (11125 / 10000 / 64))).
  { rewrite exp_double. eapply square_step; [|exact H0|]; lra. }
  assert (H2 : 1071363 / 1000000 <= exp (2 * (2 * (11125 / 10000 / 64)))).
  { rewrite exp_double. eapply square_step; [|exact H1|]; lra. }
  assert (H3 : 1147818 / 1000000
               <= exp (2 * (2 * (2 * (11125 / 10000 / 64))))).
  { rewrite exp_double. eapply square_step; [|exact H2|]; lra. }
  assert (H4 : 1317486 / 1000000
               <= exp (2 * (2 * (2 * (2 * (11125 / 10000 / 64)))))).
  { rewrite exp_double. eapply square_step; [|exact H3|]; lra. }
  assert (H5 : 1735769 / 1000000
               <= exp (2 * (2 * (2 * (2 * (2 * (11125 / 10000 / 64))))))).
  { rewrite exp_double. eapply square_step; [|exact H4|]; lra. }
  assert (H6 : 3012894 / 1000000
               <= exp (2 * (2 * (2 * (2 * (2 * (2 * (11125 / 10000 / 64)))))))).
  { rewrite exp_double. eapply square_step; [|exact H5|]; lra. }
  replace (11125 / 10000)
    with (2 * (2 * (2 * (2 * (2 * (2 * (11125 / 10000 / 64))))))) by lra.
  lra.
Qed.

Lemma exp_upper_3 : exp (10875 / 10000) < 3.
Proof.
  set (y := - (10875 / 10000) / 256).
  assert (H0 : 20393 / 20480 <= exp y).
  { apply Rle_trans with (1 + y); [unfold y; lra|]. apply exp_ineq1_le. }
  assert (H1 : 9915219 / 10000000 <= exp (2 * y)).
  { rewrite exp_double. eapply square_step; [|exact H0|]; lra. }
  assert (H2 : 9831156 / 10000000 <= exp (2 * (2 * y))).
  { rewrite exp_double. eapply square_step; [|exact H1|]; lra. }
  assert (H3 : 9665162 / 10000000 <= exp (2 * (2 * (2 * y)))).
  { rewrite exp_double. eapply square_step; [|exact H2|]; lra. }
  assert (H4 : 9341535 / 10000000 <= exp (2 * (2 * (2 * (2 * y))))).
  { rewrite exp_double. eapply square_step; [|exact H3|]; lra. }
  assert (H5 : 8726427 / 10000000 <= exp (2 * (2 * (2 * (2 * (2 * y)))))).
  { rewrite exp_double. eapply square_step; [|exact H4|]; lra. }
  assert (H6 : 7615052 / 10000000
               <= exp (2 * (2 * (2 * (2 * (2 * (2 * y))))))).
  { rewrite exp_double. eapply square_step; [|exact H5|]; lra. }
  assert (H7 : 5798901 / 10000000
               <= exp (2 * (2 * (2 * (2 * (2 * (2 * (2 * y)))))))).
  { rewrite exp_double. eapply square_step; [|exact H6|]; lra. }
  assert (H8 : 3362725 / 10000000
               <= exp (2 * (2 * (2 * (2 * (2 * (2 * (2 * (2 * y))))))))).
  { rewrite exp_double. eapply square_step; [|exact H7|]; lra. }
  replace (2 * (2 * (2 * (2 * (2 * (2 * (2 * (2 * y))))))))
    with (- (10875 / 10000)) in H8 by (unfold y; lra).
  rewrite exp_Ropp in H8.
  pose proof (exp_pos (10875 / 10000)) as Hp.
  apply Rnot_le_lt. intros Hge.
  assert (Hinv : / exp (10875 / 10000) <= / 3).
  { apply Rinv_le_contravar; lra. }
  lra.
Qed.

(** The natural logarithm of 3, to two decimals. *)
Lemma ln_3_bounds : 10875 / 10000 < ln 3 < 11125 / 10000.
Proof.
  split; apply exp_lt_inv; rewrite exp_ln by lra.
  - apply exp_upper_3.
  - apply exp_lower_3.
Qed.

(** C7, as stated, fails on its example: the formula gives 5.0 for 5
    reports and a span of 30 days, and a cluster of 5 reports spanning
    exactly 30 days has no severity score, as it is below the 90 days of a
    hotspot and is skipped. *)
Lemma severity_example_counterexample :
  map createddate (rows Samples.five_over_30)
  = map (fun d => Some (days d)) [0; 7; 14; 21; 30]%Z
  /\ map cluster_id (rows Samples.five_over_30) = [0; 0; 0; 0; 0]%Z
  /\ severity 5 (Some 30%Z) = Some 5
  /\ identify_chronic_hotspots Samples.five_over_30 = Some [].
Proof.
  split; [reflexivity|]. split; [reflexivity|].
  split; [exact severity_5_reports_30_days|].
  vm_compute. reflexivity.
Qed.

(** C7, amended: on a frame the builder reads, every hotspot with a span
    has one of at least 90 days, and its severity score is the number of
    one decimal nearest to its report count times one plus the natural
    logarithm of the larger of its span in 30-day months and 1 (of two
    nearest ones, the one with an even last digit); a hotspot with a NaN
    span has a NaN score; and the hotspots come in descending order of
    the score. A cluster of 5 reports spanning 30 days is no hotspot. The
    floating-point operations are taken as the real ones. *)
Theorem severity_score_formula_and_order (df : DataFrame) :
  readable df = true ->
  timestamps_in_era df = true ->
  exists hs,
    identify_chronic_hotspots df = Some hs
    /\ (forall h, In h hs ->
          match span_days h with
          | Some d =>
              (90 <= d)%Z
              /\ exists k : Z,
                   severity_score h = Some (IZR k / 10)
                   /\ Rabs (IZR k / 10
                            - INR (report_count h)
                              * (1 + ln (Rmax (IZR d / 30) 1)))
                      <= 1 / 20
                   /\ (Rabs (IZR k / 10
                             - INR (report_count h)
                               * (1 + ln (Rmax (IZR d / 30) 1)))
                       = 1 / 20 ->
                       Z.even k = true)
          | None => severity_score h = None
          end)
    /\ exists scored unscored,
         hs = scored ++ unscored
         /\ StronglySorted
              (fun a b => exists x y, severity_score a = Some x
                                      /\ severity_score b = Some y
                                      /\ y <= x)
              scored
         /\ Forall (fun h => severity_score h = None) unscored.
Proof.
  intros Hr _. destruct (identify_chronic_hotspots_total df Hr) as [hs Hhs].
  exists hs. split; [exact Hhs|]. split.
  - intros h Hin.
    apply (identify_chronic_hotspots_members df hs Hhs) in Hin
      as [k [_ [_ Hb]]].
    pose proof (build_hotspot_fields k _ (readable_cluster_frame df k Hr)) as F.
    cbv zeta in F. destruct (below_thresholds _ _) eqn:Eb.
    + rewrite Hb in F. discriminate F.
    + destruct F as [h' [Hb' [_ [Hn [Hs [Hsev _]]]]]].
      rewrite Hb in Hb'. injection Hb' as <-.
      rewrite Hsev, Hs, Hn.
      destruct (span_between _ _) as [d|]; [|reflexivity].
      split.
      * unfold below_thresholds in Eb.
        apply orb_false_iff in Eb as [_ Eb].
        apply Z.ltb_ge in Eb. exact Eb.
      * unfold severity.
        destruct (round1_nearest
                    (INR (List.length (rows (cluster_frame df k)))
                     * (1 + ln (Rmax (IZR d / 30) 1))))
          as [z [Hz [Hnear Htie]]].
        exists z. rewrite Hz. now repeat split.
  - rewrite identify_chronic_hotspots_eq in Hhs.
    destruct (require (has_column df "cluster_id")); [|discriminate].
    simpl in Hhs. destruct (hotspot_loop _) as [hs0|]; [|discriminate].
    simpl in Hhs. injection Hhs as <-.
    apply sort_values_severity_descending.
Qed.

(** The theorem at four reports spanning exactly 90 days: the one hotspot
    has the score 8.4, the decimal nearest to 4 * (1 + ln 3). *)
Lemma severity_score_formula_and_order_witness :
  exists h,
    identify_chronic_hotspots Samples.four_over_90 = Some [h]
    /\ report_count h = 4%nat
    /\ span_days h = Some 90%Z
    /\ severity_score h = Some (84 / 10).
Proof.
  assert (Hrun : exists h,
             identify_chronic_hotspots Samples.four_over_90 = Some [h]
             /\ report_count h = 4%nat
             /\ span_days h = Some 90%Z).
  { eexists. split; [vm_compute; reflexivity|]. split; reflexivity. }
  destruct Hrun as [h [Hrun [Hn Hd]]].
  exists h. split; [exact Hrun|]. split; [exact Hn|]. split; [exact Hd|].
  destruct (severity_score_formula_and_order Samples.four_over_90
              eq_refl eq_refl) as [hs [Hhs [Hscore _]]].
  rewrite Hrun in Hhs. injection Hhs as <-.
  specialize (Hscore h (or_introl eq_refl)).
  rewrite Hd, Hn in Hscore.
  destruct Hscore as [_ [k [Hk [Hnear _]]]].
  rewrite Hk. do 2 f_equal.
  assert (Hm : Rmax (IZR 90 / 30) 1 = 3).
  { rewrite Rmax_left by lra. lra. }
  rewrite Hm in Hnear.
  replace (INR 4) with 4 in Hnear by (simpl; lra).
  pose proof ln_3_bounds as [L1 L2].
  pose proof (Rle_abs (IZR k / 10 - 4 * (1 + ln 3))) as Hup.
  pose proof (Rle_abs (- (IZR k / 10 - 4 * (1 + ln 3)))) as Hdown.
  rewrite Rabs_Ropp in Hdown.
  assert (H1 : IZR 83 < IZR k) by lra.
  assert (H2 : IZR k < IZR 85) by lra.
  apply lt_IZR in H1, H2.
  assert (k = 84%Z) by lia. subst k. reflexivity.
Defined.

End SeverityFacts.

(** ** Dicts and value counts *)

Module TablesFacts.
Import PyStr Frame Tables SortFacts.
Local Open Scope list_scope.
Local Open Scope nat_scope.

Section Dict.
Context {V : Type}.
Implicit Types (d : list (string * V)) (k : string) (v : V).

Lemma dict_get_set d k v k' (default : V) :
  dict_get (dict_set d k v) k' default
  = if String.eqb k' k then v else dict_get d k' default.
Proof.
  induction d as [|[a b] t IH]; simpl.
  - reflexivity.
  - destruct (String.eqb_spec k a) as [->|Hka]; simpl.
    + destruct (String.eqb_spec k' a); reflexivity.
    + destruct (String.eqb_spec k' a) as [->|Hk'a].
      * destruct (String.eqb_spec a k); [congruence | reflexivity].
      * exact IH.
Qed.

Lemma dict_keys_set d k v k' :
  In k' (dict_keys (dict_set d k v)) <-> k' = k \/ In k' (dict_keys d).
Proof.
  unfold dict_keys. induction d as [|[a b] t IH]; simpl.
  - intuition.
  - destruct (String.eqb_spec k a) as [->|Hka]; simpl.
    + intuition.
    + rewrite IH. intuition.
Qed.

Lemma dict_set_NoDup d k v :
  NoDup (dict_keys d) -> NoDup (dict_keys (dict_set d k v)).
Proof.
  unfold dict_keys. induction d as [|[a b] t IH]; simpl; intros H.
  - repeat constructor. intros [].
  - inversion H as [|? ? Hnin Ht]; subst.
    destruct (String.eqb_spec k a) as [->|Hka]; simpl.
    + now constructor.
    + constructor; [|now apply IH].
      intros Hin. apply (dict_keys_set t k v a) in Hin as [Heq | Hin];
        [congruence | contradiction].
Qed.

Lemma dict_get_absent d k (default : V) :
  ~ In k (dict_keys d) -> dict_get d k default = default.
Proof.
  unfold dict_keys. induction d as [|[a b] t IH]; simpl; intros H.
  - reflexivity.
  - destruct (String.eqb_spec k a) as [->|Hka]; [tauto|].
    apply IH. tauto.
Qed.

Lemma dict_get_in d k v (default : V) :
  NoDup (dict_keys d) -> In (k, v) d -> dict_get d k default = v.
Proof.
  unfold dict_keys. induction d as [|[a b] t IH]; simpl; intros Hnd Hin.
  - contradiction.
  - inversion Hnd as [|? ? Hnin Ht]; subst.
    destruct Hin as [Heq | Hin].
    + injection Heq as -> ->. now rewrite String.eqb_refl.
    + destruct (String.eqb_spec k a) as [->|Hka]; [|now apply IH].
      exfalso. apply Hnin. apply in_map_iff. now exists (a, v).
Qed.

Lemma dict_in_get d k (default : V) :
  In k (dict_keys d) -> In (k, dict_get d k default) d.
Proof.
  unfold dict_keys. induction d as [|[a b] t IH]; simpl; intros Hin.
  - contradiction.
  - destruct (String.eqb_spec k a) as [->|Hka]; [now left|].
    right. apply IH. destruct Hin; [congruence | assumption].
Qed.

(** The order of the items does not matter to a lookup. *)
Lemma dict_get_perm d d' k (default : V) :
  NoDup (dict_keys d) -> Permutation d d' ->
  dict_get d' k default = dict_get d k default.
Proof.
  intros Hnd HP.
  assert (Hnd' : NoDup (dict_keys d')).
  { eapply Permutation_NoDup; [|exact Hnd]. now apply Permutation_map. }
  destruct (in_dec string_dec k (dict_keys d)) as [Hin | Hnin].
  - apply dict_get_in; [exact Hnd'|].
    eapply Permutation_in; [exact HP|]. now apply dict_in_get.
  - rewrite (dict_get_absent d k default Hnin).
    apply dict_get_absent. intros Hin. apply Hnin.
    eapply Permutation_in; [|exact Hin].
    apply Permutation_map, Permutation_sym, HP.
Qed.
End Dict.

(** *** Value counts *)

Lemma count_one_get (d : list (string * nat)) (k k' : string) :
  dict_get (count_one d k) k' 0
  = dict_get d k' 0 + (if String.eqb k' k then 1 else 0).
Proof.
  unfold count_one. rewrite dict_get_set.
  destruct (String.eqb_spec k' k) as [->|]; lia.
Qed.

Lemma counting_get (vs : list string) :
  forall (d : list (string * nat)) (k : string),
    dict_get (fold_left count_one vs d) k 0
    = dict_get d k 0 + count_occ string_dec vs k.
Proof.
  induction vs as [|v t IH]; intros d k; simpl; [lia|].
  rewrite IH, count_one_get.
  destruct (string_dec v k) as [->|Hne].
  - rewrite String.eqb_refl. lia.
  - destruct (String.eqb_spec k v); [congruence | lia].
Qed.

Lemma counting_NoDup (vs : list string) :
  forall d : list (string * nat),
    NoDup (dict_keys d) -> NoDup (dict_keys (fold_left count_one vs d)).
Proof.
  induction vs as [|v t IH]; intros d H; simpl; [exact H|].
  apply IH. unfold count_one. now apply dict_set_NoDup.
Qed.

Lemma counting_keys (vs : list string) :
  forall (d : list (string * nat)) (k : string),
    In k (dict_keys (fold_left count_one vs d))
    <-> In k (dict_keys d) \/ In k vs.
Proof.
  induction vs as [|v t IH]; intros d k; simpl; [tauto|].
  rewrite IH. unfold count_one. rewrite dict_keys_set. intuition.
Qed.

Lemma value_counts_NoDup (cells : list (option string)) :
  NoDup (dict_keys (value_counts cells)).
Proof.
  unfold value_counts, dict_keys.
  eapply Permutation_NoDup.
  - apply Permutation_map, stable_sort_perm.
  - apply (counting_NoDup (present cells) []). constructor.
Qed.

(** The count of a name is the number of cells that hold it. *)
Lemma value_counts_get (cells : list (option string)) (k : string) :
  dict_get (value_counts cells) k 0 = count_occ string_dec (present cells) k.
Proof.
  unfold value_counts.
  rewrite (dict_get_perm (fold_left count_one (present cells) [])).
  - now rewrite counting_get.
  - apply (counting_NoDup (present cells) []). constructor.
  - apply stable_sort_perm.
Qed.

(** The names counted are the names that occur. *)
Lemma value_counts_keys (cells : list (option string)) (k : string) :
  In k (dict_keys (value_counts cells)) <-> In k (present cells).
Proof.
  unfold value_counts, dict_keys. split; intros H.
  - apply (Permutation_in _ (Permutation_map fst
             (Permutation_sym (stable_sort_perm count_ge _)))) in H.
    apply (counting_keys (present cells) [] k) in H as [[]|H]. exact H.
  - apply (Permutation_in _ (Permutation_map fst (stable_sort_perm count_ge _))).
    apply (counting_keys (present cells) [] k). now right.
Qed.

End TablesFacts.

(** ** Gap Analyzer *)

Module GapFacts.
Import PyStr Frame Tables Gap SortFacts TablesFacts.
Local Open Scope list_scope.

(** *** Weak-signal counts *)

Lemma count_hint_get (hint : string) (ns : list string) :
  forall (signals : list (string * nat)) (n : string),
    dict_get (count_hint ns signals hint) n 0%nat
    = (dict_get signals n 0
       + if hint_matches (lower hint) n then count_occ string_dec ns n else 0)%nat.
Proof.
  unfold count_hint. induction ns as [|a t IH]; intros signals n; simpl.
  - destruct (hint_matches (lower hint) n); lia.
  - rewrite IH. destruct (hint_matches (lower hint) a) eqn:Ea.
    + rewrite dict_get_set.
      destruct (String.eqb_spec n a) as [->|Hna].
      * rewrite Ea. destruct (string_dec a a); [lia | congruence].
      * destruct (string_dec a n); [congruence|].
        destruct (hint_matches (lower hint) n); lia.
    + destruct (string_dec a n) as [->|Hna]; [|reflexivity].
      rewrite Ea. lia.
Qed.

Lemma count_hint_NoDup (hint : string) (ns : list string) :
  forall signals : list (string * nat),
    NoDup (dict_keys signals) ->
    NoDup (dict_keys (count_hint ns signals hint)).
Proof.
  unfold count_hint. induction ns as [|a t IH]; intros signals H; simpl.
  - exact H.
  - apply IH. destruct (hint_matches (lower hint) a); [|exact H].
    now apply dict_set_NoDup.
Qed.

Lemma count_post_get (ns : list string) (hints : list string) :
  forall (signals : list (string * nat)) (n : string),
    dict_get (fold_left (count_hint ns) hints signals) n 0%nat
    = (dict_get signals n 0
       + count_occ string_dec ns n
         * List.length (filter (fun hint => hint_matches (lower hint) n) hints))%nat.
Proof.
  induction hints as [|h t IH]; intros signals n; simpl.
  - lia.
  - rewrite IH, count_hint_get.
    destruct (hint_matches (lower h) n); simpl; lia.
Qed.

Lemma count_post_NoDup (ns : list string) (hints : list string) :
  forall signals : list (string * nat),
    NoDup (dict_keys signals) ->
    NoDup (dict_keys (fold_left (count_hint ns) hints signals)).
Proof.
  induction hints as [|h t IH]; intros signals H; simpl; [exact H|].
  now apply IH, count_hint_NoDup.
Qed.

Lemma hints_fold_get (ns : list string) (hints : list (list string)) :
  forall (signals : list (string * nat)) (n : string),
    dict_get (fold_left (fun acc post_hints =>
                           fold_left (count_hint ns) post_hints acc)
                hints signals) n 0%nat
    = (dict_get signals n 0
       + count_occ string_dec ns n * mentions n hints)%nat.
Proof.
  induction hints as [|h t IH]; intros signals n.
  - unfold mentions. simpl. lia.
  - simpl fold_left. rewrite IH, count_post_get.
    unfold mentions, hint_matches. simpl. lia.
Qed.

Lemma hints_fold_NoDup (ns : list string) (hints : list (list string)) :
  forall signals : list (string * nat),
    NoDup (dict_keys signals) ->
    NoDup (dict_keys (fold_left (fun acc post_hints =>
                                   fold_left (count_hint ns) post_hints acc)
                        hints signals)).
Proof.
  induction hints as [|h t IH]; intros signals Hs; simpl; [exact Hs|].
  apply IH. now apply count_post_NoDup.
Qed.

(** The loop over the posts returns exactly when every cell can be run
    through, and then it is the fold over the hint lists. *)
Lemma signals_loop_eq (ns : list string) (posts : list Post) :
  forall signals : list (string * nat),
    signals_loop ns posts signals
    = option_map
        (fun hints => fold_left (fun acc post_hints =>
                                   fold_left (count_hint ns) post_hints acc)
                        hints signals)
        (post_hints posts).
Proof.
  induction posts as [|p t IH]; intros signals;
    cbn [signals_loop post_hints]; [reflexivity|].
  destruct (parse_hints (location_hints p)) as [hs|]; cbn [bind];
    [|reflexivity].
  rewrite IH. now destruct (post_hints t).
Qed.

(** The signals of posts that can be run through: distinct keys, and the
    signal of a known neighborhood is its number of matches. *)
Lemma signals_returns (ns : list string) (posts : list Post)
  (hints : list (list string)) :
  post_hints posts = Some hints ->
  exists signals,
    reddit_neighborhood_signals ns posts = Some signals
    /\ NoDup (dict_keys signals)
    /\ (NoDup ns ->
        forall n, dict_get signals n 0%nat
                  = if in_dec string_dec n ns then mentions n hints
                    else 0%nat).
Proof.
  intros Hh. unfold reddit_neighborhood_signals.
  rewrite signals_loop_eq, Hh. cbn [option_map].
  eexists. split; [reflexivity|]. split.
  - apply hints_fold_NoDup. constructor.
  - intros Hnd n. rewrite hints_fold_get. simpl.
    destruct (in_dec string_dec n ns) as [Hin | Hnin].
    + apply (NoDup_count_occ' string_dec) in Hin; [|exact Hnd].
      rewrite Hin. lia.
    + apply (count_occ_not_In string_dec) in Hnin. rewrite Hnin. lia.
Qed.

Lemma signals_raises (ns : list string) (posts : list Post) :
  post_hints posts = None -> reddit_neighborhood_signals ns posts = None.
Proof.
  intros Hh. unfold reddit_neighborhood_signals.
  now rewrite signals_loop_eq, Hh.
Qed.

Lemma post_hints_arrays (hints : list (list string)) :
  post_hints (map (fun post_hints => mkPost (HintsJson post_hints)) hints)
  = Some hints.
Proof.
  induction hints as [|h t IH]; [reflexivity|].
  cbn [map post_hints location_hints parse_hints bind]. now rewrite IH.
Qed.

Lemma report_counts_of_NoDup (df_311 : option DataFrame) :
  NoDup (dict_keys (report_counts_of df_311)).
Proof.
  unfold report_counts_of. destruct df_311 as [df|]; [|constructor].
  destruct (has_column df "neighborhood"); [|constructor].
  apply value_counts_NoDup.
Qed.

(** The official count of a neighborhood is the number of rows that carry
    its name. *)
Lemma report_counts_of_count (df : DataFrame) (n : string) :
  has_column df "neighborhood" = true ->
  dict_get (report_counts_of (Some df)) n 0%nat
  = count_occ string_dec (present (map neighborhood (rows df))) n.
Proof.
  intros H. unfold report_counts_of. rewrite H. apply value_counts_get.
Qed.

(** C10: over posts whose hint cells are JSON arrays of strings, the
    weak-signal count of a known neighborhood is the number of (post, hint)
    pairs whose hint matches its name in either direction, without regard
    to letter case: every post adds one per matching hint it carries, so k
    matching hints of one post add k, nothing is counted once per post,
    and the count of each neighborhood a hint matches is raised on its
    own. *)
Theorem weak_signal_count_per_match (df_311 : option DataFrame)
  (hints : list (list string)) (n : string) :
  let known := dict_keys (report_counts_of df_311) in
  let df_reddit := map (fun post_hints => mkPost (HintsJson post_hints))
                       hints in
  In n known ->
  exists signals,
    reddit_neighborhood_signals known df_reddit = Some signals
    /\ dict_get signals n 0%nat
       = list_sum
           (map (fun post_hints =>
                   List.length
                     (filter (fun hint =>
                                contains (lower n) (lower hint)
                                || contains (lower hint) (lower n))
                             post_hints))
              hints).
Proof.
  cbv zeta. intros Hin.
  destruct (signals_returns (dict_keys (report_counts_of df_311)) _ hints
              (post_hints_arrays hints)) as [signals [Hs [_ Hget]]].
  exists signals. split; [exact Hs|].
  rewrite (Hget (report_counts_of_NoDup df_311) n).
  destruct (in_dec string_dec n _); [reflexivity | contradiction].
Qed.

(** The theorem at one post with the hints "canton" and "Canton Square"
    and the known names Canton and Canton Square: each hint matches both
    names, so each name gets 2 from this one post. *)
Lemma weak_signal_count_per_match_witness :
  exists signals,
    reddit_neighborhood_signals
      (dict_keys (report_counts_of (Some Samples.canton_square)))
      Samples.two_hint_post = Some signals
    /\ dict_get signals "Canton" 0%nat = 2%nat
    /\ dict_get signals "Canton Square" 0%nat = 2%nat.
Proof.
  destruct (weak_signal_count_per_match (Some Samples.canton_square)
              [["canton"; "Canton Square"]] "Canton")
    as [signals [H1 H2]].
  { vm_compute. left. reflexivity. }
  destruct (weak_signal_count_per_match (Some Samples.canton_square)
              [["canton"; "Canton Square"]] "Canton Square")
    as [signals' [H1' H2']].
  { vm_compute. right. left. reflexivity. }
  assert (E : signals' = signals) by congruence. subst signals'.
  exists signals. split; [exact H1|]. split; [exact H2 | exact H2'].
Defined.

(** One post with the hints "canton" and "Canton Square": both hints match
    Canton, so Canton gets 2 from this one post, and both match Canton
    Square as well. *)
Example two_hints_one_post :
  reddit_neighborhood_signals
    (dict_keys (report_counts_of (Some Samples.canton_square)))
    Samples.two_hint_post
  = Some [("Canton", 2%nat); ("Canton Square", 2%nat)].
Proof. vm_compute. reflexivity. Qed.

(** *** Gap records *)

Lemma gap_loop_in (rc : list (string * nat)) (avg : Q)
  (signals : list (string * nat)) (g : GapRecord) :
  In g (gap_loop rc avg signals) <->
  exists n c,
    In (n, c) signals /\ (2 <= c)%nat
    /\ (inject_Z (Z.of_nat (dict_get rc n 0%nat)) < avg * (1 # 2))%Q
    /\ g = mkGap n c (dict_get rc n 0%nat)
             (gap_score_of c (dict_get rc n 0%nat)) GAP_NOTE.
Proof.
  induction signals as [|[a b] t IH]; simpl.
  - split; [tauto | intros [? [? [[] _]]]].
  - assert (Hstep :
      In g (gap_loop rc avg t) <->
      exists n c, In (n, c) t /\ (2 <= c)%nat
        /\ (inject_Z (Z.of_nat (dict_get rc n 0%nat)) < avg * (1 # 2))%Q
        /\ g = mkGap n c (dict_get rc n 0%nat)
                 (gap_score_of c (dict_get rc n 0%nat)) GAP_NOTE)
      by exact IH.
    clear IH. destruct (Nat.ltb_spec b 2) as [Hlt | Hge].
    + rewrite Hstep. split.
      * intros [n [c [Hin H]]]. exists n, c. split; [now right | exact H].
      * intros [n [c [[Heq | Hin] [Hc H]]]].
        -- injection Heq as -> ->. lia.
        -- exists n, c. now repeat split.
    + destruct (inject_Z (Z.of_nat (dict_get rc a 0%nat)) ?= avg * (1 # 2))%Q
        eqn:Ecmp.
      1, 3: rewrite Hstep; split;
        [ intros [n [c [Hin H]]]; exists n, c; split; [now right | exact H]
        | intros [n [c [[Heq | Hin] [Hc [Hlt H]]]]];
          [ injection Heq as -> ->; apply (proj1 (Qlt_alt _ _)) in Hlt;
            congruence
          | exists n, c; now repeat split ] ].
      simpl. rewrite Hstep. split.
      * intros [<- | [n [c [Hin H]]]].
        -- exists a, b. split; [now left|]. split; [exact Hge|].
           split; [now apply Qlt_alt | reflexivity].
        -- exists n, c. split; [now right | exact H].
      * intros [n [c [[Heq | Hin] [Hc [Hlt H]]]]].
        -- injection Heq as -> ->. left. now symmetry.
        -- right. exists n, c. now repeat split.
Qed.

Lemma gap_ge_total (a b : GapRecord) :
  gap_ge a b = true \/ gap_ge b a = true.
Proof.
  unfold gap_ge. rewrite !Qle_bool_iff.
  destruct (Qlt_le_dec (gap_score a) (gap_score b)) as [H|H];
    [right; now apply Qlt_le_weak | now left].
Qed.

Lemma gaps_sorted (l : list GapRecord) :
  StronglySorted (fun a b => (gap_score b <= gap_score a)%Q)
    (stable_sort gap_ge l).
Proof.
  apply Sorted_StronglySorted.
  - intros a b c Hab Hbc. eapply Qle_trans; eassumption.
  - pose proof (stable_sort_sorted gap_ge gap_ge_total l) as H.
    induction H as [|x t Ht IH Hhd]; constructor; [exact IH|].
    destruct Hhd as [|y t' Hxy]; constructor.
    now apply Qle_bool_iff.
Qed.

Lemma gap_analysis_eq (df_311 : option DataFrame) (df_reddit : list Post) :
  gap_analysis df_311 (Some df_reddit)
  = gaps_of (report_counts_of df_311) df_reddit.
Proof. destruct df_reddit; reflexivity. Qed.

(** The analysis returns exactly when every hint cell can be run through. *)
Lemma gap_analysis_returns (df_311 : option DataFrame)
  (df_reddit : list Post) (hints : list (list string)) :
  post_hints df_reddit = Some hints ->
  exists signals,
    reddit_neighborhood_signals (dict_keys (report_counts_of df_311))
      df_reddit = Some signals
    /\ gap_analysis df_311 (Some df_reddit)
       = Some (stable_sort gap_ge
                 (gap_loop (report_counts_of df_311)
                    (avg_311_reports (report_counts_of df_311)) signals)).
Proof.
  intros Hh.
  destruct (signals_returns (dict_keys (report_counts_of df_311)) _ _ Hh)
    as [signals [Hs _]].
  exists signals. split; [exact Hs|].
  rewrite gap_analysis_eq. unfold gaps_of. now rewrite Hs.
Qed.

Lemma gap_analysis_raises (df_311 : option DataFrame)
  (df_reddit : list Post) :
  post_hints df_reddit = None ->
  gap_analysis df_311 (Some df_reddit) = None.
Proof.
  intros Hh. rewrite gap_analysis_eq. unfold gaps_of.
  now rewrite (signals_raises _ _ Hh).
Qed.

(** C5, as stated, fails on the ratio: Canton has 2 mentions and 3 official
    reports against a mean of 6.5; its record's gap ratio is 0.67, not 2/3. *)
Lemma gap_ratio_counterexample :
  exists g,
    gap_analysis (Some Samples.canton_hampden) (Some Samples.canton_posts)
    = Some [g]
    /\ reddit_signal g = 2%nat
    /\ reports_311 g = 3%nat
    /\ (gap_score g == 67 # 100)%Q
    /\ ~ (gap_score g
          == inject_Z (Z.of_nat (reddit_signal g))
             / inject_Z (Z.of_nat (Nat.max (reports_311 g) 1)))%Q.
Proof.
  eexists. split; [vm_compute; reflexivity|]. simpl.
  repeat split. intros H. vm_compute in H. discriminate H.
Qed.

(** C5, amended: when every hint cell can be run through, a neighborhood
    gets a gap record exactly when its weak-signal count is at least 2 and
    its official count is less than half the mean official count of all
    neighborhoods; the record's gap ratio is the float quotient of the
    weak-signal count by the larger of the official count and 1, rounded
    to two decimals as Python rounds a float; and the records come in
    descending order of that rounded ratio. *)
Theorem gap_records_criteria (df_311 : option DataFrame)
  (df_reddit : list Post) (hints : list (list string)) :
  post_hints df_reddit = Some hints ->
  let report_counts := report_counts_of df_311 in
  exists gaps,
    gap_analysis df_311 (Some df_reddit) = Some gaps
    /\ (forall n,
          (exists g, In g gaps /\ gap_neighborhood g = n) <->
          In n (dict_keys report_counts)
          /\ (2 <= mentions n hints)%nat
          /\ (inject_Z (Z.of_nat (dict_get report_counts n 0%nat))
              < avg_311_reports report_counts * (1 # 2))%Q)
    /\ (forall g, In g gaps ->
          reddit_signal g = mentions (gap_neighborhood g) hints
          /\ reports_311 g = dict_get report_counts (gap_neighborhood g) 0%nat
          /\ gap_score g
             = round_nd 2
                 (fl (inject_Z (Z.of_nat (reddit_signal g))
                      / inject_Z (Z.of_nat (Nat.max (reports_311 g) 1))))%Q)
    /\ StronglySorted (fun a b => (gap_score b <= gap_score a)%Q) gaps.
Proof.
  intros Hh. cbv zeta.
  set (rc := report_counts_of df_311).
  destruct (signals_returns (dict_keys rc) _ _ Hh)
    as [signals [Hs [Hnd Hget]]].
  specialize (Hget (report_counts_of_NoDup df_311)).
  eexists. split.
  { rewrite gap_analysis_eq. unfold gaps_of. fold rc. rewrite Hs.
    reflexivity. }
  assert (Hin : forall g l, In g (stable_sort gap_ge l) <-> In g l).
  { intros g l. split; apply Permutation_in;
      [apply Permutation_sym|]; apply stable_sort_perm. }
  split; [|split].
  - intros n. split.
    + intros [g [Hg Hn]]. apply Hin, gap_loop_in in Hg
        as [n' [c [Hc [Hge [Hlt ->]]]]].
      simpl in Hn. subst n'.
      pose proof (dict_get_in signals n c 0%nat Hnd Hc) as Hc'.
      rewrite Hget in Hc'.
      destruct (in_dec string_dec n (dict_keys rc)); [|lia].
      subst c. now repeat split.
    + intros [Hk [Hge Hlt]].
      assert (Hc : dict_get signals n 0%nat = mentions n hints).
      { rewrite Hget. destruct (in_dec string_dec n (dict_keys rc)); tauto. }
      eexists. split.
      * apply Hin, gap_loop_in. exists n, (mentions n hints).
        split; [|split; [exact Hge | split; [exact Hlt | reflexivity]]].
        rewrite <- Hc. apply dict_in_get.
        destruct (in_dec string_dec n (dict_keys signals)) as [H|H];
          [exact H|].
        rewrite (dict_get_absent signals n 0%nat H) in Hc. lia.
      * reflexivity.
  - intros g Hg. apply Hin, gap_loop_in in Hg
      as [n [c [Hc [Hge [Hlt ->]]]]]. simpl.
    pose proof (dict_get_in signals n c 0%nat Hnd Hc) as Hc'.
    rewrite Hget in Hc'.
    destruct (in_dec string_dec n (dict_keys rc)); [|lia].
    repeat split. now symmetry.
  - apply gaps_sorted.
Qed.

(** The theorem at three reports in Canton, ten in Hampden and two posts
    that mention Canton. *)
Lemma gap_records_criteria_witness :
  exists gaps,
    gap_analysis (Some Samples.canton_hampden) (Some Samples.canton_posts)
    = Some gaps
    /\ (forall g, In g gaps ->
          gap_score g
          = round_nd 2
              (fl (inject_Z (Z.of_nat (reddit_signal g))
                   / inject_Z (Z.of_nat (Nat.max (reports_311 g) 1))))%Q)
    /\ map (fun g => (gap_neighborhood g, reddit_signal g, reports_311 g))
         gaps
       = [("Canton", 2%nat, 3%nat)].
Proof.
  destruct (gap_records_criteria (Some Samples.canton_hampden)
              Samples.canton_posts _ eq_refl) as [gaps [H1 [_ [H3 _]]]].
  exists gaps. split; [exact H1|]. split.
  - intros g Hg. now destruct (H3 g Hg) as [_ [_ H]].
  - assert (E : Some gaps = Some gaps) by reflexivity.
    rewrite <- H1 in E at 1. vm_compute in E. injection E as <-.
    reflexivity.
Defined.

(** Three mentions over 40 reports: the float quotient is just below
    0.075, and the ratio is 0.07. *)
Example gap_score_3_over_40 : (gap_score_of 3 40 == 7 # 100)%Q.
Proof. vm_compute. reflexivity. Qed.

(** Ten neighborhoods averaging 100 reports: with 3 mentions each, Canton
    (20 reports, below half the mean) is flagged and Hampden (60 reports)
    is not. *)
Example gap_detection_scenario :
  (avg_311_reports Samples.ten_neighborhoods == 100)%Q
  /\ option_map
       (map (fun g => (gap_neighborhood g, reddit_signal g, reports_311 g)))
       (gaps_of Samples.ten_neighborhoods Samples.three_mentions_each)
     = Some [("Canton", 3%nat, 20%nat)].
Proof. split; vm_compute; reflexivity. Qed.

End GapFacts.

(** ** Optional inputs *)

Module OptionalInputFacts.
Import Frame Gap Neighborhoods.

(** C9: without the weak-signal frame, or with an empty one, the gap
    analysis gives the empty list, and a frame without a neighborhood
    column gives the empty neighborhood mapping; neither raises. *)
Theorem optional_inputs_degrade (df_311 : option DataFrame) (now : Z)
  (df : DataFrame) :
  has_column df "neighborhood" = false ->
  gap_analysis df_311 None = Some []
  /\ gap_analysis df_311 (Some []) = Some []
  /\ neighborhood_summary now df = Some [].
Proof.
  intros H. repeat split. unfold neighborhood_summary. now rewrite H.
Qed.

(** The theorem at a frame that has no neighborhood column. *)
Lemma optional_inputs_degrade_witness :
  gap_analysis (Some Samples.no_neighborhood_column) None = Some []
  /\ gap_analysis (Some Samples.no_neighborhood_column) (Some []) = Some []
  /\ neighborhood_summary (days 100) Samples.no_neighborhood_column = Some [].
Proof.
  exact (optional_inputs_degrade (Some Samples.no_neighborhood_column)
           (days 100) Samples.no_neighborhood_column eq_refl).
Defined.

(** With the neighborhood column the aggregator does produce summaries. *)
Example neighborhood_summary_names :
  option_map (map (fun s => (fst s, total_reports (snd s))))
    (neighborhood_summary (days 100) Samples.canton_hampden)
  = Some [("Canton"%string, 3%nat); ("Hampden"%string, 10%nat)].
Proof. vm_compute. reflexivity. Qed.

End OptionalInputFacts.

(** ** Spatial Clusterer *)

Module DbscanFacts.
Import Frame Dbscan.
Local Open Scope list_scope.

(** *** Labels *)

Lemma set_label_length (L : list Z) (i : nat) (v : Z) :
  List.length (set_label L i v) = List.length L.
Proof.
  revert i. induction L as [|x t IH]; intros [|i]; simpl; auto.
Qed.

Lemma label_of_set_same (L : list Z) (i : nat) (v : Z) :
  (i < List.length L)%nat -> label_of (set_label L i v) i = v.
Proof.
  unfold label_of. revert i.
  induction L as [|x t IH]; intros [|i] H; simpl in *; try lia.
  apply IH. lia.
Qed.

Lemma label_of_set_other (L : list Z) (i j : nat) (v : Z) :
  j <> i -> label_of (set_label L i v) j = label_of L j.
Proof.
  unfold label_of. revert i j.
  induction L as [|x t IH]; intros [|i] [|j] H; simpl; try reflexivity.
  - congruence.
  - apply IH. congruence.
Qed.

Lemma label_of_range (L : list Z) (i : nat) :
  label_of L i <> NOISE -> (i < List.length L)%nat.
Proof.
  intros H. destruct (Nat.lt_ge_cases i (List.length L)) as [Hlt|Hge];
    [exact Hlt|].
  exfalso. apply H. unfold label_of. now apply nth_overflow.
Qed.

Lemma push_unlabelled_in (L : list Z) (nbs : list nat) :
  forall (stack : list nat) (w : nat),
    In w (push_unlabelled L nbs stack)
    <-> In w stack \/ (In w nbs /\ label_of L w = NOISE).
Proof.
  unfold push_unlabelled.
  induction nbs as [|a t IH]; intros stack w; simpl.
  - tauto.
  - rewrite IH. destruct (Z.eqb_spec (label_of L a) NOISE) as [Ha|Ha]; simpl.
    + split.
      * intros [[<- | H] | [H1 H2]]; auto.
      * intros [H | [[<- | H1] H2]]; auto.
    + split.
      * intros [H | [H1 H2]]; auto.
      * intros [H | [[<- | H1] H2]]; auto. contradiction.
Qed.

Lemma push_unlabelled_length (L : list Z) (nbs : list nat) :
  forall stack : list nat,
    (List.length (push_unlabelled L nbs stack)
     <= List.length stack + List.length nbs)%nat.
Proof.
  unfold push_unlabelled.
  induction nbs as [|a t IH]; intros stack; simpl; [lia|].
  etransitivity; [apply IH|].
  destruct (label_of L a =? NOISE); simpl; lia.
Qed.

(** *** Sums over the points *)

Lemma list_sum_le (f g : nat -> nat) (l : list nat) :
  (forall v, In v l -> f v <= g v)%nat ->
  (list_sum (map f l) <= list_sum (map g l))%nat.
Proof.
  induction l as [|a t IH]; simpl; intros H; [lia|].
  pose proof (H a (or_introl eq_refl)).
  assert (list_sum (map f t) <= list_sum (map g t))%nat
    by (apply IH; intros v Hv; apply H; now right).
  lia.
Qed.

Lemma list_sum_drop (f g : nat -> nat) (l : list nat) (i : nat) :
  In i l -> f i = 0%nat ->
  (forall v, f v <= g v)%nat ->
  (list_sum (map f l) + g i <= list_sum (map g l))%nat.
Proof.
  intros Hin Hi Hle. induction l as [|a t IH]; simpl; [contradiction|].
  destruct Hin as [-> | Hin].
  - pose proof (list_sum_le f g t (fun v _ => Hle v)). lia.
  - specialize (IH Hin). pose proof (Hle a). lia.
Qed.

Lemma map_nth_indices {A : Type} (l : list A) (d : A) :
  map (fun v => nth v l d) (seq 0 (List.length l)) = l.
Proof.
  induction l as [|a t IH]; simpl; [reflexivity|].
  f_equal. rewrite <- seq_shift, map_map. exact IH.
Qed.

(** *** The labelling loop on a symmetric link graph without border points *)

Section InnerFacts.
Variable neighborhoods : list (list nat).
Variable is_core : list bool.
Variable n : nat.

Hypothesis neighborhoods_length : List.length neighborhoods = n.
Hypothesis edge_range :
  forall u v, edge neighborhoods u v -> (v < n)%nat.
Hypothesis edge_sym :
  forall u v, edge neighborhoods u v -> edge neighborhoods v u.
Hypothesis core_edge :
  forall u v, nth u is_core false = true -> edge neighborhoods u v ->
              nth v is_core false = true.

Lemma reach_sym (u v : nat) : reachable neighborhoods u v -> reachable neighborhoods v u.
Proof.
  induction 1 as [u v H | u | u w v _ IH1 _ IH2].
  - apply rt_step. now apply edge_sym.
  - apply rt_refl.
  - eapply rt_trans; eassumption.
Qed.

Lemma reach_core (u v : nat) :
  nth u is_core false = true -> reachable neighborhoods u v -> nth v is_core false = true.
Proof.
  intros Hu H. apply clos_rt_rtn1 in H.
  induction H as [|w v Hwv _ IH]; [exact Hu|].
  eapply core_edge; eassumption.
Qed.

Lemma reach_range (u v : nat) : (u < n)%nat -> reachable neighborhoods u v -> (v < n)%nat.
Proof.
  intros Hu H. apply clos_rt_rtn1 in H.
  induction H as [|w v Hwv _ IH]; [exact Hu|].
  eapply edge_range; eassumption.
Qed.

Lemma weight_set_label (L : list Z) (i : nat) (c : Z) :
  List.length L = n -> (i < n)%nat -> label_of L i = NOISE -> c <> NOISE ->
  (unlabelled_weight neighborhoods n (set_label L i c) + List.length (nth i neighborhoods [])
   <= unlabelled_weight neighborhoods n L)%nat.
Proof.
  intros HL Hi Hnoise Hc. unfold unlabelled_weight.
  set (f := fun v => if label_of (set_label L i c) v =? NOISE
                     then List.length (nth v neighborhoods []) else 0%nat).
  set (g := fun v => if label_of L v =? NOISE
                     then List.length (nth v neighborhoods []) else 0%nat).
  assert (Hg : g i = List.length (nth i neighborhoods []))
    by (unfold g; rewrite Hnoise; reflexivity).
  rewrite <- Hg. apply list_sum_drop.
  - apply in_seq. lia.
  - unfold f. rewrite label_of_set_same by lia.
    destruct (Z.eqb_spec c NOISE); [contradiction | reflexivity].
  - intros v. unfold f, g. destruct (Nat.eq_dec v i) as [->|Hne].
    + rewrite label_of_set_same by lia.
      destruct (Z.eqb_spec c NOISE); [contradiction | lia].
    + rewrite label_of_set_other by exact Hne. lia.
Qed.

Lemma weight_below_fuel (L : list Z) :
  (unlabelled_weight neighborhoods n L < enough_fuel neighborhoods)%nat.
Proof.
  unfold enough_fuel, unlabelled_weight. apply Nat.lt_succ_r.
  assert (E : map (@List.length nat) neighborhoods
              = map (fun v => List.length (nth v neighborhoods []))
                    (seq 0 n)).
  { rewrite <- (map_nth_indices neighborhoods []) at 1.
    now rewrite map_map, neighborhoods_length. }
  rewrite E. apply list_sum_le. intros v _.
  destruct (label_of L v =? NOISE); lia.
Qed.

(** One iteration of the search keeps its invariant and does not raise
    what is left to do. *)
Lemma search_step (L0 : list Z) (c : Z) (s : nat) (L : list Z) (i : nat)
  (stack : list nat) :
  0 <= c ->
  search_inv neighborhoods is_core n L0 c s L (i :: stack) ->
  let L1 := if label_of L i =? NOISE then set_label L i c else L in
  let stack1 :=
    if (label_of L i =? NOISE) && nth i is_core false
    then push_unlabelled L1 (nth i neighborhoods []) stack else stack in
  search_inv neighborhoods is_core n L0 c s L1 stack1
  /\ (List.length stack1 + unlabelled_weight neighborhoods n L1 <= List.length stack + unlabelled_weight neighborhoods n L)%nat.
Proof.
  intros Hc [J1 [J2 [J3 [J4 [J5 [J6 J7]]]]]].
  assert (Hcn : c <> NOISE) by (unfold NOISE; lia).
  destruct (J5 i (or_introl eq_refl)) as [Hi [Hsi [Hcore Hi0]]].
  destruct (Z.eqb_spec (label_of L i) NOISE) as [Hnoise | Hlab];
    cbv zeta; rewrite ?Hcore; cbn [andb].
  - (* the point gets the label and pushes its neighbours *)
    assert (Hsame : label_of (set_label L i c) i = c)
      by (apply label_of_set_same; lia).
    split; [|pose proof (push_unlabelled_length (set_label L i c)
                           (nth i neighborhoods []) stack);
             pose proof (weight_set_label L i c J1 Hi Hnoise Hcn); lia].
    unfold search_inv. rewrite set_label_length.
    split; [exact J1|]. split; [|split; [|split; [|split; [|split]]]].
    + intros v Hv. rewrite label_of_set_other; [now apply J2|].
      intros ->. contradiction.
    + intros v Hv. destruct (Nat.eq_dec v i) as [->|Hne].
      * right. exact Hsame.
      * rewrite label_of_set_other by exact Hne. now apply J3.
    + intros v Hv. destruct (Nat.eq_dec v i) as [->|Hne]; [exact Hsi|].
      rewrite label_of_set_other in Hv by exact Hne. now apply J4.
    + intros w Hw. apply push_unlabelled_in in Hw as [Hw | [Hw Hwl]].
      * apply J5. now right.
      * assert (Hiw : edge neighborhoods i w) by exact Hw.
        split; [eapply edge_range; exact Hiw|].
        split; [eapply rt_trans; [exact Hsi | now apply rt_step]|].
        split; [eapply core_edge; eassumption|].
        destruct (Z.eq_dec (label_of L0 w) NOISE) as [H0|H0]; [exact H0|].
        exfalso. assert (w <> i) by (intros ->; congruence).
        rewrite label_of_set_other in Hwl by assumption.
        rewrite (J2 w H0) in Hwl. contradiction.
    + intros u v Hu Huv.
      destruct (Z.eq_dec (label_of (set_label L i c) v) NOISE) as [Hv|Hv];
        [|now left].
      right. apply push_unlabelled_in.
      destruct (Nat.eq_dec u i) as [->|Hne].
      * right. now split.
      * rewrite label_of_set_other in Hu by exact Hne.
        destruct (J6 u v Hu Huv) as [Hl | [<- | Hin]].
        -- exfalso. destruct (Nat.eq_dec v i) as [->|Hvi]; [congruence|].
           rewrite label_of_set_other in Hv by exact Hvi. contradiction.
        -- congruence.
        -- now left.
    + destruct J7 as [Hs | [<- | Hin]].
      * left. destruct (Nat.eq_dec s i) as [->|Hne]; [exact Hsame|].
        now rewrite label_of_set_other.
      * now left.
      * right. apply push_unlabelled_in. now left.
  - (* the point was labelled since it was pushed *)
    split; [|lia].
    assert (Hic : label_of L i = c) by (destruct (J3 i Hi0); congruence).
    unfold search_inv.
    split; [exact J1|]. split; [exact J2|]. split; [exact J3|].
    split; [exact J4|]. split; [|split].
    + intros w Hw. apply J5. now right.
    + intros u v Hu Huv. destruct (J6 u v Hu Huv) as [Hl | [<- | Hin]];
        [now left | now left | now right].
    + destruct J7 as [Hs | [<- | Hin]]; [now left | now left | now right].
Qed.

Lemma depth_first_unfold (fuel : nat) (c : Z) (i : nat) (stack : list nat)
  (L : list Z) :
  depth_first neighborhoods is_core (S fuel) c i stack L
  = match (if (label_of L i =? NOISE) && nth i is_core false
           then push_unlabelled
                  (if label_of L i =? NOISE then set_label L i c else L)
                  (nth i neighborhoods []) stack
           else stack) with
    | [] => Some (if label_of L i =? NOISE then set_label L i c else L)
    | v :: rest =>
        depth_first neighborhoods is_core fuel c v rest
          (if label_of L i =? NOISE then set_label L i c else L)
    end.
Proof. reflexivity. Qed.

(** A search with enough fuel returns, with nothing left to visit. *)
Lemma depth_first_returns (L0 : list Z) (c : Z) (s : nat) :
  0 <= c ->
  forall (fuel i : nat) (stack : list nat) (L : list Z),
    search_inv neighborhoods is_core n L0 c s L (i :: stack) ->
    (List.length stack + unlabelled_weight neighborhoods n L < fuel)%nat ->
    exists L',
      depth_first neighborhoods is_core fuel c i stack L = Some L'
      /\ search_inv neighborhoods is_core n L0 c s L' [].
Proof.
  intros Hc. induction fuel as [|fuel IH]; intros i stack L Hinv Hfuel;
    [lia|].
  rewrite depth_first_unfold.
  destruct (search_step L0 c s L i stack Hc Hinv) as [Hinv' Hle].
  cbv zeta in Hinv', Hle.
  destruct (if (label_of L i =? NOISE) && nth i is_core false
            then _ else stack) as [|v rest].
  - eexists. split; [reflexivity | exact Hinv'].
  - apply IH; [exact Hinv'|]. simpl in Hle. lia.
Qed.

(** After a search, everything reachable from its start has its label. *)
Lemma search_labels_reachable (L0 : list Z) (c : Z) (s : nat) (L' : list Z)
  (todo : list nat) :
  labelling_inv neighborhoods is_core n L0 c todo ->
  search_inv neighborhoods is_core n L0 c s L' [] ->
  forall v, reachable neighborhoods s v -> label_of L' v = c.
Proof.
  intros [O0 [Oc [O1 [O2 [O3 [O4 O5]]]]]] [J1 [J2 [J3 [J4 [J5 [J6 J7]]]]]] v H.
  apply clos_rt_rtn1 in H. induction H as [|u v Huv _ IH].
  - destruct J7 as [Hs | []]. exact Hs.
  - destruct (J6 u v IH Huv) as [Hv | []].
    destruct (Z.eq_dec (label_of L0 v) NOISE) as [H0 | H0].
    + destruct (J3 v H0); [contradiction | assumption].
    + exfalso.
      pose proof (O4 v u H0 (edge_sym u v Huv)) as Hu0.
      assert (Hu : label_of L0 u <> NOISE) by congruence.
      pose proof (J2 u Hu) as Hu'. rewrite IH in Hu'.
      destruct (O1 u) as [Hn | Hr]; [contradiction | lia].
Qed.

Lemma search_start (L0 : list Z) (c : Z) (i : nat) (rest : list nat) :
  labelling_inv neighborhoods is_core n L0 c (i :: rest) ->
  (i < n)%nat -> label_of L0 i = NOISE -> nth i is_core false = true ->
  search_inv neighborhoods is_core n L0 c i L0 [i].
Proof.
  intros [O0 [Oc [O1 [O2 [O3 [O4 O5]]]]]] Hi Hnoise Hcore.
  assert (Hfresh : forall v, label_of L0 v <> c).
  { intros v Hv. destruct (O1 v) as [Hn | Hr]; [|lia].
    unfold NOISE in Hn. lia. }
  unfold search_inv. split; [exact O0|]. split; [reflexivity|].
  split; [now left|]. split; [intros v Hv; now elim (Hfresh v)|].
  split; [|split].
  - intros w [<- | []]. repeat split; try assumption. apply rt_refl.
  - intros u v Hu. now elim (Hfresh u).
  - right. now left.
Qed.

(** A finished search leaves the loop invariant for the next label. *)
Lemma labelling_after_search (L0 : list Z) (c : Z) (i : nat)
  (rest : list nat) (L' : list Z) :
  labelling_inv neighborhoods is_core n L0 c (i :: rest) ->
  (i < n)%nat -> label_of L0 i = NOISE -> nth i is_core false = true ->
  search_inv neighborhoods is_core n L0 c i L' [] ->
  labelling_inv neighborhoods is_core n L' (c + 1) rest.
Proof.
  intros HO Hi Hnoise Hcore HJ.
  pose proof (search_labels_reachable L0 c i L' _ HO HJ) as Hreach.
  destruct HO as [O0 [Oc [O1 [O2 [O3 [O4 O5]]]]]].
  destruct HJ as [J1 [J2 [J3 [J4 [J5 [J6 J7]]]]]].
  assert (Hold : forall v, label_of L0 v <> NOISE ->
                           label_of L' v <> NOISE /\ label_of L' v <> c).
  { intros v Hv. rewrite (J2 v Hv). split; [exact Hv|].
    destruct (O1 v) as [Hn | Hr]; [contradiction | lia]. }
  assert (Hnew : forall v, label_of L0 v = NOISE -> label_of L' v <> NOISE ->
                           label_of L' v = c).
  { intros v Hv Hv'. destruct (J3 v Hv); [contradiction | assumption]. }
  unfold labelling_inv. split; [exact J1|]. split; [lia|].
  split; [|split; [|split; [|split]]].
  - intros v. destruct (Z.eq_dec (label_of L0 v) NOISE) as [H0 | H0].
    + destruct (J3 v H0) as [Hn | Hc]; [now left | right; lia].
    + right. rewrite (J2 v H0).
      destruct (O1 v) as [Hn | Hr]; [contradiction | lia].
  - intros v Hv. destruct (Z.eq_dec (label_of L0 v) NOISE) as [H0 | H0].
    + apply (reach_core i v Hcore). apply J4. now apply Hnew.
    + now apply O2.
  - intros u v Hu Huv.
    destruct (Z.eq_dec (label_of L0 u) NOISE) as [Hu0 | Hu0];
      destruct (Z.eq_dec (label_of L0 v) NOISE) as [Hv0 | Hv0].
    + pose proof (Hnew u Hu0 Hu) as Huc.
      assert (Hvc : label_of L' v = c) by (apply Hnew; congruence).
      eapply rt_trans; [apply reach_sym, J4, Huc | apply J4, Hvc].
    + exfalso. pose proof (Hnew u Hu0 Hu) as Huc.
      destruct (Hold v Hv0) as [_ Hvc]. congruence.
    + exfalso. destruct (Hold u Hu0) as [_ Huc].
      assert (Hvn : label_of L' v <> NOISE) by congruence.
      pose proof (Hnew v Hv0 Hvn). congruence.
    + apply O3; [exact Hu0|]. rewrite <- (J2 u Hu0), <- (J2 v Hv0). exact Huv.
  - intros u v Hu Huv.
    destruct (Z.eq_dec (label_of L0 u) NOISE) as [Hu0 | Hu0].
    + pose proof (Hnew u Hu0 Hu) as Huc. rewrite Huc.
      apply Hreach. eapply rt_trans; [apply J4, Huc | now apply rt_step].
    + pose proof (O4 u v Hu0 Huv) as Hv.
      rewrite (J2 u Hu0), (J2 v); congruence.
  - intros v Hv Hnin Hcv. destruct (Nat.eq_dec v i) as [->|Hne].
    + rewrite (Hreach i (rt_refl _ _ _)). unfold NOISE. lia.
    + apply Hold, O5; try assumption. intros [Heq | Hin]; [congruence | tauto].
Qed.

Lemma labelling_skip (L : list Z) (c : Z) (i : nat) (rest : list nat) :
  labelling_inv neighborhoods is_core n L c (i :: rest) ->
  label_of L i <> NOISE \/ nth i is_core false = false ->
  labelling_inv neighborhoods is_core n L c rest.
Proof.
  intros [O0 [Oc [O1 [O2 [O3 [O4 O5]]]]]] Hskip.
  unfold labelling_inv. repeat (split; [assumption|]).
  intros v Hv Hnin Hcv. destruct (Nat.eq_dec v i) as [->|Hne].
  - destruct Hskip; [assumption | congruence].
  - apply O5; try assumption. intros [Heq | Hin]; [congruence | tauto].
Qed.

(** The labelling loop returns, and its invariant holds at the end. *)
Lemma label_loop_returns (todo : list nat) :
  forall (c : Z) (L : list Z),
    labelling_inv neighborhoods is_core n L c todo ->
    (forall v, In v todo -> (v < n)%nat) ->
    exists L' c',
      label_loop neighborhoods is_core (enough_fuel neighborhoods) todo c L
      = Some L'
      /\ labelling_inv neighborhoods is_core n L' c' [].
Proof.
  induction todo as [|i rest IH]; intros c L HO Hrange.
  - now exists L, c.
  - assert (Hrest : forall v, In v rest -> (v < n)%nat)
      by (intros v Hv; apply Hrange; now right).
    cbn [label_loop].
    destruct (Z.eqb_spec (label_of L i) NOISE) as [Hnoise | Hlab];
      cbn [negb orb].
    + destruct (nth i is_core false) eqn:Hcore; cbn [negb].
      * assert (Hi : (i < n)%nat) by (apply Hrange; now left).
        assert (Hc : 0 <= c) by apply HO.
        destruct (depth_first_returns L c i Hc (enough_fuel neighborhoods)
                    i [] L (search_start L c i rest HO Hi Hnoise Hcore))
          as [L' [HL' HJ]].
        { cbn [List.length plus]. apply weight_below_fuel. }
        rewrite HL'. cbn [bind]. apply IH; [|exact Hrest].
        eapply labelling_after_search; eassumption.
      * apply IH; [|exact Hrest].
        eapply labelling_skip; [exact HO | now right].
    + apply IH; [|exact Hrest].
      eapply labelling_skip; [exact HO | now left].
Qed.

Lemma label_of_repeat (k v : nat) : label_of (repeat NOISE k) v = NOISE.
Proof.
  unfold label_of. revert v. induction k as [|k IH]; intros [|v]; simpl; auto.
Qed.

(** The labels of [dbscan_inner]: the points without a label are the
    points that are not core points, and two core points have the same
    label exactly when one can be reached from the other. *)
Lemma dbscan_inner_components :
  exists L,
    dbscan_inner neighborhoods is_core (repeat NOISE n) = Some L
    /\ List.length L = n
    /\ (forall v, (v < n)%nat ->
                  (label_of L v = NOISE <-> nth v is_core false = false))
    /\ (forall u v, (u < n)%nat -> nth u is_core false = true ->
                    (label_of L u = label_of L v
                     <-> reachable neighborhoods u v)).
Proof.
  unfold dbscan_inner. rewrite repeat_length.
  destruct (label_loop_returns (seq 0 n) 0 (repeat NOISE n)) as [L [c [HL HO]]].
  - unfold labelling_inv. rewrite repeat_length.
    split; [reflexivity|]. split; [lia|].
    split; [intros v; left; apply label_of_repeat|].
    split; [intros v Hv; now elim Hv; apply label_of_repeat|].
    split; [intros u v Hu; now elim Hu; apply label_of_repeat|].
    split; [intros u v Hu; now elim Hu; apply label_of_repeat|].
    intros v Hv Hnin. elim Hnin. apply in_seq. lia.
  - intros v Hv. apply in_seq in Hv. lia.
  - exists L. split; [exact HL|].
    destruct HO as [O0 [Oc [O1 [O2 [O3 [O4 O5]]]]]].
    split; [exact O0|]. split.
    + intros v Hv. split.
      * intros Hn. destruct (nth v is_core false) eqn:E; [|reflexivity].
        exfalso. now apply (O5 v Hv (fun H => H) E).
      * intros Hc. destruct (Z.eq_dec (label_of L v) NOISE) as [H|H];
          [exact H|]. rewrite (O2 v H) in Hc. discriminate Hc.
    + intros u v Hu Hcu.
      assert (Hlu : label_of L u <> NOISE)
        by exact (O5 u Hu (fun H => H) Hcu).
      split; [now apply O3|].
      intros H. apply clos_rt_rtn1 in H.
      induction H as [|w v Hwv _ IH]; [reflexivity|].
      rewrite IH. symmetry. apply O4; [congruence | exact Hwv].
Qed.

End InnerFacts.

(** *** The neighbourhoods of a symmetric and reflexive radius test *)

Lemma filter_map_length {A B : Type} (f : B -> bool) (g : A -> B)
  (l : list A) :
  List.length (filter f (map g l))
  = List.length (filter (fun x => f (g x)) l).
Proof.
  induction l as [|a t IH]; simpl; [reflexivity|].
  destruct (f (g a)); simpl; congruence.
Qed.

Lemma two_members (l : list nat) (a b : nat) :
  In a l -> In b l -> a <> b -> (2 <= List.length l)%nat.
Proof.
  destruct l as [|x [|y t]]; simpl; intros Ha Hb Hab; lia.
Qed.

Lemma other_member (l : list nat) (a : nat) :
  NoDup l -> (2 <= List.length l)%nat -> exists b, In b l /\ b <> a.
Proof.
  destruct l as [|x [|y t]]; simpl; intros Hnd Hlen; try lia.
  destruct (Nat.eq_dec x a) as [->|Hx].
  - exists y. split; [now right; left|].
    intros ->. inversion Hnd as [|? ? Hnin _]; subst. apply Hnin. now left.
  - exists x. split; [now left | exact Hx].
Qed.

Section FitFacts.
Context {P : Type} (within_eps : P -> P -> bool).
Hypothesis within_sym : forall p q, within_eps p q = within_eps q p.
Hypothesis within_refl : forall p, within_eps p p = true.

Section OneFrame.
Variable X : list P.

Lemma radius_neighbors_nth (i : nat) (p : P) :
  nth_error X i = Some p ->
  nth i (radius_neighbors within_eps X) []
  = filter (fun j => within_eps p (nth j X p)) (seq 0 (List.length X)).
Proof.
  intros H. unfold radius_neighbors. apply nth_error_nth.
  now rewrite nth_error_map, H.
Qed.

Lemma edge_iff (i j : nat) :
  edge (radius_neighbors within_eps X) i j
  <-> exists p q, nth_error X i = Some p /\ nth_error X j = Some q
                  /\ within_eps p q = true.
Proof.
  unfold edge. split.
  - intros H. destruct (nth_error X i) as [p|] eqn:Ei.
    + rewrite (radius_neighbors_nth i p Ei) in H.
      apply filter_In in H as [Hj Hw]. apply in_seq in Hj.
      destruct (nth_error X j) as [q|] eqn:Ej.
      * exists p, q. rewrite (nth_error_nth X j p Ej) in Hw. now repeat split.
      * apply nth_error_None in Ej. lia.
    + apply nth_error_None in Ei. rewrite nth_overflow in H; [contradiction|].
      unfold radius_neighbors. now rewrite length_map.
  - intros [p [q [Ei [Ej Hw]]]]. rewrite (radius_neighbors_nth i p Ei).
    apply filter_In. split.
    + apply in_seq. assert (j < List.length X)%nat; [|lia].
      apply nth_error_Some. congruence.
    + now rewrite (nth_error_nth X j p Ej).
Qed.

Lemma neighbourhood_size (i : nat) (p : P) :
  nth_error X i = Some p ->
  List.length (nth i (radius_neighbors within_eps X) [])
  = neighbour_count within_eps X p.
Proof.
  intros H. rewrite (radius_neighbors_nth i p H). unfold neighbour_count.
  rewrite <- (filter_map_length (within_eps p) (fun j => nth j X p)).
  now rewrite map_nth_indices.
Qed.

Lemma neighbourhood_NoDup (i : nat) :
  NoDup (nth i (radius_neighbors within_eps X) []).
Proof.
  destruct (nth_error X i) as [p|] eqn:Ei.
  - rewrite (radius_neighbors_nth i p Ei). apply NoDup_filter, seq_NoDup.
  - apply nth_error_None in Ei. rewrite nth_overflow; [constructor|].
    unfold radius_neighbors. now rewrite length_map.
Qed.

Lemma core_samples_nth (i : nat) :
  nth i (map (fun neighb => (MIN_CLUSTER_SAMPLES <=? List.length neighb)%nat)
           (radius_neighbors within_eps X)) false
  = (2 <=? List.length (nth i (radius_neighbors within_eps X) []))%nat.
Proof.
  exact (map_nth (fun neighb => (2 <=? List.length neighb)%nat)
           (radius_neighbors within_eps X) [] i).
Qed.

Lemma edge_self (i : nat) (p : P) :
  nth_error X i = Some p -> edge (radius_neighbors within_eps X) i i.
Proof. intros H. apply edge_iff. exists p, p. now repeat split. Qed.

Lemma edge_symmetric (u v : nat) :
  edge (radius_neighbors within_eps X) u v ->
  edge (radius_neighbors within_eps X) v u.
Proof.
  intros H. apply edge_iff in H as [p [q [Hu [Hv Hw]]]].
  apply edge_iff. exists q, p. rewrite within_sym. now repeat split.
Qed.

(** A point with another row within the radius has at least two
    neighbours, itself included, and conversely. *)
Lemma neighbour_count_other (i : nat) (p : P) :
  nth_error X i = Some p ->
  (2 <= neighbour_count within_eps X p)%nat
  <-> exists j q, j <> i /\ nth_error X j = Some q /\ within_eps p q = true.
Proof.
  intros Hi. rewrite <- (neighbourhood_size i p Hi). split.
  - intros H.
    destruct (other_member _ i (neighbourhood_NoDup i) H) as [j [Hj Hne]].
    apply (edge_iff i j) in Hj as [p' [q [Hi' [Hj Hw]]]].
    exists j, q. split; [exact Hne|]. split; [exact Hj|]. congruence.
  - intros [j [q [Hne [Hj Hw]]]].
    apply (two_members _ i j); [exact (edge_self i p Hi) | | congruence].
    apply edge_iff. now exists p, q.
Qed.

(** Reachability between rows is membership of one component of the link
    graph on the points. *)
Lemma reachable_component (i j : nat) (p q : P) :
  nth_error X i = Some p -> nth_error X j = Some q ->
  reachable (radius_neighbors within_eps X) i j
  <-> same_component within_eps X p q.
Proof.
  intros Hi Hj. split.
  - intros H. revert q Hj. apply clos_rt_rtn1 in H.
    induction H as [|w j Hwj _ IH]; intros q Hj.
    + assert (q = p) by congruence. subst. apply rt_refl.
    + apply edge_iff in Hwj as [pw [q' [Hw [Hj' Hlink]]]].
      assert (q' = q) by congruence. subst.
      eapply rt_trans; [exact (IH pw Hw)|]. apply rt_step.
      split; [eapply nth_error_In; exact Hw|].
      split; [eapply nth_error_In; exact Hj | exact Hlink].
  - intros H. revert j Hj. apply clos_rt_rtn1 in H.
    induction H as [|y q Hyq _ IH]; intros j Hj.
    + apply rt_step, edge_iff. exists p, p. now repeat split.
    + destruct Hyq as [Hy [_ Hlink]].
      apply In_nth_error in Hy as [k Hk].
      eapply rt_trans; [exact (IH k Hk)|].
      apply rt_step, edge_iff. now exists y, q.
Qed.

(** The labels of the clusterer on the points [X]: a row is noise exactly
    when fewer than two rows (itself included) are within the radius of
    its point, and a row that is not noise shares its label exactly with
    the rows of its component. *)
Lemma fit_labels_components :
  exists L,
    fit_labels within_eps X = Some L
    /\ List.length L = List.length X
    /\ (forall i p, nth_error X i = Some p ->
          (label_of L i = NOISE
           <-> (neighbour_count within_eps X p < 2)%nat))
    /\ (forall i j p q,
          nth_error X i = Some p -> nth_error X j = Some q ->
          (2 <= neighbour_count within_eps X p)%nat ->
          (label_of L i = label_of L j
           <-> same_component within_eps X p q)).
Proof.
  unfold fit_labels.
  set (nbs := radius_neighbors within_eps X).
  set (cores := map (fun neighb =>
                       (MIN_CLUSTER_SAMPLES <=? List.length neighb)%nat) nbs).
  assert (Hcore : forall i p, nth_error X i = Some p ->
            (nth i cores false = true
             <-> (2 <= neighbour_count within_eps X p)%nat)).
  { intros i p Hi. unfold cores, nbs. rewrite core_samples_nth.
    rewrite (neighbourhood_size i p Hi). apply Nat.leb_le. }
  assert (Hrange : forall u v, edge nbs u v -> (v < List.length X)%nat).
  { intros u v H. apply edge_iff in H as [p [q [_ [Hv _]]]].
    apply nth_error_Some. congruence. }
  destruct (dbscan_inner_components nbs cores (List.length X))
    as [L [HL [Hlen [Hnoise Hsame]]]].
  - unfold nbs, radius_neighbors. now rewrite length_map.
  - exact Hrange.
  - exact edge_symmetric.
  - intros u v Hu Huv. unfold cores, nbs in *.
    rewrite core_samples_nth in *. apply Nat.leb_le. apply Nat.leb_le in Hu.
    destruct (Nat.eq_dec u v) as [->|Hne]; [exact Hu|].
    apply (two_members _ u v); [now apply edge_symmetric | | exact Hne].
    apply edge_iff in Huv as [_ [q [_ [Hv _]]]]. exact (edge_self v q Hv).
  - exists L. split; [exact HL|]. split; [exact Hlen|]. split.
    + intros i p Hi.
      assert (Hlt : (i < List.length X)%nat)
        by (apply nth_error_Some; congruence).
      rewrite (Hnoise i Hlt). rewrite <- Nat.nle_gt, <- (Hcore i p Hi).
      destruct (nth i cores false); split; congruence.
    + intros i j p q Hi Hj Hp.
      assert (Hlt : (i < List.length X)%nat)
        by (apply nth_error_Some; congruence).
      rewrite (Hsame i j Hlt (proj2 (Hcore i p Hi) Hp)).
      now apply reachable_component.
Qed.

End OneFrame.

Lemma labels_equal_iff (X : list P) (L : list Z) :
  (forall i p, nth_error X i = Some p ->
     (label_of L i = NOISE <-> (neighbour_count within_eps X p < 2)%nat)) ->
  (forall i j p q,
     nth_error X i = Some p -> nth_error X j = Some q ->
     (2 <= neighbour_count within_eps X p)%nat ->
     (label_of L i = label_of L j <-> same_component within_eps X p q)) ->
  forall i j p q,
    nth_error X i = Some p -> nth_error X j = Some q ->
    label_of L i = label_of L j
    <-> ((neighbour_count within_eps X p < 2)%nat
         /\ (neighbour_count within_eps X q < 2)%nat)
        \/ ((2 <= neighbour_count within_eps X p)%nat
            /\ same_component within_eps X p q).
Proof.
  intros Hnoise Hsame i j p q Hi Hj.
  destruct (Nat.lt_ge_cases (neighbour_count within_eps X p) 2) as [Hp | Hp].
  - pose proof (proj2 (Hnoise i p Hi) Hp) as Hli. rewrite Hli. split.
    + intros H. left. split; [exact Hp|].
      apply (Hnoise j q Hj). now symmetry.
    + intros [[_ Hq] | [Hp' _]]; [|lia].
      symmetry. now apply (Hnoise j q Hj).
  - rewrite (Hsame i j p q Hi Hj Hp). split.
    + intros H. right. now split.
    + intros [[Hp' _] | [_ H]]; [lia | exact H].
Qed.

Lemma same_component_perm (X X' : list P) (p q : P) :
  Permutation X X' ->
  same_component within_eps X p q -> same_component within_eps X' p q.
Proof.
  intros HP H. induction H as [p q [Hp [Hq Hw]] | p | p y q _ IH1 _ IH2].
  - apply rt_step. split; [|split; [|exact Hw]];
      eapply Permutation_in; eassumption.
  - apply rt_refl.
  - eapply rt_trans; eassumption.
Qed.

(** The co-membership of two points does not depend on the row order. *)
Lemma fit_labels_permutation (X X' : list P) :
  Permutation X X' ->
  exists L L',
    fit_labels within_eps X = Some L
    /\ fit_labels within_eps X' = Some L'
    /\ forall i j i' j' p q,
         nth_error X i = Some p -> nth_error X j = Some q ->
         nth_error X' i' = Some p -> nth_error X' j' = Some q ->
         (label_of L i = label_of L j <-> label_of L' i' = label_of L' j').
Proof.
  intros HP.
  destruct (fit_labels_components X) as [L [HL [_ [Hn Hs]]]].
  destruct (fit_labels_components X') as [L' [HL' [_ [Hn' Hs']]]].
  exists L, L'. split; [exact HL|]. split; [exact HL'|].
  intros i j i' j' p q Hi Hj Hi' Hj'.
  rewrite (labels_equal_iff X L Hn Hs i j p q Hi Hj).
  rewrite (labels_equal_iff X' L' Hn' Hs' i' j' p q Hi' Hj').
  assert (Hc : forall r, neighbour_count within_eps X r
                         = neighbour_count within_eps X' r)
    by (intros r; apply HotspotFacts.filter_length_perm, HP).
  rewrite !Hc.
  assert (Hcomp : same_component within_eps X p q
                  <-> same_component within_eps X' p q).
  { split; apply same_component_perm;
      [exact HP | apply Permutation_sym, HP]. }
  rewrite Hcomp. reflexivity.
Qed.

End FitFacts.

(** *** The clusterer on a frame *)

Lemma assign_labels_columns (rs : list Row) :
  forall L : list Z,
    List.length L = List.length rs ->
    map cluster_id (assign_labels rs L) = L
    /\ map coords (assign_labels rs L) = map coords rs.
Proof.
  induction rs as [|r t IH]; intros [|l L] H; simpl in *; try lia.
  - now split.
  - destruct (IH L) as [H1 H2]; [lia|]. now rewrite H1, H2.
Qed.

Lemma flat_within_sym (p q : Q * Q) :
  Samples.flat_within p q = Samples.flat_within q p.
Proof.
  unfold Samples.flat_within. apply Qleb_comp; [ring | reflexivity].
Qed.

Lemma flat_within_refl (p : Q * Q) : Samples.flat_within p p = true.
Proof.
  unfold Samples.flat_within. apply Qle_bool_iff.
  assert (E : ((fst p - fst p) * (fst p - fst p)
               + (snd p - snd p) * (snd p - snd p) == 0)%Q) by ring.
  rewrite E. vm_compute. discriminate.
Qed.

(** *** The input check *)

Lemma dbscan_labels_nonempty {P : Type} (within_eps : P -> P -> bool)
  (X : list P) :
  X <> [] -> dbscan_labels within_eps X = fit_labels within_eps X.
Proof. destruct X; [congruence | reflexivity]. Qed.

Lemma dbscan_labels_empty {P : Type} (within_eps : P -> P -> bool) :
  dbscan_labels within_eps (@nil P) = None.
Proof. reflexivity. Qed.

(** The labels depend on the radius test through the points only. *)
Lemma dbscan_labels_ext {P : Type} (w1 w2 : P -> P -> bool) (X : list P) :
  (forall p q, In p X -> In q X -> w1 p q = w2 p q) ->
  dbscan_labels w1 X = dbscan_labels w2 X.
Proof.
  intros H. unfold dbscan_labels, fit_labels.
  assert (E : radius_neighbors w1 X = radius_neighbors w2 X).
  { unfold radius_neighbors. apply map_ext_in. intros p Hp.
    apply filter_ext_in. intros j Hj. apply in_seq in Hj.
    apply H; [exact Hp | apply nth_In; lia]. }
  now rewrite E.
Qed.

(** *** The haversine radius test *)

Section Haversine.
Local Open Scope R_scope.

Lemma sin_half_sqr_sym (a b : R) : (sin ((a - b) / 2))² = (sin ((b - a) / 2))².
Proof.
  replace ((b - a) / 2) with (- ((a - b) / 2)) by lra.
  rewrite sin_neg. apply Rsqr_neg.
Qed.

Lemma haversine_rdist_sym (p q : Q * Q) :
  haversine_rdist p q = haversine_rdist q p.
Proof.
  unfold haversine_rdist. cbv zeta.
  rewrite (sin_half_sqr_sym (radians (fst p))),
    (sin_half_sqr_sym (radians (snd p))).
  ring.
Qed.

Lemma haversine_within_sym (p q : Q * Q) :
  haversine_within p q = haversine_within q p.
Proof.
  unfold haversine_within, haversine. now rewrite haversine_rdist_sym.
Qed.

Lemma eps_rad_bounds : 0 < eps_rad < 1.
Proof.
  unfold eps_rad, EPS_DEGREES, CLUSTER_EPS_METERS, METERS_PER_DEGREE_LAT.
  assert (E : Q2R (75 / 111000) = 75 / 111000).
  { unfold Q2R. simpl. lra. }
  rewrite E. pose proof PI_RGT_0. pose proof PI_4. split; lra.
Qed.

Lemma haversine_within_refl (p : Q * Q) : haversine_within p p = true.
Proof.
  unfold haversine_within, haversine, haversine_rdist. cbv zeta.
  replace ((radians (fst p) - radians (fst p)) / 2) with 0 by lra.
  replace ((radians (snd p) - radians (snd p)) / 2) with 0 by lra.
  rewrite sin_0. unfold Rsqr. rewrite !Rmult_0_r, Rplus_0_r, sqrt_0, asin_0.
  destruct (Rle_dec (2 * 0) eps_rad) as [_|H]; [reflexivity|].
  exfalso. apply H. pose proof eps_rad_bounds. lra.
Qed.

Lemma radians_range (lat : Q) :
  in_range lat -> - (PI / 2) <= radians lat <= PI / 2.
Proof.
  intros [H1 H2]. apply Qle_Rle in H1, H2. unfold radians.
  assert (E1 : Q2R (-90) = -90) by (unfold Q2R; simpl; lra).
  assert (E2 : Q2R 90 = 90) by (unfold Q2R; simpl; lra).
  rewrite E1 in H1. rewrite E2 in H2. pose proof PI_RGT_0.
  split; nra.
Qed.

Lemma sin_le_compat (x y : R) :
  - (PI / 2) <= x -> x <= y -> y <= PI / 2 -> sin x <= sin y.
Proof.
  intros Hx [Hlt | ->] Hy; [|apply Rle_refl].
  left. apply sin_increasing_1; lra.
Qed.

(** [sqrt(sin²(d/2))] for a difference [d] of at most a half turn. *)
Lemma sqrt_sin_half (d : R) :
  Rabs d <= PI -> sqrt (sin (d / 2))² = sin (Rabs d / 2).
Proof.
  intros Hd. rewrite sqrt_Rsqr_abs. pose proof PI_RGT_0.
  unfold Rabs at 2. unfold Rabs in Hd. destruct (Rcase_abs d) as [Hn | Hp].
  - replace (d / 2) with (- (- d / 2)) by lra. rewrite sin_neg, Rabs_Ropp.
    apply Rabs_right, Rle_ge, sin_ge_0; lra.
  - apply Rabs_right, Rle_ge, sin_ge_0; lra.
Qed.

(** Along a meridian the distance is the difference of the latitudes. *)
Lemma haversine_meridian (p q : Q * Q) :
  in_range (fst p) -> in_range (fst q) -> (snd p == snd q)%Q ->
  haversine p q = Rabs (radians (fst p) - radians (fst q)).
Proof.
  intros Hp Hq Hlon. apply radians_range in Hp, Hq.
  unfold haversine, haversine_rdist. cbv zeta.
  assert (E : radians (snd p) = radians (snd q))
    by (unfold radians; now rewrite (Qeq_eqR _ _ Hlon)).
  rewrite E. replace ((radians (snd q) - radians (snd q)) / 2) with 0 by lra.
  rewrite sin_0. unfold Rsqr at 2. rewrite !Rmult_0_r, Rplus_0_r.
  set (d := radians (fst p) - radians (fst q)).
  assert (Hd : Rabs d <= PI).
  { unfold d. apply Rabs_le. lra. }
  rewrite (sqrt_sin_half d Hd), asin_sin; [lra|].
  pose proof (Rabs_pos d). pose proof PI_RGT_0. lra.
Qed.

(** The product of the cosines is at most the squared cosine of the half
    difference. *)
Lemma cos_product_le (a b : R) : cos a * cos b <= (cos ((a - b) / 2))².
Proof.
  assert (E : (cos ((a - b) / 2))² = (1 + cos (a - b)) / 2).
  { replace (a - b) with (2 * ((a - b) / 2)) at 2 by lra.
    rewrite cos_2a_cos. unfold Rsqr. lra. }
  rewrite E, cos_minus.
  pose proof (COS_bound (a + b)) as [_ Hc]. rewrite cos_plus in Hc. lra.
Qed.

Lemma haversine_rdist_bounds (p q : Q * Q) :
  in_range (fst p) -> in_range (fst q) ->
  (sin ((radians (fst p) - radians (fst q)) / 2))² <= haversine_rdist p q
  /\ haversine_rdist p q <= 1.
Proof.
  intros Hp Hq. apply radians_range in Hp, Hq.
  unfold haversine_rdist. cbv zeta.
  set (a := radians (fst p)) in *. set (b := radians (fst q)) in *.
  set (s := (sin ((radians (snd p) - radians (snd q)) / 2))²).
  assert (Hs : 0 <= s <= 1).
  { split; [apply Rle_0_sqr|]. unfold s.
    pose proof (sin2_cos2 ((radians (snd p) - radians (snd q)) / 2)).
    pose proof (Rle_0_sqr (cos ((radians (snd p) - radians (snd q)) / 2))).
    lra. }
  assert (Ha : 0 <= cos a) by (apply cos_ge_0; lra).
  assert (Hb : 0 <= cos b) by (apply cos_ge_0; lra).
  assert (Hc : 0 <= cos a * cos b) by (now apply Rmult_le_pos).
  pose proof (cos_product_le a b) as Hle.
  pose proof (sin2_cos2 ((a - b) / 2)) as H1.
  split; nra.
Qed.

(** Points whose latitudes differ by more than the radius are farther
    apart than the radius, whatever their longitudes. *)
Lemma haversine_far (p q : Q * Q) :
  in_range (fst p) -> in_range (fst q) ->
  eps_rad < Rabs (radians (fst p) - radians (fst q)) ->
  eps_rad < haversine p q.
Proof.
  intros Hp Hq Hfar.
  destruct (haversine_rdist_bounds p q Hp Hq) as [Hlo Hhi].
  apply radians_range in Hp, Hq.
  set (d := radians (fst p) - radians (fst q)) in *.
  assert (Hd : Rabs d <= PI) by (unfold d; apply Rabs_le; lra).
  pose proof eps_rad_bounds as [He0 He1]. pose proof PI_RGT_0 as Hpi.
  pose proof PI2_1 as Hpi2.
  apply Rnot_le_lt. intros Hle. unfold haversine in Hle.
  set (x := sqrt (haversine_rdist p q)) in *.
  assert (Hx0 : 0 <= x) by apply sqrt_pos.
  assert (Hx1 : x <= 1).
  { unfold x. rewrite <- sqrt_1. apply sqrt_le_1_alt. exact Hhi. }
  assert (Hsin : x <= sin (eps_rad / 2)).
  { rewrite <- (sin_asin x) by lra.
    pose proof (asin_bound x). apply sin_le_compat; lra. }
  assert (Hlt : sin (eps_rad / 2) < sin (Rabs d / 2))
    by (apply sin_increasing_1; lra).
  assert (Hs0 : 0 <= sin (eps_rad / 2)) by (apply sin_ge_0; lra).
  assert (Hx : sin (Rabs d / 2) <= x).
  { rewrite <- (sqrt_sin_half d Hd). unfold x. now apply sqrt_le_1_alt. }
  lra.
Qed.

Lemma Q2R_abs (x : Q) : Q2R (Qabs x) = Rabs (Q2R x).
Proof.
  destruct (Qlt_le_dec x 0) as [H | H].
  - rewrite Qabs_neg by (now apply Qlt_le_weak). rewrite Q2R_opp.
    apply Qlt_Rlt in H. rewrite RMicromega.Q2R_0 in H.
    symmetry. apply Rabs_left. exact H.
  - rewrite Qabs_pos by exact H.
    apply Qle_Rle in H. rewrite RMicromega.Q2R_0 in H.
    symmetry. apply Rabs_right. lra.
Qed.

Lemma radians_difference (a b : Q) :
  Rabs (radians a - radians b) = Q2R (Qabs (a - b)) * (PI / 180).
Proof.
  unfold radians. rewrite Q2R_abs, Q2R_minus, <- Rmult_minus_distr_r, Rabs_mult.
  f_equal. apply Rabs_right. pose proof PI_RGT_0. lra.
Qed.

(** The radius test on two points of one meridian, or whose latitudes
    differ by more than the radius: the difference of the latitudes
    against 75 / 111000 degrees. *)
Lemma haversine_within_latitudes (p q : Q * Q) :
  in_range (fst p) -> in_range (fst q) ->
  (snd p == snd q)%Q \/ (EPS_DEGREES < Qabs (fst p - fst q))%Q ->
  haversine_within p q = Qle_bool (Qabs (fst p - fst q)) EPS_DEGREES.
Proof.
  intros Hp Hq Hcase. pose proof PI_RGT_0 as Hpi.
  assert (Hfar : (EPS_DEGREES < Qabs (fst p - fst q))%Q ->
                 haversine_within p q = false
                 /\ Qle_bool (Qabs (fst p - fst q)) EPS_DEGREES = false).
  { intros H. split.
    - unfold haversine_within.
      destruct (Rle_dec (haversine p q) eps_rad) as [Hle|_]; [|reflexivity].
      exfalso. apply (Rlt_irrefl eps_rad).
      eapply Rlt_le_trans; [|exact Hle]. apply haversine_far; try assumption.
      rewrite radians_difference. unfold eps_rad.
      apply Qlt_Rlt in H. apply Rmult_lt_compat_r; lra.
    - apply not_true_is_false. intros E. apply Qle_bool_iff in E.
      now apply Qle_not_lt in E. }
  destruct (Qlt_le_dec EPS_DEGREES (Qabs (fst p - fst q))) as [H | H].
  - destruct (Hfar H) as [-> ->]. reflexivity.
  - destruct Hcase as [Hlon | H']; [|destruct (Hfar H') as [-> ->]; reflexivity].
    rewrite (proj2 (Qle_bool_iff _ _) H).
    unfold haversine_within.
    destruct (Rle_dec (haversine p q) eps_rad) as [_|Hn]; [reflexivity|].
    exfalso. apply Hn. rewrite haversine_meridian by assumption.
    rewrite radians_difference. unfold eps_rad.
    apply Qle_Rle in H. apply Rmult_le_compat_r; lra.
Qed.

End Haversine.

(** The labels of the clusterer on a frame with rows, for any symmetric
    and reflexive radius test. *)
Lemma cluster_locations_components (within_eps : Q * Q -> Q * Q -> bool)
  (df : DataFrame) :
  (forall p q, within_eps p q = within_eps q p) ->
  (forall p, within_eps p p = true) ->
  has_column df "latitude" && has_column df "longitude" = true ->
  rows df <> [] ->
  exists df',
    cluster_locations within_eps df = Some df'
    /\ map coords (rows df') = map coords (rows df)
    /\ (forall i p,
          nth_error (map coords (rows df)) i = Some p ->
          (label_of (map cluster_id (rows df')) i = NOISE
           <-> ~ exists j q,
                   j <> i
                   /\ nth_error (map coords (rows df)) j = Some q
                   /\ within_eps p q = true))
    /\ (forall i j p q,
          nth_error (map coords (rows df)) i = Some p ->
          nth_error (map coords (rows df)) j = Some q ->
          label_of (map cluster_id (rows df')) i <> NOISE ->
          (label_of (map cluster_id (rows df')) i
           = label_of (map cluster_id (rows df')) j
           <-> same_component within_eps (map coords (rows df)) p q))
    /\ (forall rows2,
          Permutation (rows df) rows2 ->
          exists df2',
            cluster_locations within_eps (mkFrame (columns df) rows2)
            = Some df2'
            /\ forall i j i2 j2 p q,
                 nth_error (map coords (rows df)) i = Some p ->
                 nth_error (map coords (rows df)) j = Some q ->
                 nth_error (map coords rows2) i2 = Some p ->
                 nth_error (map coords rows2) j2 = Some q ->
                 (label_of (map cluster_id (rows df')) i
                  = label_of (map cluster_id (rows df')) j
                  <-> label_of (map cluster_id (rows df2')) i2
                      = label_of (map cluster_id (rows df2')) j2)).
Proof.
  intros Hsym Hrefl Hcols Hrows.
  set (X := map coords (rows df)).
  assert (HX : X <> []).
  { unfold X. destruct (rows df); [congruence | discriminate]. }
  destruct (fit_labels_components within_eps Hsym Hrefl X)
    as [L [HL [Hlen [Hnoise Hsame]]]].
  unfold cluster_locations. rewrite Hcols. cbn [require bind]. fold X.
  rewrite (dbscan_labels_nonempty _ _ HX), HL. cbn [bind].
  eexists. split; [reflexivity|]. cbn [rows].
  assert (Hlen' : List.length L = List.length (rows df))
    by (rewrite Hlen; unfold X; apply length_map).
  destruct (assign_labels_columns (rows df) L Hlen') as [Hids Hcoords].
  rewrite Hids. split; [exact Hcoords|]. split; [|split].
  - intros i p Hi. rewrite (Hnoise i p Hi).
    rewrite <- (neighbour_count_other within_eps Hrefl X i p Hi). lia.
  - intros i j p q Hi Hj Hlab. apply Hsame; try assumption.
    destruct (Nat.lt_ge_cases (neighbour_count within_eps X p) 2) as [H|H];
      [|exact H].
    elim Hlab. now apply (Hnoise i p Hi).
  - intros rows2 HP.
    assert (HX2 : map coords rows2 <> []).
    { destruct rows2; [|discriminate].
      apply Permutation_sym, Permutation_nil in HP. congruence. }
    destruct (fit_labels_permutation within_eps Hsym Hrefl X
                (map coords rows2) (Permutation_map coords HP))
      as [L1 [L2 [HL1 [HL2 Hsame2]]]].
    change (has_column (mkFrame (columns df) rows2))
      with (has_column df).
    rewrite Hcols. cbn [require bind rows].
    rewrite (dbscan_labels_nonempty _ _ HX2), HL2. cbn [bind].
    eexists. split; [reflexivity|]. cbn [rows].
    assert (L1 = L) by congruence. subst L1.
    assert (Hlen2 : List.length L2 = List.length rows2).
    { destruct (fit_labels_components within_eps Hsym Hrefl
                  (map coords rows2)) as [L2' [HL2' [Hl2 _]]].
      assert (L2' = L2) by congruence. subst.
      rewrite Hl2. apply length_map. }
    destruct (assign_labels_columns rows2 L2 Hlen2) as [Hids2 _].
    rewrite Hids2. exact Hsame2.
Qed.

(** The clusters of three points of one meridian in a chain and a far
    point, by the haversine test. *)
Lemma chain_and_far_clusters (rs : list Row) :
  forallb (fun p => forallb (Samples.meridian_or_far p) (map coords rs)
                    && Qle_bool (-90) (fst p) && Qle_bool (fst p) 90)
          (map coords rs) = true ->
  cluster_locations haversine_within (mkFrame Samples.COLUMNS_311 rs)
  = cluster_locations Samples.latitude_within
      (mkFrame Samples.COLUMNS_311 rs).
Proof.
  intros Hall. unfold cluster_locations. cbn [rows].
  rewrite (dbscan_labels_ext haversine_within Samples.latitude_within);
    [reflexivity|].
  rewrite forallb_forall in Hall.
  intros p q Hp Hq.
  pose proof (Hall p Hp) as Hpp. pose proof (Hall q Hq) as Hqq.
  apply andb_true_iff in Hpp as [Hpp Hp90].
  apply andb_true_iff in Hpp as [Hpq Hp90'].
  apply andb_true_iff in Hqq as [Hqq Hq90].
  apply andb_true_iff in Hqq as [_ Hq90'].
  rewrite forallb_forall in Hpq. specialize (Hpq q Hq).
  apply Qle_bool_iff in Hp90, Hp90', Hq90, Hq90'.
  apply haversine_within_latitudes; [now split | now split |].
  unfold Samples.meridian_or_far in Hpq.
  apply orb_true_iff in Hpq as [H | H].
  - left. now apply Qeq_bool_iff.
  - right. apply negb_true_iff in H. apply Qnot_le_lt. intros Hle.
    apply Qle_bool_iff in Hle. congruence.
Qed.

(** C4: the clusterer links two rows exactly when the haversine distance
    of their points, the great-circle distance on the unit sphere, is at
    most 75 / 111000 degrees of arc in radians (75 metres at 111000 metres
    per degree: on a meridian, a difference of latitude of at most that
    many degrees). On a frame with rows it labels them by the components
    of that link graph: a row is unclustered exactly when no other row is
    within the radius of its point, a clustered row shares its cluster id
    exactly with the rows of its maximal connected component, and for
    every permutation of the rows two points are in the same cluster
    exactly when they were before. *)
Theorem cluster_membership_components (df : DataFrame) :
  has_column df "latitude" && has_column df "longitude" = true ->
  rows df <> [] ->
  (forall p q,
     haversine_within p q = true
     <-> (2 * asin (sqrt ((sin ((radians (fst p) - radians (fst q)) / 2))²
                          + cos (radians (fst p)) * cos (radians (fst q))
                            * (sin ((radians (snd p) - radians (snd q))
                                    / 2))²))
          <= Q2R (75 / 111000) * (PI / 180))%R)
  /\ (forall p q,
        in_range (fst p) -> in_range (fst q) -> (snd p == snd q)%Q ->
        (haversine_within p q = true
         <-> (Qabs (fst p - fst q) <= 75 / 111000)%Q))
  /\ exists df',
       cluster_locations haversine_within df = Some df'
       /\ map coords (rows df') = map coords (rows df)
       /\ (forall i p,
             nth_error (map coords (rows df)) i = Some p ->
             (label_of (map cluster_id (rows df')) i = NOISE
              <-> ~ exists j q,
                      j <> i
                      /\ nth_error (map coords (rows df)) j = Some q
                      /\ haversine_within p q = true))
       /\ (forall i j p q,
             nth_error (map coords (rows df)) i = Some p ->
             nth_error (map coords (rows df)) j = Some q ->
             label_of (map cluster_id (rows df')) i <> NOISE ->
             (label_of (map cluster_id (rows df')) i
              = label_of (map cluster_id (rows df')) j
              <-> same_component haversine_within
                    (map coords (rows df)) p q))
       /\ (forall rows2,
             Permutation (rows df) rows2 ->
             exists df2',
               cluster_locations haversine_within
                 (mkFrame (columns df) rows2) = Some df2'
               /\ forall i j i2 j2 p q,
                    nth_error (map coords (rows df)) i = Some p ->
                    nth_error (map coords (rows df)) j = Some q ->
                    nth_error (map coords rows2) i2 = Some p ->
                    nth_error (map coords rows2) j2 = Some q ->
                    (label_of (map cluster_id (rows df')) i
                     = label_of (map cluster_id (rows df')) j
                     <-> label_of (map cluster_id (rows df2')) i2
                         = label_of (map cluster_id (rows df2')) j2)).
Proof.
  intros Hcols Hrows. split; [|split].
  - intros p q. unfold haversine_within.
    change (2 * asin (sqrt _))%R with (haversine p q).
    change (Q2R (75 / 111000) * (PI / 180))%R with eps_rad.
    destruct (Rle_dec (haversine p q) eps_rad) as [H | H];
      split; try discriminate; tauto.
  - intros p q Hp Hq Hlon.
    rewrite (haversine_within_latitudes p q Hp Hq (or_introl Hlon)).
    apply Qle_bool_iff.
  - exact (cluster_locations_components haversine_within df
             haversine_within_sym haversine_within_refl Hcols Hrows).
Qed.

(** The theorem at three points of one meridian, 0.0005 degrees of
    latitude from one to the next, and a point far away: the neighbours
    are linked and the ends of the chain, 0.001 degrees apart, are not;
    the chain is one cluster and the far point is unclustered. *)
Lemma cluster_membership_components_witness :
  exists df',
    cluster_locations haversine_within Samples.chain_and_far = Some df'
    /\ map cluster_id (rows df') = [0; 0; 0; -1]
    /\ haversine_within (39.2800, -76.5700)%Q (39.2805, -76.5700)%Q = true
    /\ haversine_within (39.2800, -76.5700)%Q (39.2810, -76.5700)%Q = false.
Proof.
  assert (Hr : forall x : Q,
             Qle_bool (-90) x && Qle_bool x 90 = true -> in_range x).
  { intros x H. apply andb_true_iff in H as [H1 H2].
    split; now apply Qle_bool_iff. }
  destruct (cluster_membership_components Samples.chain_and_far eq_refl)
    as [_ [Hmeridian [df' [Hrun _]]]]; [discriminate|].
  exists df'. split; [exact Hrun|]. split; [|split].
  - pose proof (chain_and_far_clusters (rows Samples.chain_and_far) eq_refl)
      as E.
    change (mkFrame Samples.COLUMNS_311 (rows Samples.chain_and_far))
      with Samples.chain_and_far in E.
    rewrite E in Hrun. vm_compute in Hrun. injection Hrun as <-.
    reflexivity.
  - apply (proj2 (Hmeridian (39.2800, -76.5700)%Q (39.2805, -76.5700)%Q
                    (Hr 39.2800%Q eq_refl) (Hr 39.2805%Q eq_refl)
                    (Qeq_refl _))).
    vm_compute. discriminate.
  - apply not_true_is_false. intros H.
    apply (proj1 (Hmeridian (39.2800, -76.5700)%Q (39.2810, -76.5700)%Q
                    (Hr 39.2800%Q eq_refl) (Hr 39.2810%Q eq_refl)
                    (Qeq_refl _))) in H.
    vm_compute in H. apply H. reflexivity.
Defined.

(** The chain is one cluster although its ends are not within the radius
    of each other, the far point is unclustered, and another row order
    gives the same clusters. *)
Example chain_and_far_labels :
  option_map (fun d => map cluster_id (rows d))
    (cluster_locations haversine_within Samples.chain_and_far)
  = Some [0; 0; 0; -1]
  /\ option_map (fun d => map cluster_id (rows d))
       (cluster_locations haversine_within Samples.chain_and_far_shuffled)
     = Some [-1; 0; 0; 0].
Proof.
  split.
  - pose proof (chain_and_far_clusters (rows Samples.chain_and_far) eq_refl)
      as E.
    change (mkFrame Samples.COLUMNS_311 (rows Samples.chain_and_far))
      with Samples.chain_and_far in E.
    rewrite E. vm_compute. reflexivity.
  - pose proof (chain_and_far_clusters
                  (rows Samples.chain_and_far_shuffled) eq_refl) as E.
    change (mkFrame Samples.COLUMNS_311
              (rows Samples.chain_and_far_shuffled))
      with Samples.chain_and_far_shuffled in E.
    rewrite E. vm_compute. reflexivity.
Qed.

End DbscanFacts.

(** * Further properties *)

(** ** Re-report Detector: order, errors and the failed-fix count *)

Module RereportMore.
Import PyStr Frame Rereport Hotspots SortFacts RereportFacts HotspotFacts.
Local Open Scope list_scope.

(** *** The history *)






(** On a group whose timestamps lie between 1970 and 2116, where no
    difference of two overflows, the history raises exactly when the
    frame has no creation-time column or some status cell is NaN. *)
Theorem build_report_history_raises_iff (g : DataFrame) :
  timestamps_in_era g = true ->
  build_report_history g = None
  <-> has_column g "createddate" = false
      \/ existsb (fun r => negb (notna (status_cell g r))) (rows g) = true.
Proof.
  intros _. split.
  - intros H. destruct (has_column g "createddate") eqn:Hcol; [|now left].
    right.
    destruct (existsb (fun r => negb (notna (status_cell g r))) (rows g))
      eqn:E; [reflexivity|].
    exfalso.
    assert (Hall : forallb (fun r => notna (status_cell g r)) (rows g) = true).
    { apply forallb_forall. intros r Hr.
      destruct (notna (status_cell g r)) eqn:En; [reflexivity|].
      assert (existsb (fun r => negb (notna (status_cell g r))) (rows g)
              = true); [|congruence].
      apply existsb_exists. exists r. now rewrite En. }
    destruct (build_report_history_returns g Hcol Hall) as [h Hh].
    congruence.
  - intros [Hcol | Hbad]; unfold build_report_history.
    + now rewrite Hcol.
    + destruct (has_column g "createddate"); [|reflexivity]. simpl.
      apply existsb_exists in Hbad as [r [Hr Hn]].
      apply (Permutation_in _ (sort_values_createddate_perm (rows g))) in Hr.
      apply in_split in Hr as [before [after ->]].
      apply report_walk_raises.
      destruct (status_cell g r); [discriminate Hn | reflexivity].
Qed.

(** The theorem at three reports whose status cells are NaN, and at the
    same reports without the creation-time column. *)
Lemma build_report_history_raises_iff_witness :
  build_report_history Samples.three_without_status = None
  /\ build_report_history
       (mkFrame ["srstatus"] (rows Samples.closure_then_reports)) = None
  /\ build_report_history Samples.closure_then_reports <> None.
Proof.
  split; [|split].
  - apply (build_report_history_raises_iff Samples.three_without_status
             eq_refl).
    right. reflexivity.
  - apply (build_report_history_raises_iff
             (mkFrame ["srstatus"] (rows Samples.closure_then_reports))
             eq_refl).
    left. reflexivity.
  - intros H.
    apply (build_report_history_raises_iff Samples.closure_then_reports
             eq_refl) in H.
    destruct H as [H | H]; discriminate H.
Defined.

Lemma report_walk_unflagged (g : DataFrame) (rs : list Row) :
  forall h : list HistoryEntry,
    Forall (fun r => closure_of g r = None) rs ->
    report_walk g None rs = Some h ->
    Forall (fun e => is_rereport e = false) h.
Proof.
  induction rs as [|r rs IH]; simpl; intros h Hnone H.
  - injection H as <-. constructor.
  - inversion Hnone as [|? ? Hr Hrs]; subst.
    unfold closure_of, status_cell, status_date_cell in Hr.
    destruct (or_empty (get_str g "srstatus" (srstatus r))) as [st|];
      [|discriminate].
    destruct (closes st (get_cell g "statusdate" (statusdate r))) eqn:Ecl.
    + apply closes_present in Ecl as [t Ht]. rewrite Ht in Hr. discriminate.
    + destruct (report_walk g None rs) as [h'|] eqn:E; [|discriminate].
      injection H as <-. constructor; [reflexivity | now apply IH].
Qed.

Lemma filter_none {A : Type} (f : A -> bool) (l : list A) :
  (forall x, In x l -> f x = false) -> filter f l = [].
Proof.
  induction l as [|a t IH]; simpl; intros H; [reflexivity|].
  rewrite (H a (or_introl eq_refl)). apply IH. intros x Hx. apply H.
  now right.
Qed.

Lemma contains_closed : contains "closed" (lower "Closed") = true.
Proof. reflexivity. Qed.

Lemma followed_closure_records (g : DataFrame) (r : Row) :
  has_column g "srstatus" = true -> has_column g "statusdate" = true ->
  followed_closure g r = true -> closure_of g r <> None.
Proof.
  intros H1 H2 H. unfold followed_closure in H.
  apply andb_true_iff in H as [Hc Hs]. unfold is_closed in Hc.
  unfold closure_of, status_cell, status_date_cell, get_str, get_cell.
  rewrite H1, H2.
  destruct (srstatus r) as [st|]; [|discriminate].
  apply String.eqb_eq in Hc. subst st. cbn [or_empty truthy].
  destruct (statusdate r) as [t|]; [|discriminate].
  unfold closes. rewrite contains_closed. discriminate.
Qed.

(** A group none of whose rows records a closure has no flagged entry and
    no possible failed fix. *)
Theorem no_closure_no_rereport (g : DataFrame) :
  readable g = true ->
  forallb (fun r => negb (notna (closure_of g r))) (rows g) = true ->
  exists h,
    build_report_history g = Some h
    /\ count_rereports h = 0%nat
    /\ detect_failed_fixes g = Some 0%nat.
Proof.
  intros Hr Hnone.
  destruct (readable_columns g Hr) as [_ [C2 [_ [_ [C5 [C6 C7]]]]]].
  destruct (build_report_history_returns g C2 C7) as [h Hh].
  exists h. split; [exact Hh|].
  assert (Hall : forall r, In r (rows g) -> closure_of g r = None).
  { intros r Hin. rewrite forallb_forall in Hnone.
    specialize (Hnone r Hin). now destruct (closure_of g r). }
  split.
  - unfold build_report_history in Hh. rewrite C2 in Hh. simpl in Hh.
    assert (HF : Forall (fun e => is_rereport e = false) h).
    { eapply report_walk_unflagged; [|exact Hh].
      apply Forall_forall. intros r Hin. apply Hall.
      eapply Permutation_in;
        [apply Permutation_sym, sort_values_createddate_perm | exact Hin]. }
    unfold count_rereports. clear - HF.
    induction HF as [|e t He _ IH]; simpl; [reflexivity|].
    now rewrite He.
  - rewrite (detect_failed_fixes_count g C5 C2 C6). f_equal.
    unfold followed_closures.
    rewrite filter_none; [reflexivity|]. intros r Hin.
    destruct (followed_closure g r) eqn:E; [|reflexivity].
    exfalso. apply (followed_closure_records g r C5 C6 E). now apply Hall.
Qed.

(** The theorem at four open reports. *)
Lemma no_closure_no_rereport_witness :
  exists h,
    build_report_history Samples.four_over_90 = Some h
    /\ count_rereports h = 0%nat
    /\ detect_failed_fixes Samples.four_over_90 = Some 0%nat.
Proof.
  exact (no_closure_no_rereport Samples.four_over_90 eq_refl eq_refl).
Defined.

(** *** The failed-fix count *)

Lemma failed_fix_walk_no_statusdate (g : DataFrame) (sorted : list Row) :
  has_column g "statusdate" = false ->
  forall (todo : list Row) (n : nat),
    failed_fix_walk g sorted todo n
    = if existsb is_closed todo then None else Some n.
Proof.
  intros Hcol. induction todo as [|r rest IH]; intros n; simpl.
  - reflexivity.
  - destruct (is_closed r); simpl; [|apply IH]. now rewrite Hcol.
Qed.

(** The value of [detect_failed_fixes] on every frame. *)
Lemma detect_failed_fixes_cases (g : DataFrame) :
  detect_failed_fixes g
  = if negb (has_column g "srstatus") || negb (has_column g "createddate")
    then Some 0%nat
    else if has_column g "statusdate" then Some (followed_closures g)
    else if existsb is_closed (rows g) then None else Some 0%nat.
Proof.
  destruct (has_column g "srstatus") eqn:H1;
    [|unfold detect_failed_fixes; now rewrite H1].
  destruct (has_column g "createddate") eqn:H2;
    [|unfold detect_failed_fixes; now rewrite H1, H2].
  destruct (has_column g "statusdate") eqn:H3; cbn [negb orb].
  - now apply detect_failed_fixes_count.
  - unfold detect_failed_fixes. rewrite H1, H2. cbn [negb orb].
    rewrite (failed_fix_walk_no_statusdate g _ H3).
    now rewrite <- (existsb_perm is_closed _ _
                     (sort_values_createddate_perm (rows g))).
Qed.

(** On a group whose timestamps lie between 1970 and 2116, where no
    closure timestamp shifted by the window overflows, counting failed
    fixes raises exactly when the frame has the status and creation-time
    columns, lacks the status-time column, and some report is closed. *)
Theorem detect_failed_fixes_raises_iff (g : DataFrame) :
  timestamps_in_era g = true ->
  detect_failed_fixes g = None
  <-> has_column g "srstatus" = true
      /\ has_column g "createddate" = true
      /\ has_column g "statusdate" = false
      /\ existsb is_closed (rows g) = true.
Proof.
  intros _. rewrite detect_failed_fixes_cases.
  destruct (has_column g "srstatus"), (has_column g "createddate"),
    (has_column g "statusdate"), (existsb is_closed (rows g));
    cbn [negb orb]; split; intros H;
    try discriminate H; try (now repeat split);
    decompose [and] H; discriminate.
Qed.

(** The theorem at the five-report sample, one of them closed, without
    its status-time column, and at the sample as it is. *)
Lemma detect_failed_fixes_raises_iff_witness :
  detect_failed_fixes
    (mkFrame ["srstatus"; "createddate"] (rows Samples.five_reports)) = None
  /\ detect_failed_fixes Samples.five_reports <> None.
Proof.
  split.
  - apply (detect_failed_fixes_raises_iff
             (mkFrame ["srstatus"; "createddate"]
                (rows Samples.five_reports)) eq_refl).
    repeat split.
  - intros H.
    apply (detect_failed_fixes_raises_iff Samples.five_reports eq_refl)
      in H.
    destruct H as [_ [_ [H _]]]. discriminate H.
Defined.

Lemma filter_length_mono {A : Type} (f g : A -> bool) (l : list A) :
  (forall x, f x = true -> g x = true) ->
  (List.length (filter f l) <= List.length (filter g l))%nat.
Proof.
  intros H. induction l as [|a t IH]; simpl; [lia|].
  destruct (f a) eqn:Ef.
  - rewrite (H a Ef). simpl. lia.
  - destruct (g a); simpl; lia.
Qed.

(** The count never exceeds the number of closed reports that have a
    status timestamp. *)
Theorem detect_failed_fixes_bound (g : DataFrame) (n : nat) :
  detect_failed_fixes g = Some n ->
  (n <= List.length
          (filter (fun r => is_closed r && notna (statusdate r)) (rows g))
   <= List.length (rows g))%nat.
Proof.
  intros H. split; [|apply List.filter_length_le].
  rewrite detect_failed_fixes_cases in H.
  destruct (negb (has_column g "srstatus")
            || negb (has_column g "createddate"));
    [injection H as <-; lia|].
  destruct (has_column g "statusdate").
  - injection H as <-. unfold followed_closures.
    apply filter_length_mono. intros r Hr. unfold followed_closure in Hr.
    apply andb_true_iff in Hr as [Hc Hs]. rewrite Hc.
    now destruct (statusdate r).
  - destruct (existsb is_closed (rows g)); [discriminate H|].
    injection H as <-. lia.
Qed.

(** The theorem at the five-report sample. *)
Lemma detect_failed_fixes_bound_witness :
  (1 <= List.length
          (filter (fun r => is_closed r && notna (statusdate r))
                  (rows Samples.five_reports))
   <= List.length (rows Samples.five_reports))%nat.
Proof.
  exact (detect_failed_fixes_bound Samples.five_reports 1 eq_refl).
Defined.

Lemma followed_closures_perm (cols : list string) (rs rs' : list Row) :
  Permutation rs rs' ->
  followed_closures (mkFrame cols rs) = followed_closures (mkFrame cols rs').
Proof.
  intros HP. unfold followed_closures. cbn [rows].
  rewrite (filter_length_perm _ _ _ HP). f_equal.
  apply filter_ext. intros r. unfold followed_closure. cbn [rows].
  destruct (is_closed r); [|reflexivity]. cbn [andb].
  destruct (statusdate r); [|reflexivity]. now apply existsb_perm.
Qed.

(** The count does not depend on the order of the rows. *)
Theorem detect_failed_fixes_permutation (cols : list string)
  (rs rs' : list Row) :
  Permutation rs rs' ->
  detect_failed_fixes (mkFrame cols rs) = detect_failed_fixes (mkFrame cols rs').
Proof.
  intros HP. rewrite !detect_failed_fixes_cases.
  change (has_column (mkFrame cols rs')) with (has_column (mkFrame cols rs)).
  cbn [rows].
  rewrite (followed_closures_perm cols rs rs' HP).
  now rewrite (existsb_perm is_closed rs rs' HP).
Qed.

(** The theorem at the five-report sample and its reversal. *)
Lemma detect_failed_fixes_permutation_witness :
  detect_failed_fixes Samples.five_reports
  = detect_failed_fixes
      (mkFrame (columns Samples.five_reports)
               (rev (rows Samples.five_reports))).
Proof.
  exact (detect_failed_fixes_permutation (columns Samples.five_reports)
           (rows Samples.five_reports) (rev (rows Samples.five_reports))
           (Permutation_rev _)).
Defined.

End RereportMore.

(** ** Hotspot Builder: what every hotspot satisfies *)

Module HotspotMore.
Import PyStr Frame Rereport Hotspots SortFacts RereportFacts HotspotFacts.
Import RereportMore.
Local Open Scope list_scope.

Lemma series_min_le_max (l : list (option Z)) (a b : Z) :
  series_min l = Some a -> series_max l = Some b -> a <= b.
Proof.
  revert a b. induction l as [|[x|] t IH]; simpl; intros a b Ha Hb.
  - discriminate.
  - destruct (series_min t) as [m|] eqn:Em;
      destruct (series_max t) as [M|] eqn:EM;
      injection Ha as <-; injection Hb as <-.
    + specialize (IH m M eq_refl eq_refl). lia.
    + exfalso. clear IH. revert m Em.
      induction t as [|[y|] t IHt]; simpl in *; intros m Em;
        try discriminate.
      * destruct (series_max t); discriminate.
      * now apply (IHt EM m).
    + exfalso. clear IH. revert M EM.
      induction t as [|[y|] t IHt]; simpl in *; intros M EM;
        try discriminate.
      * destruct (series_min t); discriminate.
      * now apply (IHt Em M).
    + lia.
  - now apply IH.
Qed.

(** What a built hotspot records, whatever the frame. *)
Lemma build_hotspot_shape (k : Z) (g : DataFrame) (h : Hotspot) :
  build_hotspot k g = Some (Some h) ->
  hs_cluster_id h = k
  /\ report_count h = List.length (rows g)
  /\ first_report h = series_min (map createddate (rows g))
  /\ last_report h = series_max (map createddate (rows g))
  /\ span_days h = span_between (first_report h) (last_report h)
  /\ below_thresholds (report_count h) (span_days h) = false
  /\ detect_failed_fixes g = Some (possible_failed_fixes h)
  /\ build_report_history g = Some (history h).
Proof.
  unfold build_hotspot.
  destruct (has_column g "createddate"); [|discriminate]. cbn [require bind].
  destruct (below_thresholds _ _) eqn:Eb; [discriminate|].
  destruct (has_column g "latitude" && has_column g "longitude");
    [|discriminate]. cbn [require bind].
  destruct (has_column g "srstatus"); [|discriminate]. cbn [require bind].
  destruct (detect_failed_fixes g) as [n|]; [|discriminate]. cbn [bind].
  destruct (build_report_history g) as [hist|]; [|discriminate]. cbn [bind].
  intros H. injection H as <-. cbn. now repeat split.
Qed.

Lemma hotspot_of_frame (df : DataFrame) (hs : list Hotspot) (h : Hotspot) :
  identify_chronic_hotspots df = Some hs -> In h hs ->
  0 <= hs_cluster_id h
  /\ build_hotspot (hs_cluster_id h) (cluster_frame df (hs_cluster_id h))
     = Some (Some h).
Proof.
  intros Hhs Hin.
  apply (identify_chronic_hotspots_members df hs Hhs) in Hin
    as [k [Hk [_ Hb]]].
  destruct (build_hotspot_shape k _ h Hb) as [Hid _]. now rewrite Hid.
Qed.

Lemma hotspot_facts (df : DataFrame) (hs : list Hotspot) (h : Hotspot) :
  identify_chronic_hotspots df = Some hs -> In h hs ->
  0 <= hs_cluster_id h
  /\ (4 <= report_count h)%nat
  /\ List.length (history h) = report_count h
  /\ (possible_failed_fixes h <= report_count h)%nat
  /\ (forall d, span_days h = Some d -> 90 <= d)
  /\ (forall a b, first_report h = Some a -> last_report h = Some b ->
                  a <= b).
Proof.
  intros Hhs Hin.
  destruct (hotspot_of_frame df hs h Hhs Hin) as [Hk Hb].
  destruct (build_hotspot_shape _ _ h Hb)
    as [_ [Hn [Hf [Hl [Hs [Hbelow [Hd Hh]]]]]]].
  split; [exact Hk|].
  unfold below_thresholds in Hbelow. apply orb_false_iff in Hbelow
    as [Hcount Hspan]. apply Nat.ltb_ge in Hcount.
  split; [exact Hcount|]. split; [|split; [|split]].
  - unfold build_report_history in Hh.
    destruct (has_column _ "createddate"); [|discriminate]. simpl in Hh.
    rewrite (report_walk_length _ _ _ _ Hh), Hn.
    symmetry. apply Permutation_length, sort_values_createddate_perm.
  - rewrite Hn. rewrite detect_failed_fixes_cases in Hd.
    pose proof (List.filter_length_le
                  (followed_closure (cluster_frame df (hs_cluster_id h)))
                  (rows (cluster_frame df (hs_cluster_id h)))) as Hle.
    fold (followed_closures (cluster_frame df (hs_cluster_id h))) in Hle.
    destruct (negb _ || negb _); [injection Hd as <-; lia|].
    destruct (has_column _ "statusdate"); [injection Hd as <-; exact Hle|].
    destruct (existsb is_closed _); [discriminate Hd|].
    injection Hd as <-. lia.
  - intros d Hd'. rewrite Hd' in Hspan. apply Z.ltb_ge in Hspan. exact Hspan.
  - intros a b Ha Hb'. rewrite Hf in Ha. rewrite Hl in Hb'.
    eapply series_min_le_max; eassumption.
Qed.



(** *** One hotspot per cluster *)

Lemma insert_key_sorted (k : Z) (ks : list Z) :
  StronglySorted Z.lt ks -> StronglySorted Z.lt (insert_key k ks).
Proof.
  induction 1 as [|x t Ht IH Hx]; simpl.
  - repeat constructor.
  - destruct (Z.ltb_spec k x) as [Hlt|Hge].
    + constructor; [now constructor|]. constructor; [exact Hlt|].
      eapply Forall_impl; [|exact Hx]. intros y Hy. lia.
    + destruct (Z.eqb_spec k x) as [->|Hne]; [now constructor|].
      constructor; [exact IH|].
      apply Forall_forall. intros y Hy. apply insert_key_in in Hy as [->|Hy].
      * lia.
      * rewrite Forall_forall in Hx. now apply Hx.
Qed.

Lemma group_keys_NoDup (rs : list Row) : NoDup (group_keys rs).
Proof.
  assert (H : StronglySorted Z.lt (group_keys rs)).
  { induction rs as [|r t IH]; simpl; [constructor|].
    now apply insert_key_sorted. }
  induction H as [|x t _ IH Hx]; constructor; [|exact IH].
  intros Hin. rewrite Forall_forall in Hx. specialize (Hx x Hin). lia.
Qed.

Lemma disjoint_groups_le (rs : list Row) (ks : list Z) :
  NoDup ks ->
  (list_sum
     (map (fun k => List.length (filter (fun r => (cluster_id r =? k)%Z) rs)) ks)
   <= List.length rs)%nat.
Proof.
  intros Hnd. induction rs as [|r t IH]; simpl.
  - induction ks as [|k ks' IHk]; simpl; [lia|].
    inversion Hnd; subst. now apply IHk.
  - assert (Hstep :
      (list_sum (map (fun k => List.length
                                 (if (cluster_id r =? k)%Z
                                  then r :: filter (fun r => (cluster_id r =? k)%Z) t
                                  else filter (fun r => (cluster_id r =? k)%Z) t))
                     ks)
       <= S (list_sum
               (map (fun k => List.length
                                (filter (fun r => (cluster_id r =? k)%Z) t)) ks)))%nat).
    { clear IH. induction ks as [|k ks' IHk]; simpl; [lia|].
      inversion Hnd as [|? ? Hnin Hnd']; subst.
      destruct (Z.eqb_spec (cluster_id r) k) as [Heq | Hne]; simpl.
      - assert (Hrest :
          map (fun k0 => List.length
                           (if (cluster_id r =? k0)%Z
                            then r :: filter (fun r => (cluster_id r =? k0)%Z) t
                            else filter (fun r => (cluster_id r =? k0)%Z) t)) ks'
          = map (fun k0 => List.length
                             (filter (fun r => (cluster_id r =? k0)%Z) t)) ks').
        { apply map_ext_in. intros k0 Hk0.
          destruct (Z.eqb_spec (cluster_id r) k0); [|reflexivity].
          exfalso. apply Hnin. congruence. }
        rewrite Hrest. lia.
      - specialize (IHk Hnd'). lia. }
    lia.
Qed.

Lemma hotspot_loop_ids (groups : list (Z * DataFrame)) :
  forall hs,
    hotspot_loop groups = Some hs ->
    NoDup (map fst groups) ->
    NoDup (map hs_cluster_id hs)
    /\ (forall h, In h hs -> In (hs_cluster_id h) (map fst groups))
    /\ (list_sum (map report_count hs)
        <= list_sum (map (fun kg => List.length (rows (snd kg))) groups))%nat.
Proof.
  induction groups as [|[k g] rest IH]; simpl; intros hs H Hnd.
  - injection H as <-. simpl. repeat split; [constructor | tauto | lia].
  - inversion Hnd as [|? ? Hnin Hnd']; subst.
    destruct (build_hotspot k g) as [o|] eqn:Eb; [|discriminate].
    cbn [bind] in H.
    destruct (hotspot_loop rest) as [hs'|]; [|discriminate].
    cbn [bind] in H. injection H as <-.
    destruct (IH hs' eq_refl Hnd') as [N1 [N2 N3]].
    destruct o as [h|]; simpl.
    + destruct (build_hotspot_shape k g h Eb) as [Hid [Hn _]].
      split; [|split].
      * constructor; [|exact N1]. intros Hin.
        apply in_map_iff in Hin as [h' [Hh' Hin]].
        apply Hnin. rewrite <- Hid, <- Hh'. now apply N2.
      * intros h' [<- | Hin]; [now left | right; now apply N2].
      * rewrite Hn. lia.
    + split; [exact N1|]. split; [intros h' Hin; right; now apply N2 | lia].
Qed.

Lemma four_each (l : list Hotspot) :
  (forall h, In h l -> (4 <= report_count h)%nat) ->
  (4 * List.length l <= list_sum (map report_count l))%nat.
Proof.
  induction l as [|h t IH]; simpl; intros Hge; [lia|].
  pose proof (Hge h (or_introl eq_refl)).
  assert (4 * List.length t <= list_sum (map report_count t))%nat
    by (apply IH; intros h' Hh'; apply Hge; now right).
  lia.
Qed.

Lemma hotspot_counts (df : DataFrame) (hs : list Hotspot) :
  identify_chronic_hotspots df = Some hs ->
  NoDup (map hs_cluster_id hs)
  /\ (list_sum (map report_count hs)
      <= List.length (filter (fun r => (0 <=? cluster_id r)%Z) (rows df)))%nat
  /\ (4 * List.length hs <= List.length (rows df))%nat.
Proof.
  intros Hhs.
  pose proof Hhs as Hall.
  rewrite identify_chronic_hotspots_eq in Hhs.
  destruct (require (has_column df "cluster_id")); [|discriminate].
  cbn [bind] in Hhs.
  destruct (hotspot_loop _) as [hs0|] eqn:El; [|discriminate].
  cbn [bind] in Hhs. injection Hhs as <-.
  set (clustered := filter (fun r => (0 <=? cluster_id r)%Z) (rows df)) in *.
  destruct (hotspot_loop_ids _ hs0 El) as [N1 [_ N3]].
  { unfold groupby_cluster_id. rewrite map_map. cbn [fst rows].
    rewrite map_id. apply group_keys_NoDup. }
  pose proof (sort_values_severity_perm hs0) as HP.
  assert (Hsum : (list_sum (map report_count (sort_values_severity hs0))
                  <= List.length clustered)%nat).
  { rewrite <- (Permutation_map report_count HP).
    etransitivity; [exact N3|].
    unfold groupby_cluster_id. rewrite map_map. cbn [snd rows].
    apply disjoint_groups_le, group_keys_NoDup. }
  split; [|split; [exact Hsum|]].
  - eapply Permutation_NoDup; [apply Permutation_map, HP | exact N1].
  - assert (Hfour : (4 * List.length (sort_values_severity hs0)
                     <= list_sum (map report_count
                                    (sort_values_severity hs0)))%nat).
    { assert (Hge : forall h, In h (sort_values_severity hs0) ->
                              (4 <= report_count h)%nat).
      { intros h Hin.
        destruct (hotspot_of_frame df _ h Hall Hin) as [_ Hb].
        destruct (build_hotspot_shape _ _ h Hb)
          as [_ [_ [_ [_ [_ [Hbelow _]]]]]].
        unfold below_thresholds in Hbelow.
        apply orb_false_iff in Hbelow as [Hc _]. now apply Nat.ltb_ge in Hc. }
      now apply four_each. }
    pose proof (List.filter_length_le (fun r => (0 <=? cluster_id r)%Z) (rows df)).
    fold clustered in H. lia.
Qed.



(** *** Frames without a qualifying cluster *)




End HotspotMore.

(** ** Severity score: bounds *)

Module SeverityMore.
Import Frame Rereport Hotspots HotspotFacts SeverityFacts.
Local Open Scope list_scope.
Local Open Scope R_scope.




(** A span of at most 30 days earns nothing: the score is the report
    count. *)
Lemma severity_short_span (n : nat) (d : Z) :
  (d <= 30)%Z -> severity n (Some d) = Some (INR n).
Proof.
  intros Hd. unfold severity. f_equal.
  assert (Hm : Rmax (IZR d / 30) 1 = 1).
  { apply Rmax_right. apply IZR_le in Hd. lra. }
  rewrite Hm, ln_1.
  replace (INR n * (1 + 0)) with (IZR (Z.of_nat n * 10) / 10)
    by (rewrite mult_IZR, <- INR_IZR_INZ; lra).
  rewrite round1_tenths, mult_IZR, <- INR_IZR_INZ. lra.
Qed.



End SeverityMore.

(** ** Group keys in name order *)

Module NameOrderFacts.
Import Neighborhoods.
Local Open Scope list_scope.

Lemma ascii_compare_refl (a : ascii) : Ascii.compare a a = Eq.
Proof. unfold Ascii.compare. apply N.compare_refl. Qed.

Lemma ascii_compare_lt_trans (a b c : ascii) :
  Ascii.compare a b = Lt -> Ascii.compare b c = Lt -> Ascii.compare a c = Lt.
Proof.
  unfold Ascii.compare. rewrite !N.compare_lt_iff. apply N.lt_trans.
Qed.

Lemma compare_lt_trans (s1 : string) :
  forall s2 s3,
    String.compare s1 s2 = Lt -> String.compare s2 s3 = Lt ->
    String.compare s1 s3 = Lt.
Proof.
  induction s1 as [|a s1 IH]; intros [|b s2] [|c s3]; simpl;
    try discriminate; try reflexivity.
  destruct (Ascii.compare a b) eqn:E1; try discriminate;
    destruct (Ascii.compare b c) eqn:E2; try discriminate; intros H1 H2.
  - apply Ascii.compare_eq_iff in E1, E2. subst.
    rewrite ascii_compare_refl. eapply IH; eassumption.
  - apply Ascii.compare_eq_iff in E1. subst. now rewrite E2.
  - apply Ascii.compare_eq_iff in E2. subst. now rewrite E1.
  - now rewrite (ascii_compare_lt_trans a b c E1 E2).
Qed.

Lemma compare_refl (s : string) : String.compare s s = Eq.
Proof.
  induction s as [|a s IH]; simpl; [reflexivity|].
  now rewrite ascii_compare_refl.
Qed.

Lemma ltb_trans (a b c : string) :
  String.ltb a b = true -> String.ltb b c = true -> String.ltb a c = true.
Proof.
  unfold String.ltb. intros H1 H2.
  destruct (String.compare a b) eqn:E1; try discriminate.
  destruct (String.compare b c) eqn:E2; try discriminate.
  now rewrite (compare_lt_trans a b c E1 E2).
Qed.

Lemma ltb_irrefl (a : string) : String.ltb a a = false.
Proof. unfold String.ltb. now rewrite compare_refl. Qed.

Lemma ltb_flip (a b : string) :
  String.ltb a b = false -> a <> b -> String.ltb b a = true.
Proof.
  unfold String.ltb. intros H Hne. rewrite String.compare_antisym.
  destruct (String.compare a b) eqn:E; simpl; try reflexivity.
  - apply String.compare_eq_iff in E. contradiction.
  - discriminate H.
Qed.

Lemma insert_name_in (k x : string) (ks : list string) :
  In k (insert_name x ks) <-> k = x \/ In k ks.
Proof.
  induction ks as [|y t IH]; simpl.
  - intuition.
  - destruct (String.ltb x y); [simpl; intuition|].
    destruct (String.eqb_spec x y); simpl.
    + subst. intuition.
    + rewrite IH. intuition.
Qed.

Lemma insert_name_sorted (k : string) (ks : list string) :
  StronglySorted (fun a b => String.ltb a b = true) ks ->
  StronglySorted (fun a b => String.ltb a b = true) (insert_name k ks).
Proof.
  induction 1 as [|x t Ht IH Hx]; simpl.
  - repeat constructor.
  - destruct (String.ltb k x) eqn:Hlt.
    + constructor; [now constructor|]. constructor; [exact Hlt|].
      eapply Forall_impl; [|exact Hx]. intros y Hy.
      eapply ltb_trans; eassumption.
    + destruct (String.eqb_spec k x) as [->|Hne]; [now constructor|].
      constructor; [exact IH|].
      apply Forall_forall. intros y Hy.
      apply insert_name_in in Hy as [->|Hy].
      * now apply ltb_flip.
      * rewrite Forall_forall in Hx. now apply Hx.
Qed.

(** The keys a name-ordered [groupby] visits are in strictly ascending
    order, so no key comes twice. *)
Lemma names_sorted (l : list string) :
  StronglySorted (fun a b => String.ltb a b = true)
    (fold_right insert_name [] l).
Proof.
  induction l as [|x t IH]; simpl; [constructor|].
  now apply insert_name_sorted.
Qed.

Lemma sorted_names_NoDup (l : list string) :
  StronglySorted (fun a b => String.ltb a b = true) l -> NoDup l.
Proof.
  induction 1 as [|x t _ IH Hx]; constructor; [|exact IH].
  intros Hin. rewrite Forall_forall in Hx. specialize (Hx x Hin).
  rewrite ltb_irrefl in Hx. discriminate.
Qed.

Lemma names_in (l : list string) (k : string) :
  In k (fold_right insert_name [] l) <-> In k l.
Proof.
  induction l as [|x t IH]; simpl; [tauto|].
  rewrite insert_name_in, IH. intuition.
Qed.

End NameOrderFacts.

(** ** Decimal rounding keeps integer bounds *)

Module RoundingFacts.
Import Tables.

Lemma round_half_even_between (x : Q) :
  (Qfloor x <= round_half_even x <= Qfloor x + 1)%Z.
Proof.
  unfold round_half_even.
  destruct (x - inject_Z (Qfloor x) ?= 1 # 2)%Q; [|lia|lia].
  destruct (Z.even (Qfloor x)); lia.
Qed.

Lemma round_half_even_ge (x : Q) (z : Z) :
  (inject_Z z <= x)%Q -> (z <= round_half_even x)%Z.
Proof.
  intros H. pose proof (round_half_even_between x) as [Hlo _].
  pose proof (Qfloor_resp_le _ _ H) as Hz. rewrite Qfloor_Z in Hz. lia.
Qed.

Lemma round_half_even_le (x : Q) (z : Z) :
  (x <= inject_Z z)%Q -> (round_half_even x <= z)%Z.
Proof.
  intros H. pose proof (Qfloor_le x) as Hf.
  assert (Hfz : (Qfloor x <= z)%Z).
  { pose proof (Qfloor_resp_le _ _ H) as Hz. now rewrite Qfloor_Z in Hz. }
  assert (Hup : (inject_Z (Qfloor x) < x)%Q -> (Qfloor x + 1 <= z)%Z).
  { intros Hlt. assert (Hq : (inject_Z (Qfloor x) < inject_Z z)%Q)
      by (eapply Qlt_le_trans; eassumption).
    rewrite <- Zlt_Qlt in Hq. lia. }
  unfold round_half_even.
  destruct (x - inject_Z (Qfloor x) ?= 1 # 2)%Q eqn:E.
  - destruct (Z.even (Qfloor x)); [exact Hfz|].
    apply Hup. apply Qeq_alt in E. Lqa.lra.
  - exact Hfz.
  - apply Hup. apply Qgt_alt in E. Lqa.lra.
Qed.

Lemma scale_positive (ndigits : nat) :
  (0 < inject_Z (10 ^ Z.of_nat ndigits))%Q.
Proof.
  change 0%Q with (inject_Z 0). rewrite <- Zlt_Qlt.
  apply Z.pow_pos_nonneg; lia.
Qed.

(** Rounding to decimals never crosses an integer: a value between two
    integers stays between them. *)
Lemma round_nd_between (ndigits : nat) (x : Q) (a b : Z) :
  (inject_Z a <= x)%Q -> (x <= inject_Z b)%Q ->
  (inject_Z a <= round_nd ndigits x)%Q /\ (round_nd ndigits x <= inject_Z b)%Q.
Proof.
  intros Ha Hb. unfold round_nd.
  pose proof (scale_positive ndigits) as Hs.
  set (scale := inject_Z (10 ^ Z.of_nat ndigits)) in *.
  split.
  - apply Qle_shift_div_l; [exact Hs|].
    unfold scale at 1. rewrite <- inject_Z_mult, <- Zle_Qle.
    apply round_half_even_ge. rewrite inject_Z_mult. fold scale.
    apply Qmult_le_compat_r; [exact Ha | now apply Qlt_le_weak].
  - apply Qle_shift_div_r; [exact Hs|].
    unfold scale at 2. rewrite <- inject_Z_mult, <- Zle_Qle.
    apply round_half_even_le. rewrite inject_Z_mult. fold scale.
    apply Qmult_le_compat_r; [exact Hb | now apply Qlt_le_weak].
Qed.

Lemma round_half_even_monotone (x y : Q) :
  (x <= y)%Q -> (round_half_even x <= round_half_even y)%Z.
Proof.
  intros Hxy. pose proof (Qfloor_resp_le x y Hxy) as Hf.
  pose proof (round_half_even_between x) as Hx.
  pose proof (round_half_even_between y) as Hy.
  destruct (Z.eq_dec (Qfloor x) (Qfloor y)) as [E | NE]; [|lia].
  clear Hx Hy Hf. unfold round_half_even. rewrite <- E.
  destruct (Qcompare_spec (x - inject_Z (Qfloor x)) (1 # 2)) as [Hx|Hx|Hx];
    destruct (Qcompare_spec (y - inject_Z (Qfloor x)) (1 # 2)) as [Hy|Hy|Hy];
    try (destruct (Z.even (Qfloor x))); try lia;
    exfalso; Lqa.lra.
Qed.

(** *** Rounding to a binary64 float *)

Lemma pow2_pos (k : Z) : (0 < 2 ^ k)%Q.
Proof. apply Qpower_0_lt. reflexivity. Qed.

Lemma pow2_succ (k : Z) : (2 ^ (k + 1) == 2 * 2 ^ k)%Q.
Proof. rewrite Qpower_plus by discriminate. rewrite Qmult_comm. reflexivity. Qed.

Lemma pow2_Z (k : Z) : (0 <= k)%Z -> (2 ^ k == inject_Z (2 ^ k))%Q.
Proof. intros H. symmetry. exact (Zpower_Qpower 2 k H). Qed.

Lemma pow2_le (a b : Z) : (a <= b)%Z -> (2 ^ a <= 2 ^ b)%Q.
Proof.
  intros H. replace b with (a + (b - a))%Z by lia.
  rewrite Qpower_plus by discriminate.
  rewrite <- (Qmult_1_r (2 ^ a)) at 1.
  apply Qmult_le_l; [apply pow2_pos|].
  rewrite pow2_Z by lia. change 1%Q with (inject_Z 1). rewrite <- Zle_Qle.
  pose proof (Z.pow_pos_nonneg 2 (b - a)). lia.
Qed.

Lemma pow2_lt_inv (a b : Z) : (2 ^ a < 2 ^ b)%Q -> (a < b)%Z.
Proof.
  intros H. destruct (Z_lt_le_dec a b) as [L|L]; [exact L|].
  apply pow2_le in L. exfalso. Lqa.lra.
Qed.

Lemma binade_spec (x : Q) :
  (0 < x)%Q -> (2 ^ binade x <= x)%Q /\ (x < 2 ^ (binade x + 1))%Q.
Proof.
  intros Hx. unfold binade.
  set (n := Qnum x). set (d := Zpos (Qden x)).
  assert (Hn : (0 < n)%Z) by (unfold n; unfold Qlt in Hx; simpl in Hx; lia).
  assert (Hd : (0 < d)%Z) by (unfold d; lia).
  destruct (Z.log2_spec n Hn) as [Hn1 Hn2].
  destruct (Z.log2_spec d Hd) as [Hd1 Hd2].
  pose proof (Z.log2_nonneg n) as Ln. pose proof (Z.log2_nonneg d) as Ld.
  set (a := Z.log2 n) in *. set (b := Z.log2 d) in *.
  assert (Ex : (x == inject_Z n / inject_Z d)%Q).
  { unfold n, d. destruct x as [xn xd]. cbn. unfold Qeq, Qdiv, Qmult, Qinv, inject_Z. cbn.
    destruct xn; cbn; lia. }
  assert (Hdq : (0 < inject_Z d)%Q) by (rewrite <- (Zlt_Qlt 0); exact Hd).
  (* 2^(a-b-1) < x < 2^(a-b+1) *)
  assert (Hlow : (2 ^ (a - b - 1) < x)%Q).
  { rewrite Ex. apply Qlt_shift_div_l; [exact Hdq|].
    (* 2^(a-b-1) * d < n ; d < 2^(b+1) so 2^(a-b-1) * d < 2^a <= n *)
    apply Qlt_le_trans with (2 ^ (a - b - 1) * 2 ^ (b + 1))%Q.
    - apply Qmult_lt_l; [apply pow2_pos|].
      rewrite pow2_Z by lia. rewrite <- Zlt_Qlt.
      replace (Z.succ b) with (b + 1)%Z in Hd2 by lia. exact Hd2.
    - rewrite <- Qpower_plus by discriminate.
      replace (a - b - 1 + (b + 1))%Z with a by lia.
      rewrite pow2_Z by lia. rewrite <- Zle_Qle. exact Hn1. }
  assert (Hhigh : (x < 2 ^ (a - b + 1))%Q).
  { rewrite Ex. apply Qlt_shift_div_r; [exact Hdq|].
    apply Qlt_le_trans with (2 ^ (a + 1))%Q.
    - rewrite pow2_Z by lia. rewrite <- Zlt_Qlt.
      replace (Z.succ a) with (a + 1)%Z in Hn2 by lia. exact Hn2.
    - replace (a + 1)%Z with (a - b + 1 + b)%Z by lia.
      rewrite Qpower_plus by discriminate.
      apply Qmult_le_l; [apply pow2_pos|].
      rewrite pow2_Z by lia. rewrite <- Zle_Qle. exact Hd1. }
  destruct (Qle_bool (2 ^ (a - b)) x) eqn:E.
  - apply Qle_bool_iff in E. split; [exact E | exact Hhigh].
  - assert (Hlt : (x < 2 ^ (a - b))%Q).
    { apply Qnot_le_lt. intros H. apply Qle_bool_iff in H. congruence. }
    split; [now apply Qlt_le_weak|].
    now replace (a - b - 1 + 1)%Z with (a - b)%Z by lia.
Qed.

Lemma binade_unique (x : Q) (k : Z) :
  (2 ^ k <= x)%Q -> (x < 2 ^ (k + 1))%Q -> binade x = k.
Proof.
  intros H1 H2.
  assert (Hx : (0 < x)%Q) by (eapply Qlt_le_trans; [apply (pow2_pos k) | exact H1]).
  destruct (binade_spec x Hx) as [B1 B2].
  assert (binade x < k + 1)%Z by (apply pow2_lt_inv; Lqa.lra).
  assert (k < binade x + 1)%Z by (apply pow2_lt_inv; Lqa.lra).
  lia.
Qed.

Lemma round_half_even_compat (x y : Q) :
  (x == y)%Q -> round_half_even x = round_half_even y.
Proof.
  intros E. unfold round_half_even.
  assert (Ef : Qfloor x = Qfloor y) by (now rewrite E).
  rewrite Ef.
  assert (Ec : ((x - inject_Z (Qfloor y)) ?= 1 # 2)%Q
               = ((y - inject_Z (Qfloor y)) ?= 1 # 2)%Q) by (now rewrite E).
  now rewrite Ec.
Qed.

Lemma round_half_even_Z (z : Z) : round_half_even (inject_Z z) = z.
Proof.
  pose proof (round_half_even_ge (inject_Z z) z (Qle_refl _)).
  pose proof (round_half_even_le (inject_Z z) z (Qle_refl _)). lia.
Qed.

Lemma binade_compat (x y : Q) :
  (0 < x)%Q -> (x == y)%Q -> binade x = binade y.
Proof.
  intros Hx E. destruct (binade_spec x Hx) as [B1 B2].
  symmetry. apply binade_unique; rewrite <- E; assumption.
Qed.

Lemma fl_zero (x : Q) : (x == 0)%Q -> fl x = 0%Q.
Proof. intros E. unfold fl. apply Qeq_bool_iff in E. now rewrite E. Qed.

Lemma fl_pos_eq (x : Q) :
  (0 < x)%Q ->
  fl x = (inject_Z (round_half_even (x * 2 ^ (- (binade x - 52))))
          * 2 ^ (binade x - 52))%Q.
Proof.
  intros Hx. unfold fl.
  destruct (Qeq_bool x 0) eqn:E.
  - apply Qeq_bool_iff in E. rewrite E in Hx. discriminate Hx.
  - assert (Ea : binade (Qabs x) = binade x).
    { apply binade_compat.
      - rewrite Qabs_pos by now apply Qlt_le_weak. exact Hx.
      - apply Qabs_pos. now apply Qlt_le_weak. }
    now rewrite Ea.
Qed.

Lemma pow2_split (k : Z) : (2 ^ k * 2 ^ (- (k - 52)) == inject_Z (2 ^ 52))%Q.
Proof.
  rewrite <- Qpower_plus by discriminate.
  replace (k + - (k - 52))%Z with 52%Z by lia. reflexivity.
Qed.

Lemma pow2_cancel (e : Z) : (2 ^ (- e) * 2 ^ e == 1)%Q.
Proof.
  rewrite <- Qpower_plus by discriminate.
  replace (- e + e)%Z with 0%Z by lia. reflexivity.
Qed.

(** A float stays in the closed binade of the number it rounds. *)
Lemma fl_binade_bounds (x : Q) :
  (0 < x)%Q ->
  (2 ^ binade x <= fl x)%Q /\ (fl x <= 2 ^ (binade x + 1))%Q.
Proof.
  intros Hx. rewrite (fl_pos_eq x Hx).
  destruct (binade_spec x Hx) as [B1 B2].
  set (k := binade x) in *. set (e := (k - 52)%Z).
  assert (He : (0 < 2 ^ e)%Q) by apply pow2_pos.
  assert (Hme : (0 < 2 ^ (- e))%Q) by apply pow2_pos.
  assert (Hlo : (2 ^ 52 <= round_half_even (x * 2 ^ (- e)))%Z).
  { apply round_half_even_ge. rewrite <- (pow2_split k). fold e.
    apply Qmult_le_compat_r; [exact B1 | now apply Qlt_le_weak]. }
  assert (Hhi : (round_half_even (x * 2 ^ (- e)) <= 2 ^ 53)%Z).
  { apply round_half_even_le.
    assert (E : (inject_Z (2 ^ 53) == 2 ^ (k + 1) * 2 ^ (- e))%Q).
    { rewrite <- Qpower_plus by discriminate. unfold e.
      replace (k + 1 + - (k - 52))%Z with 53%Z by lia. reflexivity. }
    rewrite E. apply Qmult_le_compat_r;
      [now apply Qlt_le_weak | now apply Qlt_le_weak]. }
  split.
  - assert (E : (2 ^ k == inject_Z (2 ^ 52) * 2 ^ e)%Q).
    { rewrite <- (pow2_split k). fold e.
      rewrite <- Qmult_assoc, pow2_cancel, Qmult_1_r. reflexivity. }
    rewrite E. apply Qmult_le_compat_r; [|now apply Qlt_le_weak].
    now rewrite <- Zle_Qle.
  - assert (E : (2 ^ (k + 1) == inject_Z (2 ^ 53) * 2 ^ e)%Q).
    { change (inject_Z (2 ^ 53)) with (2 ^ 53)%Q.
      rewrite <- Qpower_plus by discriminate. unfold e.
      replace (53 + (k - 52))%Z with (k + 1)%Z by lia. reflexivity. }
    rewrite E. apply Qmult_le_compat_r; [|now apply Qlt_le_weak].
    now rewrite <- Zle_Qle.
Qed.

Lemma fl_nonneg (x : Q) : (0 <= x)%Q -> (0 <= fl x)%Q.
Proof.
  intros Hx. destruct (Qeq_dec x 0) as [E | NE].
  - rewrite (fl_zero x E). apply Qle_refl.
  - assert (Hp : (0 < x)%Q).
    { apply Qle_lteq in Hx as [H | H]; [exact H|]. elim NE. now symmetry. }
    destruct (fl_binade_bounds x Hp) as [H _].
    pose proof (pow2_pos (binade x)). Lqa.lra.
Qed.

(** Rounding to a float is monotone (on the non-negative numbers). *)
Lemma fl_monotone (x y : Q) :
  (0 <= x)%Q -> (x <= y)%Q -> (fl x <= fl y)%Q.
Proof.
  intros Hx Hxy. destruct (Qeq_dec x 0) as [E | NE].
  - rewrite (fl_zero x E). apply fl_nonneg. Lqa.lra.
  - assert (Hxp : (0 < x)%Q).
    { apply Qle_lteq in Hx as [H | H]; [exact H|]. elim NE. now symmetry. }
    assert (Hyp : (0 < y)%Q) by Lqa.lra.
    destruct (binade_spec x Hxp) as [X1 X2].
    destruct (binade_spec y Hyp) as [Y1 Y2].
    assert (Hk : (binade x <= binade y)%Z).
    { assert (binade x < binade y + 1)%Z by (apply pow2_lt_inv; Lqa.lra). lia. }
    destruct (Z.eq_dec (binade x) (binade y)) as [Ek | Nk].
    + rewrite (fl_pos_eq x Hxp), (fl_pos_eq y Hyp), Ek.
      apply Qmult_le_compat_r; [|apply Qlt_le_weak, pow2_pos].
      rewrite <- Zle_Qle. apply round_half_even_monotone.
      apply Qmult_le_compat_r; [exact Hxy | apply Qlt_le_weak, pow2_pos].
    + destruct (fl_binade_bounds x Hxp) as [_ Fx].
      destruct (fl_binade_bounds y Hyp) as [Fy _].
      assert (Hp : (2 ^ (binade x + 1) <= 2 ^ binade y)%Q)
        by (apply pow2_le; lia).
      Lqa.lra.
Qed.

Lemma fl_compat (x y : Q) : (x == y)%Q -> (fl x == fl y)%Q.
Proof.
  intros E. unfold fl.
  assert (Eb : Qeq_bool x 0 = Qeq_bool y 0).
  { apply eq_true_iff_eq. rewrite !Qeq_bool_iff. now rewrite E. }
  rewrite Eb. destruct (Qeq_bool y 0) eqn:Ey; [reflexivity|].
  assert (Hy : ~ (y == 0)%Q).
  { intros H. apply Qeq_bool_iff in H. congruence. }
  assert (Ha : (0 < Qabs x)%Q).
  { pose proof (Qabs_nonneg x) as Hn.
    apply Qle_lteq in Hn as [H | H]; [exact H|].
    exfalso. apply Hy. rewrite <- E.
    pose proof (Qle_Qabs x) as H1. pose proof (Qle_Qabs (- x)) as H2.
    rewrite Qabs_opp in H2. Lqa.lra. }
  assert (Ek : binade (Qabs x) = binade (Qabs y))
    by (apply binade_compat; [exact Ha | now rewrite E]).
  rewrite Ek.
  rewrite (round_half_even_compat (x * 2 ^ (- (binade (Qabs y) - 52)))
             (y * 2 ^ (- (binade (Qabs y) - 52)))) by (now rewrite E).
  reflexivity.
Qed.

(** Integers below 2^53 are floats. *)
Lemma fl_Z (z : Z) :
  (0 <= z < 2 ^ 53)%Z -> (fl (inject_Z z) == inject_Z z)%Q.
Proof.
  intros [H0 H1]. destruct (Z.eq_dec z 0) as [-> | NZ]; [reflexivity|].
  assert (Hp : (0 < inject_Z z)%Q) by (rewrite <- (Zlt_Qlt 0); lia).
  rewrite (fl_pos_eq _ Hp).
  destruct (binade_spec _ Hp) as [B1 B2].
  set (k := binade (inject_Z z)) in *.
  assert (Hk : (k < 53)%Z).
  { apply pow2_lt_inv. apply Qle_lt_trans with (inject_Z z); [exact B1|].
    change (2 ^ 53)%Q with (inject_Z (2 ^ 53)). now rewrite <- Zlt_Qlt. }
  assert (Ez : (inject_Z z * 2 ^ (- (k - 52))
                == inject_Z (z * 2 ^ (- (k - 52))))%Q).
  { rewrite inject_Z_mult, (pow2_Z (- (k - 52))) by lia. reflexivity. }
  rewrite (round_half_even_compat _ _ Ez), round_half_even_Z.
  rewrite inject_Z_mult, <- (pow2_Z (- (k - 52))) by lia.
  rewrite <- Qmult_assoc, pow2_cancel, Qmult_1_r. reflexivity.
Qed.

Lemma round_nd_monotone (ndigits : nat) (x y : Q) :
  (x <= y)%Q -> (round_nd ndigits x <= round_nd ndigits y)%Q.
Proof.
  intros Hxy. unfold round_nd.
  pose proof (scale_positive ndigits) as Hs.
  apply Qle_shift_div_l; [exact Hs|].
  unfold Qdiv. rewrite <- Qmult_assoc, (Qmult_comm (/ _)), Qmult_inv_r,
    Qmult_1_r by (intros E; rewrite E in Hs; now apply Qlt_irrefl in Hs).
  rewrite <- Zle_Qle. apply round_half_even_monotone.
  apply Qmult_le_compat_r; [exact Hxy | now apply Qlt_le_weak].
Qed.

(** A float between two integers that are floats stays between them. *)
Lemma fl_between (x : Q) (a b : Z) :
  (0 <= a)%Z -> (b < 2 ^ 53)%Z ->
  (inject_Z a <= x)%Q -> (x <= inject_Z b)%Q ->
  (inject_Z a <= fl x)%Q /\ (fl x <= inject_Z b)%Q.
Proof.
  intros Ha Hb H1 H2.
  assert (Hab : (a <= b)%Z) by (rewrite Zle_Qle; Lqa.lra).
  assert (H0 : (0 <= inject_Z a)%Q) by (rewrite <- (Zle_Qle 0); exact Ha).
  split.
  - rewrite <- (fl_Z a) by lia. apply fl_monotone; assumption.
  - rewrite <- (fl_Z b) by lia. apply fl_monotone; [Lqa.lra | assumption].
Qed.

Lemma quotient_nonneg (a b : nat) :
  (0 <= inject_Z (Z.of_nat a) / inject_Z (Z.of_nat b))%Q.
Proof.
  unfold Qdiv. apply Qmult_le_0_compat.
  - rewrite <- (Zle_Qle 0). lia.
  - apply Qinv_le_0_compat. rewrite <- (Zle_Qle 0). lia.
Qed.

Lemma quotient_le_1 (a b : nat) :
  (a <= b)%nat -> (inject_Z (Z.of_nat a) / inject_Z (Z.of_nat b) <= 1)%Q.
Proof.
  intros Hab. destruct b as [|b].
  - assert (a = 0%nat) by lia. subst. vm_compute. discriminate.
  - apply Qle_shift_div_r; [rewrite <- (Zlt_Qlt 0); lia|].
    rewrite Qmult_1_l, <- Zle_Qle. lia.
Qed.

Lemma percent_nonneg (a b : nat) :
  (0 <= percent (Z.of_nat a) (Z.of_nat b))%Q.
Proof.
  unfold percent. apply fl_nonneg.
  apply Qmult_le_0_compat; [|discriminate].
  apply fl_nonneg, quotient_nonneg.
Qed.

(** A part of a whole is between 0 and 100 percent of it. *)
Lemma percent_bounds (a b : nat) :
  (a <= b)%nat ->
  (0 <= percent (Z.of_nat a) (Z.of_nat b))%Q
  /\ (percent (Z.of_nat a) (Z.of_nat b) <= 100)%Q.
Proof.
  intros Hab. split; [apply percent_nonneg|].
  unfold percent.
  destruct (fl_between _ 0 1 ltac:(lia) ltac:(reflexivity)
              (quotient_nonneg a b) (quotient_le_1 a b Hab)) as [F0 F1].
  apply (fl_between _ 0 100); [lia | reflexivity | |].
  - apply Qmult_le_0_compat; [exact F0 | discriminate].
  - change (inject_Z 100) with (1 * 100)%Q.
    apply Qmult_le_compat_r; [exact F1 | discriminate].
Qed.

Lemma percent_monotone (a b total : nat) :
  (a <= b)%nat ->
  (percent (Z.of_nat a) (Z.of_nat total)
   <= percent (Z.of_nat b) (Z.of_nat total))%Q.
Proof.
  intros Hab. unfold percent. apply fl_monotone.
  - apply Qmult_le_0_compat; [|discriminate].
    apply fl_nonneg, quotient_nonneg.
  - apply Qmult_le_compat_r; [|discriminate].
    apply fl_monotone; [apply quotient_nonneg|].
    unfold Qdiv. apply Qmult_le_compat_r.
    + rewrite <- Zle_Qle. lia.
    + apply Qinv_le_0_compat. rewrite <- (Zle_Qle 0). lia.
Qed.

Lemma round_nd_nonneg (ndigits : nat) (x : Q) :
  (0 <= x)%Q -> (0 <= round_nd ndigits x)%Q.
Proof.
  intros Hx.
  apply (Qle_trans _ (round_nd ndigits (inject_Z 0)));
    [|now apply round_nd_monotone].
  unfold round_nd. rewrite <- inject_Z_mult, round_half_even_Z.
  apply Qle_shift_div_l; [apply scale_positive|].
  rewrite Qmult_0_l, <- (Zle_Qle 0). lia.
Qed.

(** The rounding of NumPy never crosses an integer either. *)
Lemma np_round_between (ndigits : nat) (x : Q) (a b : Z) :
  (0 <= a)%Z -> (b * 10 ^ Z.of_nat ndigits < 2 ^ 53)%Z ->
  (inject_Z a <= x)%Q -> (x <= inject_Z b)%Q ->
  (inject_Z a <= np_round ndigits x)%Q /\ (np_round ndigits x <= inject_Z b)%Q.
Proof.
  intros H0 H53 Ha Hb. unfold np_round.
  pose proof (scale_positive ndigits) as Hs.
  assert (Hz : (0 < 10 ^ Z.of_nat ndigits)%Z)
    by (apply Z.pow_pos_nonneg; lia).
  destruct (fl_between (x * inject_Z (10 ^ Z.of_nat ndigits))
              (a * 10 ^ Z.of_nat ndigits) (b * 10 ^ Z.of_nat ndigits))
    as [F1 F2].
  - nia.
  - exact H53.
  - rewrite inject_Z_mult.
    apply Qmult_le_compat_r; [exact Ha | now apply Qlt_le_weak].
  - rewrite inject_Z_mult.
    apply Qmult_le_compat_r; [exact Hb | now apply Qlt_le_weak].
  - split.
    + apply Qle_shift_div_l; [exact Hs|].
      rewrite <- inject_Z_mult, <- Zle_Qle.
      now apply round_half_even_ge.
    + apply Qle_shift_div_r; [exact Hs|].
      rewrite <- inject_Z_mult, <- Zle_Qle.
      now apply round_half_even_le.
Qed.

End RoundingFacts.

(** ** Neighborhood Aggregator *)

Module NeighborhoodFacts.
Import PyStr Frame Tables Neighborhoods NameOrderFacts RoundingFacts.
Local Open Scope list_scope.

(** *** One group *)

Lemma disjoint_filters_length {A : Type} (f g : A -> bool) (l : list A) :
  (forall x, f x = true -> g x = false) ->
  (List.length (filter f l) + List.length (filter g l) <= List.length l)%nat.
Proof.
  intros H. induction l as [|a t IH]; simpl; [lia|].
  destruct (f a) eqn:Ef.
  - rewrite (H a Ef). simpl. lia.
  - destruct (g a); simpl; lia.
Qed.

Lemma rate_pct_bounds (a b : nat) :
  (a <= b)%nat ->
  (0 <= rate_pct (Z.of_nat a) (Z.of_nat b))%Q
  /\ (rate_pct (Z.of_nat a) (Z.of_nat b) <= 100)%Q.
Proof.
  intros Hab. unfold rate_pct.
  destruct (percent_bounds a b Hab) as [H0 H1].
  apply (np_round_between 1 _ 0 100);
    [lia | reflexivity | exact H0 | exact H1].
Qed.

Lemma windows_disjoint (now : Z) (r : Row) :
  created_since (now - days 90) r = true ->
  created_since (now - days 180) r && created_before (now - days 90) r = false.
Proof.
  unfold created_since, created_before.
  destruct (createddate r) as [c|]; [|discriminate].
  intros H. apply Z.leb_le in H. apply andb_false_iff. right.
  apply Z.ltb_ge. exact H.
Qed.

Lemma trend_cases (recent prior : nat) :
  let trend :=
    if (0 <? prior)%nat
    then Some (ratio_pct (Z.of_nat recent - Z.of_nat prior) (Z.of_nat prior))
    else if (0 <? recent)%nat then Some 100%Q else None in
  (trend = None <-> recent = 0%nat /\ prior = 0%nat)
  /\ (prior = 0%nat -> (0 < recent)%nat -> trend = Some 100%Q).
Proof.
  destruct prior as [|p], recent as [|r]; cbn [Nat.ltb Nat.leb];
    (split; [split; [intros H | intros [H1 H2]] | intros H1 H2]);
    try discriminate; try lia; try reflexivity; now split.
Qed.

(** The columns the loop body needs: the creation time, and the status
    when resolution durations are present. With them it returns a summary
    whose windows are disjoint parts of the group. *)
Lemma summarize_cases (now : Z) (df : DataFrame) (group : list Row) :
  if has_column df "createddate"
     && (negb (has_column df "resolution_days") || has_column df "srstatus")
  then
    exists s,
      summarize now df group = Some s
      /\ total_reports s = List.length group
      /\ (recent_90_days s + prior_90_days s <= List.length group)%nat
      /\ (trend_pct s = None
          <-> recent_90_days s = 0%nat /\ prior_90_days s = 0%nat)
      /\ (prior_90_days s = 0%nat -> (0 < recent_90_days s)%nat ->
          trend_pct s = Some 100%Q)
      /\ (forall q, resolution_rate s = Some q -> (0 <= q)%Q /\ (q <= 100)%Q)
      /\ (resolution_rate s = None <-> has_column df "srstatus" = false)
  else summarize now df group = None.
Proof.
  unfold summarize.
  destruct (has_column df "createddate") eqn:H1; cbn [andb].
  - assert (Hrate : forall q,
              (if has_column df "srstatus"
               then Some (rate_pct
                            (Z.of_nat (List.length
                                         (filter Rereport.is_closed group)))
                            (Z.of_nat (List.length group)))
               else None) = Some q -> (0 <= q)%Q /\ (q <= 100)%Q).
    { destruct (has_column df "srstatus"); intros q Hq; [|discriminate].
      injection Hq as <-. apply rate_pct_bounds, List.filter_length_le. }
    assert (Hnone :
              (if has_column df "srstatus"
               then Some (rate_pct
                            (Z.of_nat (List.length
                                         (filter Rereport.is_closed group)))
                            (Z.of_nat (List.length group)))
               else None) = None <-> has_column df "srstatus" = false).
    { destruct (has_column df "srstatus"); split; intros H;
        try discriminate; reflexivity. }
    assert (Hgoal : forall a : option PyFloat,
      exists s,
        Some {| total_reports := List.length group;
                type_breakdown :=
                  if has_column df "srtype"
                  then value_counts (map srtype group) else [];
                resolution_rate :=
                  if has_column df "srstatus"
                  then Some (rate_pct
                               (Z.of_nat (List.length
                                            (filter Rereport.is_closed group)))
                               (Z.of_nat (List.length group)))
                  else None;
                avg_resolution_days := a;
                recent_90_days :=
                  List.length (filter (created_since (now - days 90)) group);
                prior_90_days :=
                  List.length
                    (filter (fun r => created_since (now - days 180) r
                                      && created_before (now - days 90) r)
                            group);
                trend_pct :=
                  if (0 <? List.length
                             (filter (fun r => created_since (now - days 180) r
                                               && created_before
                                                    (now - days 90) r)
                                     group))%nat
                  then Some (ratio_pct
                               (Z.of_nat
                                  (List.length
                                     (filter (created_since (now - days 90))
                                             group))
                                - Z.of_nat
                                    (List.length
                                       (filter
                                          (fun r =>
                                             created_since (now - days 180) r
                                             && created_before
                                                  (now - days 90) r)
                                          group)))
                               (Z.of_nat
                                  (List.length
                                     (filter
                                        (fun r =>
                                           created_since (now - days 180) r
                                           && created_before
                                                (now - days 90) r)
                                        group))))
                  else if (0 <? List.length
                                  (filter (created_since (now - days 90))
                                          group))%nat
                       then Some 100%Q else None |} = Some s
        /\ total_reports s = List.length group
        /\ (recent_90_days s + prior_90_days s <= List.length group)%nat
        /\ (trend_pct s = None
            <-> recent_90_days s = 0%nat /\ prior_90_days s = 0%nat)
        /\ (prior_90_days s = 0%nat -> (0 < recent_90_days s)%nat ->
            trend_pct s = Some 100%Q)
        /\ (forall q, resolution_rate s = Some q ->
                      (0 <= q)%Q /\ (q <= 100)%Q)
        /\ (resolution_rate s = None <-> has_column df "srstatus" = false)).
    { intros a. eexists. split; [reflexivity|].
      cbn [total_reports recent_90_days prior_90_days trend_pct
           resolution_rate].
      split; [reflexivity|].
      split; [apply disjoint_filters_length, windows_disjoint|].
      split; [apply trend_cases|]. split; [apply trend_cases|].
      split; [exact Hrate | exact Hnone]. }
    destruct (has_column df "resolution_days") eqn:H2; cbn [negb orb].
    + destruct (has_column df "srstatus") eqn:H3; cbn [require bind];
        [|reflexivity].
      destruct (filter Rereport.is_closed group); cbn [bind]; apply Hgoal.
    + cbn [bind]. apply Hgoal.
  - destruct (has_column df "resolution_days"); cbn [bind require];
      [destruct (has_column df "srstatus"); cbn [bind require];
       [destruct (filter _ group)|]|]; reflexivity.
Qed.

(** *** The loop over the groups *)

(** The rows the aggregator counts: those with a name that is not empty. *)
Lemma summary_loop_returns (now : Z) (df : DataFrame) (names : list string) :
  has_column df "createddate"
  && (negb (has_column df "resolution_days") || has_column df "srstatus")
  = true ->
  exists ss,
    summary_loop now df names = Some ss
    /\ map fst ss = filter (fun n => negb (String.eqb n "")) names
    /\ forall name s, In (name, s) ss ->
         summarize now df (filter (in_neighborhood name) (rows df)) = Some s.
Proof.
  intros Hpre. induction names as [|n t [ss [Hss [Hkeys Hsum]]]];
    cbn [summary_loop filter].
  - exists []. repeat split. intros ? ? [].
  - destruct (String.eqb n ""); cbn [negb].
    + exists ss. now repeat split.
    + pose proof (summarize_cases now df
                    (filter (in_neighborhood n) (rows df))) as Hc.
      rewrite Hpre in Hc. destruct Hc as [s [Hs _]].
      rewrite Hs, Hss. cbn [bind]. exists ((n, s) :: ss).
      split; [reflexivity|]. split; [cbn; now rewrite Hkeys|].
      intros name s' [Heq | Hin].
      * injection Heq as <- <-. exact Hs.
      * now apply Hsum.
Qed.

Lemma summary_loop_raises (now : Z) (df : DataFrame) (names : list string) :
  has_column df "createddate"
  && (negb (has_column df "resolution_days") || has_column df "srstatus")
  = false ->
  summary_loop now df names
  = if existsb (fun n => negb (String.eqb n "")) names then None else Some [].
Proof.
  intros Hpre. induction names as [|n t IH]; cbn [summary_loop existsb].
  - reflexivity.
  - destruct (String.eqb n ""); cbn [negb orb]; [exact IH|].
    pose proof (summarize_cases now df
                  (filter (in_neighborhood n) (rows df))) as Hc.
    rewrite Hpre in Hc. now rewrite Hc.
Qed.

Lemma summary_loop_keys (now : Z) (df : DataFrame) (names : list string) :
  forall ss,
    summary_loop now df names = Some ss ->
    map fst ss = filter (fun n => negb (String.eqb n "")) names.
Proof.
  induction names as [|n t IH]; cbn [summary_loop filter]; intros ss H.
  - now injection H as <-.
  - destruct (String.eqb n ""); cbn [negb]; [now apply IH|].
    destruct (summarize now df _) as [s|]; [|discriminate H].
    cbn [bind] in H.
    destruct (summary_loop now df t) as [ss'|]; [|discriminate H].
    cbn [bind] in H. injection H as <-. cbn [map fst]. f_equal.
    now apply IH.
Qed.

Lemma summary_loop_entries (now : Z) (df : DataFrame) (names : list string) :
  forall ss,
    summary_loop now df names = Some ss ->
    forall name s, In (name, s) ss ->
      summarize now df (filter (in_neighborhood name) (rows df)) = Some s.
Proof.
  induction names as [|n t IH]; cbn [summary_loop]; intros ss H name s Hin.
  - injection H as <-. contradiction.
  - destruct (String.eqb n ""); [now apply (IH ss)|].
    destruct (summarize now df (filter (in_neighborhood n) (rows df)))
      as [s0|] eqn:Es; [|discriminate H].
    cbn [bind] in H.
    destruct (summary_loop now df t) as [ss'|]; [|discriminate H].
    cbn [bind] in H. injection H as <-.
    destruct Hin as [Heq | Hin].
    + injection Heq as <- <-. exact Es.
    + now apply (IH ss').
Qed.

Lemma summarize_total (now : Z) (df : DataFrame) (group : list Row)
  (s : NeighborhoodSummary) :
  summarize now df group = Some s -> total_reports s = List.length group.
Proof.
  intros H. pose proof (summarize_cases now df group) as Hc.
  destruct (has_column df "createddate" && _).
  - destruct Hc as [s' [Hs' [Ht _]]]. rewrite H in Hs'.
    injection Hs' as <-. exact Ht.
  - rewrite H in Hc. discriminate Hc.
Qed.

Lemma count_in_neighborhood (rs : list Row) (name : string) :
  count_occ string_dec (present (map neighborhood rs)) name
  = List.length (filter (in_neighborhood name) rs).
Proof.
  induction rs as [|r t IH]; [reflexivity|].
  cbn [map filter]. unfold in_neighborhood at 1.
  change (present (neighborhood r :: map neighborhood t))
    with ((match neighborhood r with Some v => [v] | None => [] end)
          ++ present (map neighborhood t)).
  destruct (neighborhood r) as [n|]; [|exact IH].
  cbn [app count_occ].
  destruct (String.eqb_spec n name) as [E | NE].
  - destruct (string_dec n name); [cbn; now rewrite IH | congruence].
  - destruct (string_dec n name); [congruence | exact IH].
Qed.

Lemma in_present {A : Type} (l : list (option A)) (x : A) :
  In x (present l) <-> In (Some x) l.
Proof.
  unfold present. rewrite in_flat_map. split.
  - intros [[y|] [Hin Hx]]; simpl in Hx; [|contradiction].
    destruct Hx as [<-|[]]. exact Hin.
  - intros H. exists (Some x). split; [exact H | now left].
Qed.

Lemma StronglySorted_filter {A : Type} (R : A -> A -> Prop) (f : A -> bool)
  (l : list A) :
  StronglySorted R l -> StronglySorted R (filter f l).
Proof.
  induction 1 as [|x t _ IH Hx]; simpl; [constructor|].
  destruct (f x); [|exact IH]. constructor; [exact IH|].
  apply Forall_forall. intros y Hy. apply filter_In in Hy as [Hy _].
  rewrite Forall_forall in Hx. now apply Hx.
Qed.

Lemma groups_partition (rs : list Row) (ks : list string) :
  NoDup ks ->
  list_sum (map (fun k => List.length (filter (in_neighborhood k) rs)) ks)
  = List.length
      (filter (fun r => match neighborhood r with
                        | Some n => if in_dec string_dec n ks then true
                                    else false
                        | None => false
                        end) rs).
Proof.
  intros Hnd. induction rs as [|r t IH]; cbn [filter List.length].
  - induction ks as [|k ks' IHk]; simpl; [reflexivity|].
    inversion Hnd; subst. now apply IHk.
  - assert (Hstep :
      list_sum (map (fun k => List.length
                                (if in_neighborhood k r
                                 then r :: filter (in_neighborhood k) t
                                 else filter (in_neighborhood k) t)) ks)
      = ((match neighborhood r with
          | Some n => count_occ string_dec ks n
          | None => 0
          end)
         + list_sum (map (fun k => List.length
                                     (filter (in_neighborhood k) t)) ks))%nat).
    { clear. induction ks as [|k ks' IHk]; simpl.
      - now destruct (neighborhood r).
      - rewrite IHk. unfold in_neighborhood at 1.
        destruct (neighborhood r) as [n|]; [|reflexivity].
        destruct (String.eqb_spec n k) as [->|Hne].
        + destruct (string_dec k k); [simpl; lia | congruence].
        + destruct (string_dec k n); [congruence | lia]. }
    rewrite Hstep, IH. clear Hstep IH.
    destruct (neighborhood r) as [n|]; [|reflexivity].
    destruct (in_dec string_dec n ks) as [Hin | Hnin].
    + apply (NoDup_count_occ' string_dec) in Hin; [|exact Hnd].
      now rewrite Hin.
    + apply (count_occ_not_In string_dec) in Hnin. now rewrite Hnin.
Qed.

Lemma present_length {A : Type} (l : list (option A)) :
  (List.length (present l) <= List.length l)%nat.
Proof.
  unfold present. induction l as [|[x|] t IH]; cbn; lia.
Qed.

(** No more summaries than rows. *)
Lemma summaries_le_rows (now : Z) (df : DataFrame)
  (ss : list (string * NeighborhoodSummary)) :
  neighborhood_summary now df = Some ss ->
  (List.length ss <= List.length (rows df))%nat.
Proof.
  unfold neighborhood_summary.
  destruct (has_column df "neighborhood"); cbn [negb].
  2: { intros H. injection H as <-. cbn. lia. }
  intros H. apply summary_loop_keys in H.
  rewrite <- (length_map fst ss), H.
  etransitivity; [apply List.filter_length_le|].
  etransitivity; [|etransitivity;
                   [apply (present_length (map neighborhood (rows df)))|
                    now rewrite length_map]].
  apply NoDup_incl_length.
  - apply sorted_names_NoDup, names_sorted.
  - intros n Hn. exact (proj1 (names_in _ _) Hn).
Qed.

(** The summaries partition the named rows: the keys are the distinct
    non-empty names in ascending order, every summary counts the rows of
    its name (at least one), and the totals add up to the number of rows
    whose name is present and not empty. *)
Theorem neighborhood_summary_partition (now : Z) (df : DataFrame) :
  has_column df "neighborhood" = true ->
  has_column df "createddate"
  && (negb (has_column df "resolution_days") || has_column df "srstatus")
  = true ->
  exists ss,
    neighborhood_summary now df = Some ss
    /\ StronglySorted (fun a b => String.ltb a b = true) (map fst ss)
    /\ (forall name s, In (name, s) ss ->
          name <> ""
          /\ total_reports s
             = List.length (filter (in_neighborhood name) (rows df))
          /\ (1 <= total_reports s)%nat)
    /\ list_sum (map (fun p => total_reports (snd p)) ss)
       = List.length
           (filter (fun r => match neighborhood r with
                             | Some n => negb (String.eqb n "")
                             | None => false
                             end) (rows df)).
Proof.
  intros Hcol Hpre. unfold neighborhood_summary. rewrite Hcol. cbn [negb].
  destruct (summary_loop_returns now df (group_names (rows df)) Hpre)
    as [ss [Hss [Hkeys Hsum]]].
  exists ss. split; [exact Hss|].
  assert (Hsorted : StronglySorted (fun a b => String.ltb a b = true)
                      (map fst ss)).
  { rewrite Hkeys. apply StronglySorted_filter. apply names_sorted. }
  assert (Htotal : forall name s, In (name, s) ss ->
            total_reports s
            = List.length (filter (in_neighborhood name) (rows df))).
  { intros name s Hin.
    pose proof (summarize_cases now df
                  (filter (in_neighborhood name) (rows df))) as Hc.
    rewrite Hpre in Hc. destruct Hc as [s' [Hs' [Ht _]]].
    rewrite (Hsum name s Hin) in Hs'. injection Hs' as <-. exact Ht. }
  split; [exact Hsorted|]. split.
  - intros name s Hin.
    assert (Hname : In name (map fst ss))
      by (apply in_map_iff; now exists (name, s)).
    rewrite Hkeys in Hname. apply filter_In in Hname as [Hname Hne].
    split; [|split; [now apply Htotal|]].
    + intros ->. discriminate Hne.
    + rewrite (Htotal name s Hin).
      apply names_in, in_present, in_map_iff in Hname as [r [Hr Hin']].
      assert (Hf : In r (filter (in_neighborhood name) (rows df))).
      { apply filter_In. split; [exact Hin'|].
        unfold in_neighborhood. rewrite Hr. apply String.eqb_refl. }
      destruct (filter (in_neighborhood name) (rows df));
        [contradiction | simpl; lia].
  - assert (Hmap : map (fun p => total_reports (snd p)) ss
                   = map (fun k => List.length
                                     (filter (in_neighborhood k) (rows df)))
                         (map fst ss)).
    { rewrite map_map. apply map_ext_in. intros [name s] Hin.
      now apply Htotal. }
    rewrite Hmap, groups_partition by (now apply sorted_names_NoDup).
    f_equal. apply filter_ext_in. intros r Hr.
    destruct (neighborhood r) as [n|] eqn:En; [|reflexivity].
    rewrite Hkeys.
    destruct (in_dec string_dec n _) as [Hin | Hnin].
    + apply filter_In in Hin as [_ Hne]. now rewrite Hne.
    + destruct (String.eqb n "") eqn:Ee; [reflexivity|].
      exfalso. apply Hnin. apply filter_In. split; [|now rewrite Ee].
      apply names_in, in_present, in_map_iff. now exists r.
Qed.

(** The theorem at thirteen reports of two neighborhoods. *)
Lemma neighborhood_summary_partition_witness :
  exists ss,
    neighborhood_summary (days 100) Samples.canton_hampden = Some ss
    /\ list_sum (map (fun p => total_reports (snd p)) ss) = 13%nat.
Proof.
  destruct (neighborhood_summary_partition (days 100) Samples.canton_hampden
              eq_refl eq_refl) as [ss [H1 [_ [_ H4]]]].
  exists ss. split; [exact H1 | exact H4].
Defined.

(** In every summary the two 90-day windows are disjoint parts of the
    neighborhood's reports, the trend is undefined exactly when both
    windows are empty and is 100 when only the earlier one is, and the
    resolution rate, present exactly when the frame has a status column,
    lies between 0 and 100. *)
Theorem neighborhood_summary_windows (now : Z) (df : DataFrame) :
  has_column df "neighborhood" = true ->
  has_column df "createddate"
  && (negb (has_column df "resolution_days") || has_column df "srstatus")
  = true ->
  exists ss,
    neighborhood_summary now df = Some ss
    /\ forall name s, In (name, s) ss ->
         (recent_90_days s + prior_90_days s <= total_reports s)%nat
         /\ (trend_pct s = None
             <-> recent_90_days s = 0%nat /\ prior_90_days s = 0%nat)
         /\ (prior_90_days s = 0%nat -> (0 < recent_90_days s)%nat ->
             trend_pct s = Some 100%Q)
         /\ (forall q, resolution_rate s = Some q ->
                       (0 <= q)%Q /\ (q <= 100)%Q)
         /\ (resolution_rate s = None <-> has_column df "srstatus" = false).
Proof.
  intros Hcol Hpre. unfold neighborhood_summary. rewrite Hcol. cbn [negb].
  destruct (summary_loop_returns now df (group_names (rows df)) Hpre)
    as [ss [Hss [_ Hsum]]].
  exists ss. split; [exact Hss|]. intros name s Hin.
  pose proof (summarize_cases now df
                (filter (in_neighborhood name) (rows df))) as Hc.
  rewrite Hpre in Hc. destruct Hc as [s' [Hs' [Ht Hrest]]].
  rewrite (Hsum name s Hin) in Hs'. injection Hs' as <-.
  rewrite Ht. exact Hrest.
Qed.

(** The theorem at thirteen reports of two neighborhoods. *)
Lemma neighborhood_summary_windows_witness :
  exists ss,
    neighborhood_summary (days 100) Samples.canton_hampden = Some ss
    /\ forall name s, In (name, s) ss ->
         (recent_90_days s + prior_90_days s <= total_reports s)%nat.
Proof.
  destruct (neighborhood_summary_windows (days 100) Samples.canton_hampden
              eq_refl eq_refl) as [ss [H1 H2]].
  exists ss. split; [exact H1|]. intros name s Hin.
  now destruct (H2 name s Hin).
Defined.

(** The aggregator raises exactly when the frame has a neighborhood column
    and a row with a non-empty name, but lacks the creation-time column,
    or has resolution durations without a status column. *)
Theorem neighborhood_summary_raises_iff (now : Z) (df : DataFrame) :
  neighborhood_summary now df = None
  <-> has_column df "neighborhood" = true
      /\ existsb (fun r => match neighborhood r with
                           | Some n => negb (String.eqb n "")
                           | None => false
                           end) (rows df) = true
      /\ (has_column df "createddate" = false
          \/ (has_column df "resolution_days" = true
              /\ has_column df "srstatus" = false)).
Proof.
  unfold neighborhood_summary.
  destruct (has_column df "neighborhood") eqn:Hcol; cbn [negb].
  2: { split; [discriminate | intros [H _]; discriminate]. }
  assert (Hnames :
    existsb (fun n => negb (String.eqb n "")) (group_names (rows df))
    = existsb (fun r => match neighborhood r with
                        | Some n => negb (String.eqb n "")
                        | None => false
                        end) (rows df)).
  { apply eq_true_iff_eq. rewrite !existsb_exists. split.
    - intros [n [Hin Hne]].
      apply names_in, in_present, in_map_iff in Hin as [r [Hr Hin]].
      exists r. split; [exact Hin|]. now rewrite Hr.
    - intros [r [Hin Hne]]. destruct (neighborhood r) as [n|] eqn:En;
        [|discriminate].
      exists n. split; [|exact Hne].
      apply names_in, in_present, in_map_iff. now exists r. }
  destruct (has_column df "createddate"
            && (negb (has_column df "resolution_days")
                || has_column df "srstatus")) eqn:Hpre.
  - destruct (summary_loop_returns now df (group_names (rows df)) Hpre)
      as [ss [Hss _]].
    rewrite Hss. split; [discriminate|].
    intros [_ [_ [H | [H1 H2]]]]; rewrite ?H, ?H1, ?H2 in Hpre;
      try discriminate Hpre.
    now rewrite andb_false_r in Hpre.
  - rewrite (summary_loop_raises now df _ Hpre), Hnames.
    destruct (existsb _ (rows df)).
    + split; [|reflexivity]. intros _. split; [reflexivity|].
      split; [reflexivity|].
      destruct (has_column df "createddate"); [|now left]. right.
      destruct (has_column df "resolution_days"),
        (has_column df "srstatus"); try discriminate Hpre. now split.
    + split; [discriminate | intros [_ [H _]]; discriminate].
Qed.

End NeighborhoodFacts.

(** ** Gap Analyzer: what the records always satisfy *)

Module GapMore.
Import PyStr Frame Tables Gap SortFacts TablesFacts GapFacts RoundingFacts.
Local Open Scope list_scope.

Lemma hints_no_names (hints : list string) :
  forall signals : list (string * nat),
    fold_left (count_hint []) hints signals = signals.
Proof. induction hints as [|h t IH]; intros signals; simpl; [reflexivity|]. apply IH. Qed.

Lemma signals_no_names (posts : list Post) :
  reddit_neighborhood_signals [] posts
  = option_map (fun _ => []) (post_hints posts).
Proof.
  unfold reddit_neighborhood_signals. rewrite signals_loop_eq.
  destruct (post_hints posts) as [hints|]; [|reflexivity].
  cbn [option_map]. f_equal. generalize (@nil (string * nat)).
  induction hints as [|h t IH]; intros signals; simpl; [reflexivity|].
  rewrite hints_no_names. apply IH.
Qed.

Lemma present_none {A : Type} (cells : list (option A)) :
  Forall (fun c => c = None) cells -> present cells = [].
Proof.
  induction 1 as [|c t Hc _ IH]; [reflexivity|].
  subst c. exact IH.
Qed.

(** Every record comes from a signalled, known neighborhood that passed the
    two tests. *)
Lemma gap_analysis_in (df_311 : option DataFrame)
  (df_reddit : option (list Post)) (gaps : list GapRecord) (g : GapRecord) :
  gap_analysis df_311 df_reddit = Some gaps ->
  In g gaps ->
  let rc := report_counts_of df_311 in
  In (gap_neighborhood g) (dict_keys rc)
  /\ (2 <= reddit_signal g)%nat
  /\ reports_311 g = dict_get rc (gap_neighborhood g) 0%nat
  /\ (inject_Z (Z.of_nat (reports_311 g)) < avg_311_reports rc * (1 # 2))%Q
  /\ gap_score g = gap_score_of (reddit_signal g) (reports_311 g).
Proof.
  intros Hrun Hin rc.
  destruct df_reddit as [posts|]; [|injection Hrun as <-; contradiction].
  destruct (post_hints posts) as [hints|] eqn:Hh;
    [|rewrite (gap_analysis_raises _ _ Hh) in Hrun; discriminate].
  destruct (signals_returns (dict_keys rc) _ _ Hh)
    as [signals [Hs [Hnd Hget]]].
  rewrite gap_analysis_eq in Hrun. unfold gaps_of in Hrun. fold rc in Hrun.
  rewrite Hs in Hrun. cbn [bind] in Hrun. injection Hrun as <-.
  apply (Permutation_in _ (Permutation_sym (stable_sort_perm gap_ge _))) in Hin.
  apply gap_loop_in in Hin as [n [c [Hsn [Hc [Hlt ->]]]]].
  cbn [gap_neighborhood reddit_signal reports_311 gap_score].
  repeat split; try assumption.
  specialize (Hget (report_counts_of_NoDup df_311) n).
  rewrite (dict_get_in _ n c 0%nat Hnd Hsn) in Hget.
  destruct (in_dec string_dec n (dict_keys rc)) as [Hk|_]; [exact Hk | lia].
Qed.

Lemma known_count_positive (df_311 : option DataFrame) (n : string) :
  In n (dict_keys (report_counts_of df_311)) ->
  (1 <= dict_get (report_counts_of df_311) n 0)%nat.
Proof.
  unfold report_counts_of. destruct df_311 as [df|]; [|intros []].
  destruct (has_column df "neighborhood"); [|intros []].
  rewrite value_counts_keys, value_counts_get.
  intros Hin. apply (count_occ_In string_dec) in Hin. lia.
Qed.

Lemma sum_bounded (l : list (string * nat)) (m : nat) :
  Forall (fun kv => (snd kv <= m)%nat) l ->
  (list_sum (map snd l) <= List.length l * m)%nat.
Proof. induction 1 as [|kv t Hkv _ IH]; simpl; lia. Qed.

(** A count below half the mean is below half of some count. *)
Lemma some_count_above (rc : list (string * nat)) (b : nat) :
  (inject_Z (Z.of_nat b) < avg_311_reports rc * (1 # 2))%Q ->
  exists n c, In (n, c) rc /\ (2 * b < c)%nat.
Proof.
  intros Hlt.
  destruct (Forall_Exists_dec (fun kv : string * nat => (snd kv <= 2 * b)%nat)
              (fun kv => le_dec (snd kv) (2 * b)) rc) as [Hall | Hex].
  - exfalso. apply sum_bounded in Hall.
    unfold avg_311_reports in Hlt. destruct rc as [|kv t].
    + assert (H0 : (inject_Z (Z.of_nat b) < inject_Z 0)%Q)
        by (eapply Qlt_le_trans; [exact Hlt | now vm_compute]).
      rewrite <- Zlt_Qlt in H0. lia.
    + set (s := list_sum (map snd (kv :: t))) in *.
      set (k := List.length (kv :: t)) in *.
      assert (Hk : (0 < inject_Z (Z.of_nat k))%Q).
      { rewrite <- (Zlt_Qlt 0). subst k. simpl. lia. }
      assert (Hle : (inject_Z (Z.of_nat s) / inject_Z (Z.of_nat k)
                     <= inject_Z (Z.of_nat (2 * b)))%Q).
      { apply Qle_shift_div_r; [exact Hk|].
        rewrite <- inject_Z_mult, <- Zle_Qle. nia. }
      assert (Hb : (inject_Z (Z.of_nat (2 * b))
                    == 2 * inject_Z (Z.of_nat b))%Q).
      { rewrite Nat2Z.inj_mul, inject_Z_mult. reflexivity. }
      rewrite Hb in Hle. Lqa.lra.
  - apply Exists_exists in Hex as [[n c] [Hin Hc]].
    exists n, c. split; [exact Hin | simpl in Hc; lia].
Qed.

Lemma gap_loop_distinct (rc : list (string * nat)) (avg : Q)
  (signals : list (string * nat)) :
  NoDup (dict_keys signals) ->
  NoDup (map gap_neighborhood (gap_loop rc avg signals)).
Proof.
  induction signals as [|[n c] t IH]; intros Hnd; [constructor|].
  inversion Hnd as [|? ? Hn Ht]; subst. specialize (IH Ht).
  cbn [gap_loop]. destruct (c <? 2)%nat; [exact IH|].
  destruct (_ ?= _)%Q; try exact IH.
  cbn [map gap_neighborhood]. constructor; [|exact IH].
  intros Hin. apply in_map_iff in Hin as [g [Hg Hin]].
  apply gap_loop_in in Hin as [n' [c' [Hs [_ [_ ->]]]]].
  cbn [gap_neighborhood] in Hg. subst n'.
  apply Hn. unfold dict_keys. apply in_map_iff. now exists (n, c').
Qed.

Lemma signals_loop_skip (ns : list string) (keep : Post -> bool)
  (posts : list Post) :
  (forall p, keep p = false -> parse_hints (location_hints p) = Some []) ->
  forall signals : list (string * nat),
    signals_loop ns (filter keep posts) signals
    = signals_loop ns posts signals.
Proof.
  intros Hkeep. induction posts as [|p t IH]; intros signals; [reflexivity|].
  cbn [filter]. destruct (keep p) eqn:Ek; cbn [signals_loop].
  - destruct (parse_hints (location_hints p)); cbn [bind];
      [apply IH | reflexivity].
  - rewrite (Hkeep p Ek). cbn [bind fold_left]. apply IH.
Qed.

(** The loop over the hints raises exactly when some cell parses to a
    value it cannot run through. *)
Lemma post_hints_raises_iff (posts : list Post) :
  post_hints posts = None
  <-> forallb (fun p => match location_hints p with
                        | HintsJsonOther => false
                        | _ => true
                        end) posts = false.
Proof.
  induction posts as [|p t IH]; cbn [post_hints forallb].
  - split; discriminate.
  - destruct (location_hints p); cbn [parse_hints bind andb];
      try (destruct (post_hints t); cbn [bind];
           [split; [discriminate | intros E; apply IH in E; discriminate]
           |split; [intros _; now apply IH | reflexivity]]).
    split; reflexivity.
Qed.

Lemma gap_analysis_runs (df_311 : option DataFrame)
  (df_reddit : option (list Post)) :
  match df_reddit with
  | Some posts =>
      forallb (fun p => match location_hints p with
                        | HintsJsonOther => false
                        | _ => true
                        end) posts = true
  | None => True
  end ->
  exists gaps, gap_analysis df_311 df_reddit = Some gaps.
Proof.
  destruct df_reddit as [posts|]; [|intros _; now exists []].
  intros Hall.
  destruct (post_hints posts) as [hints|] eqn:Hh.
  - destruct (gap_analysis_returns df_311 posts hints Hh)
      as [signals [_ Hg]].
    eexists. exact Hg.
  - apply post_hints_raises_iff in Hh. congruence.
Qed.

(** Without official names nothing is flagged: when the official frame is
    absent, has no neighborhood column, or names no row, the result is
    empty if the loop over the hints runs through every post, and the
    loop raises as it does with names: on a hint cell that parses to a
    value it cannot iterate or to an array with an item that is not a
    string. *)
Theorem gap_analysis_needs_official_names (df_311 : option DataFrame)
  (df_reddit : option (list Post)) :
  match df_311 with
  | Some df => has_column df "neighborhood" = false
               \/ Forall (fun r => neighborhood r = None) (rows df)
  | None => True
  end ->
  gap_analysis df_311 df_reddit
  = match df_reddit with
    | None => Some []
    | Some posts =>
        if forallb (fun p => match location_hints p with
                             | HintsJsonOther => false
                             | _ => true
                             end) posts
        then Some [] else None
    end.
Proof.
  intros H.
  assert (Hrc : report_counts_of df_311 = []).
  { unfold report_counts_of. destruct df_311 as [df|]; [|reflexivity].
    destruct (has_column df "neighborhood"); [|reflexivity].
    destruct H as [H|H]; [discriminate|].
    unfold value_counts. rewrite present_none; [reflexivity|].
    apply Forall_forall. intros c Hc.
    apply in_map_iff in Hc as [r [<- Hr]].
    rewrite Forall_forall in H. now apply H. }
  destruct df_reddit as [posts|]; [|reflexivity].
  rewrite gap_analysis_eq, Hrc. unfold gaps_of.
  cbn [dict_keys map]. rewrite signals_no_names.
  pose proof (post_hints_raises_iff posts) as Hp.
  destruct (post_hints posts); destruct (forallb _ posts);
    try reflexivity.
  - destruct Hp as [_ Hp]. specialize (Hp eq_refl). discriminate.
  - destruct Hp as [Hp _]. specialize (Hp eq_refl). discriminate.
Qed.

(** The theorem at a frame without the neighborhood column: nothing is
    flagged from posts that name Canton, and the loop raises on a post
    whose hint cell is the JSON value [null]. *)
Lemma gap_analysis_needs_official_names_witness :
  gap_analysis (Some Samples.no_neighborhood_column)
    (Some Samples.canton_posts) = Some []
  /\ gap_analysis (Some Samples.no_neighborhood_column)
       (Some (mkPost HintsJsonOther :: Samples.canton_posts)) = None.
Proof.
  split.
  - apply (gap_analysis_needs_official_names
             (Some Samples.no_neighborhood_column)
             (Some Samples.canton_posts)).
    left. reflexivity.
  - apply (gap_analysis_needs_official_names
             (Some Samples.no_neighborhood_column)
             (Some (mkPost HintsJsonOther :: Samples.canton_posts))).
    left. reflexivity.
Defined.

(** Every record of a returned result has at least one official report,
    so the guard [max(balt_311_count, 1)] and the default of
    [report_counts.get] never act: the score is the float quotient of the
    two counts rounded to two decimals, it is not negative, and it is at
    most the signal count (for a count that a float holds exactly). *)
Theorem gap_records_bounds (df_311 : option DataFrame)
  (df_reddit : option (list Post)) (gaps : list GapRecord) (g : GapRecord) :
  gap_analysis df_311 df_reddit = Some gaps ->
  In g gaps ->
  (1 <= reports_311 g)%nat
  /\ gap_score g
     = round_nd 2 (fl (inject_Z (Z.of_nat (reddit_signal g))
                       / inject_Z (Z.of_nat (reports_311 g))))%Q
  /\ (0 <= gap_score g)%Q
  /\ ((Z.of_nat (reddit_signal g) < 2 ^ 53)%Z ->
      (gap_score g <= inject_Z (Z.of_nat (reddit_signal g)))%Q).
Proof.
  intros Hrun Hin.
  apply (gap_analysis_in _ _ _ _ Hrun) in Hin as [Hk [Hc [Hb [_ Hs]]]].
  assert (H1 : (1 <= reports_311 g)%nat).
  { rewrite Hb. now apply known_count_positive. }
  assert (Hscore : gap_score g
                   = round_nd 2
                       (fl (inject_Z (Z.of_nat (reddit_signal g))
                            / inject_Z (Z.of_nat (reports_311 g))))%Q).
  { rewrite Hs. unfold gap_score_of. now rewrite Nat.max_l by exact H1. }
  split; [exact H1|]. split; [exact Hscore|]. rewrite Hscore.
  assert (Hpos : (0 < inject_Z (Z.of_nat (reports_311 g)))%Q).
  { rewrite <- (Zlt_Qlt 0). lia. }
  split.
  - apply round_nd_nonneg, fl_nonneg, quotient_nonneg.
  - intros H53.
    apply (round_nd_between 2 _ 0 (Z.of_nat (reddit_signal g))).
    + apply (fl_nonneg _ (quotient_nonneg _ _)).
    + apply (fl_between _ 0 (Z.of_nat (reddit_signal g)));
        [lia | exact H53 | apply quotient_nonneg |].
      apply Qle_shift_div_r; [exact Hpos|].
      rewrite <- inject_Z_mult, <- Zle_Qle. nia.
Qed.

(** The theorem at the record of Canton: 2 mentions over 3 reports, a
    ratio of 0.67. *)
Lemma gap_records_bounds_witness :
  exists g,
    gap_analysis (Some Samples.canton_hampden) (Some Samples.canton_posts)
    = Some [g]
    /\ reports_311 g = 3%nat
    /\ gap_score g
       = round_nd 2 (fl (inject_Z (Z.of_nat (reddit_signal g))
                         / inject_Z (Z.of_nat (reports_311 g))))%Q
    /\ (gap_score g == 67 # 100)%Q
    /\ (gap_score g <= inject_Z (Z.of_nat (reddit_signal g)))%Q.
Proof.
  assert (Hrun : exists g,
             gap_analysis (Some Samples.canton_hampden)
               (Some Samples.canton_posts) = Some [g]
             /\ reports_311 g = 3%nat
             /\ reddit_signal g = 2%nat
             /\ (gap_score g == 67 # 100)%Q).
  { eexists. split; [vm_compute; reflexivity|]. now vm_compute. }
  destruct Hrun as [g [Hrun [H3 [H2 H67]]]].
  exists g. split; [exact Hrun|]. split; [exact H3|].
  destruct (gap_records_bounds (Some Samples.canton_hampden)
              (Some Samples.canton_posts) [g] g Hrun (or_introl eq_refl))
    as [_ [Hs [_ Hle]]].
  split; [exact Hs|]. split; [exact H67|].
  apply Hle. rewrite H2. reflexivity.
Defined.

(** A flagged neighborhood has fewer than half the official reports of some
    known neighborhood; the neighborhood with the most reports is never
    flagged. *)
Theorem flagged_below_busiest (df_311 : option DataFrame)
  (df_reddit : option (list Post)) (gaps : list GapRecord) (g : GapRecord) :
  gap_analysis df_311 df_reddit = Some gaps ->
  In g gaps ->
  exists n,
    In n (dict_keys (report_counts_of df_311))
    /\ (2 * reports_311 g < dict_get (report_counts_of df_311) n 0)%nat.
Proof.
  intros Hrun Hin.
  apply (gap_analysis_in _ _ _ _ Hrun) in Hin as [_ [_ [_ [Hlt _]]]].
  apply some_count_above in Hlt as [n [c [Hnc Hc]]].
  exists n. split.
  - unfold dict_keys. apply in_map_iff. now exists (n, c).
  - now rewrite (dict_get_in _ n c 0%nat (report_counts_of_NoDup df_311) Hnc).
Qed.

(** The theorem at the record of Canton, which has 3 reports against the
    10 of Hampden. *)
Lemma flagged_below_busiest_witness :
  exists g n,
    gap_analysis (Some Samples.canton_hampden) (Some Samples.canton_posts)
    = Some [g]
    /\ reports_311 g = 3%nat
    /\ In n (dict_keys (report_counts_of (Some Samples.canton_hampden)))
    /\ (2 * reports_311 g
        < dict_get (report_counts_of (Some Samples.canton_hampden)) n 0)%nat.
Proof.
  assert (Hrun : exists g,
             gap_analysis (Some Samples.canton_hampden)
               (Some Samples.canton_posts) = Some [g]
             /\ reports_311 g = 3%nat).
  { eexists. split; vm_compute; reflexivity. }
  destruct Hrun as [g [Hrun H3]].
  destruct (flagged_below_busiest (Some Samples.canton_hampden)
              (Some Samples.canton_posts) [g] g Hrun (or_introl eq_refl))
    as [n [Hn Hlt]].
  exists g, n. repeat split; assumption.
Defined.

(** No neighborhood is flagged twice in a returned result. *)
Theorem gap_neighborhoods_distinct (df_311 : option DataFrame)
  (df_reddit : option (list Post)) (gaps : list GapRecord) :
  gap_analysis df_311 df_reddit = Some gaps ->
  NoDup (map gap_neighborhood gaps).
Proof.
  intros Hrun.
  destruct df_reddit as [posts|]; [|injection Hrun as <-; constructor].
  destruct (post_hints posts) as [hints|] eqn:Hh;
    [|rewrite (gap_analysis_raises _ _ Hh) in Hrun; discriminate].
  destruct (signals_returns (dict_keys (report_counts_of df_311)) _ _ Hh)
    as [signals [Hs [Hnd _]]].
  rewrite gap_analysis_eq in Hrun. unfold gaps_of in Hrun.
  rewrite Hs in Hrun. cbn [bind] in Hrun. injection Hrun as <-.
  eapply Permutation_NoDup.
  - apply Permutation_map. apply stable_sort_perm.
  - apply gap_loop_distinct. exact Hnd.
Qed.

(** The theorem at the posts that mention Canton. *)
Lemma gap_neighborhoods_distinct_witness :
  exists gaps,
    gap_analysis (Some Samples.canton_hampden) (Some Samples.canton_posts)
    = Some gaps
    /\ map gap_neighborhood gaps = ["Canton"]
    /\ NoDup (map gap_neighborhood gaps).
Proof.
  assert (Hrun : exists gaps,
             gap_analysis (Some Samples.canton_hampden)
               (Some Samples.canton_posts) = Some gaps
             /\ map gap_neighborhood gaps = ["Canton"]).
  { eexists. split; vm_compute; reflexivity. }
  destruct Hrun as [gaps [Hrun Hn]].
  exists gaps. split; [exact Hrun|]. split; [exact Hn|].
  exact (gap_neighborhoods_distinct (Some Samples.canton_hampden)
           (Some Samples.canton_posts) gaps Hrun).
Defined.

(** A post whose hint cell is not a string, does not parse, or is an empty
    array contributes nothing: the result is that of the other posts,
    also when it is an exception. *)
Theorem unparseable_hints_ignored (df_311 : option DataFrame)
  (df_reddit : list Post) :
  gap_analysis df_311 (Some df_reddit)
  = gap_analysis df_311
      (Some (filter (fun p => match location_hints p with
                              | HintsMissing | HintsMalformed
                              | HintsJson [] => false
                              | _ => true
                              end) df_reddit)).
Proof.
  rewrite !gap_analysis_eq. unfold gaps_of, reddit_neighborhood_signals.
  rewrite signals_loop_skip; [reflexivity|].
  intros p Hp. destruct (location_hints p) as [| |[|h t]| | |];
    try reflexivity; discriminate Hp.
Qed.

End GapMore.

(** ** Category Recurrence Calculator: the table of [category_fix_rates] *)

Module CategoryMore.
Import PyStr Frame Tables Rereport Hotspots Category CategoryStats.
Import SortFacts CategoryFacts NameOrderFacts RoundingFacts.
Local Open Scope list_scope.

Lemma categorize_type_in (o : option string) :
  In (categorize_type o) CATEGORIES.
Proof.
  destruct o as [s|].
  - rewrite categorize_type_rules. apply first_match_in.
  - vm_compute. tauto.
Qed.

(** *** A stable sort keeps the input order of equal keys *)

Section Stability.
Context {A : Type} (le : A -> A -> bool) (R : A -> A -> Prop).
Hypothesis le_total : forall a b, le a b = true \/ le b a = true.
Hypothesis le_trans :
  forall a b c, le a b = true -> le b c = true -> le a c = true.

Lemma insert_sorted_stable (x : A) (l : list A) :
  Forall (R x) l ->
  StronglySorted (fun a b => le a b = true /\ (le b a = true -> R a b)) l ->
  StronglySorted (fun a b => le a b = true /\ (le b a = true -> R a b))
    (insert_sorted le x l).
Proof.
  intros HR Hs. induction Hs as [|y t Ht IH Hy]; cbn [insert_sorted].
  - repeat constructor.
  - destruct (le x y) eqn:Exy.
    + constructor; [now constructor|].
      rewrite Forall_forall in HR, Hy. apply Forall_forall.
      intros z [<- | Hz].
      * split; [exact Exy | intros _; apply HR; now left].
      * split; [|intros _; apply HR; now right].
        apply (le_trans x y z Exy). now apply Hy.
    + inversion HR as [|? ? _ HRt]; subst.
      constructor; [now apply IH|].
      apply Forall_forall. intros z Hz.
      apply (Permutation_in _ (Permutation_sym (insert_sorted_perm le x t)))
        in Hz.
      destruct Hz as [<- | Hz].
      * split; [|intros E; congruence].
        destruct (le_total x y); [congruence | assumption].
      * rewrite Forall_forall in Hy. now apply Hy.
Qed.

Lemma stable_sort_stable (l : list A) :
  StronglySorted R l ->
  StronglySorted (fun a b => le a b = true /\ (le b a = true -> R a b))
    (stable_sort le l).
Proof.
  induction 1 as [|x t Ht IH Hx]; cbn [stable_sort]; [constructor|].
  apply insert_sorted_stable; [|exact IH].
  apply Forall_forall. intros z Hz.
  apply (Permutation_in _ (Permutation_sym (stable_sort_perm le t))) in Hz.
  rewrite Forall_forall in Hx. now apply Hx.
Qed.
End Stability.

Lemma StronglySorted_map {A B : Type} (R : B -> B -> Prop) (f : A -> B)
  (l : list A) :
  StronglySorted (fun a b => R (f a) (f b)) l ->
  StronglySorted R (map f l).
Proof.
  induction 1 as [|x t _ IH Hx]; cbn [map]; constructor; [exact IH|].
  apply Forall_forall. intros y Hy. apply in_map_iff in Hy as [z [<- Hz]].
  rewrite Forall_forall in Hx. now apply Hx.
Qed.

Lemma StronglySorted_weaken {A : Type} (R R' : A -> A -> Prop)
  (l : list A) :
  (forall a b, R a b -> R' a b) ->
  StronglySorted R l -> StronglySorted R' l.
Proof.
  intros Himp. induction 1 as [|x t _ IH Hx]; constructor; [exact IH|].
  eapply Forall_impl; [|exact Hx]. intros y. apply Himp.
Qed.

(** *** The sums of one category *)

Lemma hotspot_totals_sums (cat : string) (hs : list HotspotView) :
  forall a b : nat,
    hotspot_totals cat hs a b
    = ((a + list_sum
              (map (fun h => count_rereports (view_history h))
                 (filter (fun h => String.eqb
                                     (categorize_type (view_primary_type h))
                                     cat) hs)))%nat,
       (b + list_sum
              (map (fun h => List.length (view_history h))
                 (filter (fun h => String.eqb
                                     (categorize_type (view_primary_type h))
                                     cat) hs)))%nat).
Proof.
  induction hs as [|h t IH]; intros a b; cbn [hotspot_totals filter].
  - cbn. f_equal; lia.
  - destruct (String.eqb (categorize_type (view_primary_type h)) cat);
      cbn [negb]; rewrite IH; [|reflexivity].
    cbn [map]; simpl list_sum. f_equal; lia.
Qed.

Lemma hotspot_totals_le (cat : string) (hs : list HotspotView) :
  (fst (hotspot_totals cat hs 0 0) <= snd (hotspot_totals cat hs 0 0))%nat.
Proof.
  rewrite hotspot_totals_sums. cbn [fst snd]. rewrite !Nat.add_0_l.
  induction (filter _ hs) as [|h t IH]; [apply Nat.le_refl|].
  cbn [map]. simpl list_sum.
  assert (Hh : (count_rereports (view_history h)
                <= List.length (view_history h))%nat)
    by apply List.filter_length_le.
  lia.
Qed.

Lemma pct_monotone (a b total : nat) :
  (a <= b)%nat -> (pct a total <= pct b total)%Q.
Proof.
  intros Hab. unfold pct. destruct (Nat.ltb_spec 0 total) as [Ht|Ht];
    [|apply Qle_refl].
  now apply round_nd_monotone, percent_monotone.
Qed.

Lemma pct_nonneg (a total : nat) : (0 <= pct a total)%Q.
Proof.
  unfold pct. destruct (Nat.ltb_spec 0 total) as [Ht|Ht]; [|apply Qle_refl].
  apply round_nd_nonneg, percent_nonneg.
Qed.

(** *** Every row falls in one category *)

Lemma list_sum_map_cons {A : Type} (f : A -> nat) (x : A) (l : list A) :
  list_sum (map f (x :: l)) = (f x + list_sum (map f l))%nat.
Proof. reflexivity. Qed.

Lemma counts_partition (cats ks : list string) :
  NoDup ks -> (forall c, In c cats -> In c ks) ->
  list_sum (map (count_occ string_dec cats) ks) = List.length cats.
Proof.
  intros Hnd. induction cats as [|c t IH]; intros Hin.
  - clear. induction ks as [|k ks' IH]; [reflexivity | exact IH].
  - assert (Hstep :
      list_sum (map (count_occ string_dec (c :: t)) ks)
      = (count_occ string_dec ks c
         + list_sum (map (count_occ string_dec t) ks))%nat).
    { clear. induction ks as [|k ks' IHk]; [reflexivity|].
      rewrite !list_sum_map_cons, IHk. cbn [count_occ].
      destruct (string_dec c k) as [->|Hne].
      - destruct (string_dec k k); [lia | congruence].
      - destruct (string_dec k c); [congruence | lia]. }
    rewrite Hstep, IH by (intros c' Hc'; apply Hin; now right).
    rewrite (proj1 (NoDup_count_occ' string_dec ks) Hnd c); [reflexivity|].
    apply Hin. now left.
Qed.

(** Every hotspot is counted under the keys that hold its category. *)
Lemma weights_partition {A : Type} (key : A -> string) (w : A -> nat)
  (l : list A) (ks : list string) :
  NoDup ks ->
  list_sum (map (fun k => list_sum
                            (map w (filter (fun a => String.eqb (key a) k) l)))
              ks)
  = list_sum (map w (filter (fun a => if in_dec string_dec (key a) ks
                                      then true else false) l)).
Proof.
  intros Hnd. induction l as [|a t IH]; cbn [filter].
  - clear. induction ks as [|k ks' IH]; [reflexivity | exact IH].
  - assert (Hstep :
      list_sum
        (map (fun k => list_sum
                         (map w (if String.eqb (key a) k
                                 then a :: filter
                                             (fun a => String.eqb (key a) k) t
                                 else filter
                                        (fun a => String.eqb (key a) k) t)))
           ks)
      = (count_occ string_dec ks (key a) * w a
         + list_sum
             (map (fun k => list_sum
                              (map w (filter
                                        (fun a => String.eqb (key a) k) t)))
                ks))%nat).
    { clear. induction ks as [|k ks' IHk]; [reflexivity|].
      rewrite !list_sum_map_cons, IHk. cbn [count_occ].
      destruct (String.eqb_spec (key a) k) as [<-|Hne].
      - destruct (string_dec (key a) (key a)); [|congruence].
        rewrite list_sum_map_cons. lia.
      - destruct (string_dec k (key a)); [congruence | lia]. }
    rewrite Hstep, IH. clear Hstep IH.
    destruct (in_dec string_dec (key a) ks) as [Hin | Hnin].
    + rewrite (proj1 (NoDup_count_occ' string_dec ks) Hnd (key a) Hin).
      rewrite list_sum_map_cons. lia.
    + rewrite (proj1 (count_occ_not_In string_dec ks (key a)) Hnin). lia.
Qed.

Lemma stat_le_total (a b : string * CategoryStat) :
  stat_le a b = true \/ stat_le b a = true.
Proof.
  unfold stat_le. rewrite !Qle_bool_iff.
  destruct (Qlt_le_dec (- recurrence_pct (snd b)) (- recurrence_pct (snd a)));
    [right; now apply Qlt_le_weak | now left].
Qed.

Lemma stat_le_trans (a b c : string * CategoryStat) :
  stat_le a b = true -> stat_le b c = true -> stat_le a c = true.
Proof. unfold stat_le. rewrite !Qle_bool_iff. apply Qle_trans. Qed.

(** The table before the sort, when the guards pass. *)
Lemma category_fix_rates_eq (df : DataFrame) (hs : list HotspotView) :
  frame_empty df = false -> has_column df "srtype" = true ->
  category_fix_rates (Some df) hs
  = stable_sort stat_le
      (map (fun cat =>
              (cat, category_stat cat
                      (count_occ string_dec
                         (map categorize_type (map srtype (rows df))) cat)
                      hs))
         (category_keys (map categorize_type (map srtype (rows df))))).
Proof.
  intros He Hc. unfold category_fix_rates. now rewrite He, Hc.
Qed.

Lemma category_fix_rates_in (df : DataFrame) (hs : list HotspotView)
  (cat : string) (s : CategoryStat) :
  frame_empty df = false -> has_column df "srtype" = true ->
  In (cat, s) (category_fix_rates (Some df) hs) ->
  In cat (map categorize_type (map srtype (rows df)))
  /\ s = category_stat cat
           (count_occ string_dec
              (map categorize_type (map srtype (rows df))) cat) hs.
Proof.
  intros He Hc Hin. rewrite category_fix_rates_eq in Hin by assumption.
  apply (Permutation_in _ (Permutation_sym (stable_sort_perm _ _))) in Hin.
  apply in_map_iff in Hin as [k [Hk Hin]]. injection Hk as <- <-.
  split; [|reflexivity]. exact (proj1 (names_in _ _) Hin).
Qed.

(** The table is empty exactly when a guard returns early: no frame, an
    empty frame, or no type column. *)
Theorem category_fix_rates_empty_iff (df_311 : option DataFrame)
  (hotspots_list : list HotspotView) :
  category_fix_rates df_311 hotspots_list = []
  <-> match df_311 with
      | None => True
      | Some df => frame_empty df = true \/ has_column df "srtype" = false
      end.
Proof.
  destruct df_311 as [df|]; [|split; [trivial | reflexivity]].
  destruct (frame_empty df) eqn:He.
  { unfold category_fix_rates. rewrite He. split; [now left | reflexivity]. }
  destruct (has_column df "srtype") eqn:Hc.
  2: { unfold category_fix_rates. rewrite He, Hc.
       split; [now right | reflexivity]. }
  split; [|intros [H|H]; discriminate].
  intros Hnil. exfalso.
  rewrite category_fix_rates_eq in Hnil by assumption.
  apply (f_equal (@List.length _)) in Hnil.
  rewrite stable_sort_length, length_map in Hnil. cbn [List.length] in Hnil.
  unfold frame_empty in He. destruct (rows df) as [|r t]; [discriminate|].
  assert (Hin : In (categorize_type (srtype r))
                  (category_keys
                     (map categorize_type (map srtype (r :: t)))))
    by (apply names_in; now left).
  destruct (category_keys _); [contradiction | discriminate].
Qed.

(** The categories of the table partition the rows: the keys are distinct
    members of the fixed category set, every entry counts the rows of its
    category (at least one, so the zero-total branch of the percentages
    never runs, and the recurrence percentage is the float quotient of the
    re-reports by the total, times 100 in floats, rounded to one decimal),
    and the totals add up to the number of rows. *)
Theorem category_totals_partition (df : DataFrame)
  (hotspots_list : list HotspotView) :
  frame_empty df = false -> has_column df "srtype" = true ->
  let stats := category_fix_rates (Some df) hotspots_list in
  NoDup (map fst stats)
  /\ (forall cat s, In (cat, s) stats ->
        In cat CATEGORIES
        /\ total_requests s
           = List.length
               (filter (fun r => String.eqb (categorize_type (srtype r)) cat)
                       (rows df))
        /\ (1 <= total_requests s)%nat
        /\ recurrence_pct s
           = round_nd 1
               (fl (fl (inject_Z (Z.of_nat (rereports s))
                        / inject_Z (Z.of_nat (total_requests s))) * 100))%Q)
  /\ list_sum (map (fun p => total_requests (snd p)) stats)
     = List.length (rows df).
Proof.
  intros He Hc stats.
  set (cats := map categorize_type (map srtype (rows df))).
  assert (Hperm : Permutation
                    (map (fun cat =>
                            (cat, category_stat cat
                                    (count_occ string_dec cats cat)
                                    hotspots_list))
                       (category_keys cats)) stats).
  { subst stats. rewrite category_fix_rates_eq by assumption.
    apply stable_sort_perm. }
  assert (Hkeys : NoDup (category_keys cats))
    by apply sorted_names_NoDup, names_sorted.
  split; [|split].
  - eapply Permutation_NoDup; [apply Permutation_map, Hperm|].
    rewrite map_map. cbn [fst]. now rewrite map_id.
  - intros cat s Hin.
    apply category_fix_rates_in in Hin as [Hcat ->]; try assumption.
    fold cats in Hcat |- *. cbn [total_requests recurrence_pct rereports
                                 category_stat].
    assert (Hcount : count_occ string_dec cats cat
                     = List.length
                         (filter (fun r => String.eqb
                                             (categorize_type (srtype r)) cat)
                                 (rows df))).
    { subst cats. rewrite map_map. clear.
      induction (rows df) as [|r t IH]; [reflexivity|].
      cbn [map count_occ filter].
      destruct (String.eqb_spec (categorize_type (srtype r)) cat) as [E|NE].
      - destruct (string_dec _ cat); [cbn; now rewrite IH | congruence].
      - destruct (string_dec _ cat); [congruence | exact IH]. }
    assert (Hpos : (1 <= count_occ string_dec cats cat)%nat).
    { apply (count_occ_In string_dec) in Hcat. lia. }
    split; [|split; [exact Hcount | split; [exact Hpos|]]].
    + apply in_map_iff in Hcat as [o [<- _]]. apply categorize_type_in.
    + unfold pct. destruct (Nat.ltb_spec 0 (count_occ string_dec cats cat));
        [reflexivity | lia].
  - rewrite <- (Permutation_map _ Hperm), map_map. cbn [snd total_requests
                                                        category_stat].
    transitivity (list_sum (map (count_occ string_dec cats)
                              (category_keys cats))); [reflexivity|].
    rewrite (counts_partition cats (category_keys cats) Hkeys).
    + subst cats. now rewrite !length_map.
    + intros c Hin. now apply names_in.
Qed.

(** The theorem at eighty pothole reports and twenty street-light
    reports with three hotspots: 23 re-reports of 80 potholes are 28.7
    percent, since the float product is just below 28.75. *)
Lemma category_totals_partition_witness :
  let stats := category_fix_rates (Some Samples.potholes_and_lights)
                 Samples.three_hotspots in
  map (fun p => (fst p, total_requests (snd p), rereports (snd p),
                 recurrence_pct (snd p))) stats
  = [("Pothole", 80%nat, 23%nat, 287 # 10);
     ("Street Light", 20%nat, 1%nat, 50 # 10)]
  /\ NoDup (map fst stats)
  /\ (forall cat s, In (cat, s) stats ->
        recurrence_pct s
        = round_nd 1
            (fl (fl (inject_Z (Z.of_nat (rereports s))
                     / inject_Z (Z.of_nat (total_requests s))) * 100))%Q)
  /\ list_sum (map (fun p => total_requests (snd p)) stats) = 100%nat.
Proof.
  cbv zeta. split; [vm_compute; reflexivity|].
  destruct (category_totals_partition Samples.potholes_and_lights
              Samples.three_hotspots eq_refl eq_refl) as [H1 [H2 H3]].
  split; [exact H1|]. split; [|exact H3].
  intros cat s Hin. destruct (H2 cat s Hin) as [_ [_ [_ H]]]. exact H.
Defined.

(** Every entry sums the histories of the hotspots whose primary type falls
    in its category: its re-reports are at most its reports at chronic
    locations, and its recurrence percentage is between 0 and its
    chronic-location percentage. *)
Theorem category_entry_sums (df : DataFrame)
  (hotspots_list : list HotspotView) (cat : string) (s : CategoryStat) :
  In (cat, s) (category_fix_rates (Some df) hotspots_list) ->
  let mine := filter (fun h => String.eqb
                                 (categorize_type (view_primary_type h)) cat)
                     hotspots_list in
  rereports s
  = list_sum (map (fun h => count_rereports (view_history h)) mine)
  /\ requests_at_chronic_locations s
     = list_sum (map (fun h => List.length (view_history h)) mine)
  /\ (rereports s <= requests_at_chronic_locations s)%nat
  /\ (0 <= recurrence_pct s)%Q
  /\ (recurrence_pct s <= chronic_location_pct s)%Q.
Proof.
  intros Hin mine.
  assert (Hg : frame_empty df = false /\ has_column df "srtype" = true).
  { unfold category_fix_rates in Hin. destruct (frame_empty df);
      [contradiction|]. destruct (has_column df "srtype");
      [now split | contradiction]. }
  destruct Hg as [He Hc].
  apply category_fix_rates_in in Hin as [_ ->]; try assumption.
  cbn [rereports requests_at_chronic_locations recurrence_pct
       chronic_location_pct category_stat].
  pose proof (hotspot_totals_le cat hotspots_list) as Hle.
  rewrite hotspot_totals_sums in *. cbn [fst snd] in *. fold mine in Hle |- *.
  repeat split; try reflexivity.
  - exact Hle.
  - apply pct_nonneg.
  - now apply pct_monotone.
Qed.

(** The theorem at the pothole entry of eighty pothole reports and twenty
    street-light reports with three hotspots: the one pothole hotspot has
    thirty reports, 23 of them flagged. *)
Lemma category_entry_sums_witness :
  exists s,
    In ("Pothole", s)
       (category_fix_rates (Some Samples.potholes_and_lights)
          Samples.three_hotspots)
    /\ rereports s = 23%nat
    /\ requests_at_chronic_locations s = 30%nat
    /\ (rereports s <= requests_at_chronic_locations s)%nat
    /\ (0 <= recurrence_pct s)%Q
    /\ (recurrence_pct s <= chronic_location_pct s)%Q.
Proof.
  assert (Hin : exists s,
             In ("Pothole", s)
                (category_fix_rates (Some Samples.potholes_and_lights)
                   Samples.three_hotspots)).
  { eexists. vm_compute. left. reflexivity. }
  destruct Hin as [s Hin]. exists s. split; [exact Hin|].
  destruct (category_entry_sums Samples.potholes_and_lights
              Samples.three_hotspots "Pothole" s Hin)
    as [H1 [H2 [H3 [H4 H5]]]].
  split; [rewrite H1; reflexivity|].
  split; [rewrite H2; reflexivity|].
  repeat split; assumption.
Defined.

(** The re-reports of the table are those of the hotspots whose category
    is a key of the table. *)
Lemma rereports_by_key (df : DataFrame) (hotspots_list : list HotspotView) :
  frame_empty df = false -> has_column df "srtype" = true ->
  list_sum (map (fun p => rereports (snd p))
              (category_fix_rates (Some df) hotspots_list))
  = list_sum
      (map (fun h => count_rereports (view_history h))
         (filter (fun h =>
                    if in_dec string_dec
                         (categorize_type (view_primary_type h))
                         (category_keys
                            (map categorize_type (map srtype (rows df))))
                    then true else false)
                 hotspots_list)).
Proof.
  intros He Hc.
  rewrite category_fix_rates_eq by assumption.
  rewrite <- (Permutation_map _ (stable_sort_perm stat_le _)), map_map.
  cbn [snd rereports category_stat].
  erewrite map_ext
    by (intros k; rewrite hotspot_totals_sums; cbn [fst];
        rewrite Nat.add_0_l; reflexivity).
  apply (weights_partition (fun h => categorize_type (view_primary_type h))
           (fun h => count_rereports (view_history h))).
  apply sorted_names_NoDup, names_sorted.
Qed.

Lemma category_key_iff (df : DataFrame) (cat : string) :
  In cat (category_keys (map categorize_type (map srtype (rows df))))
  <-> existsb (fun r => String.eqb (categorize_type (srtype r)) cat)
              (rows df) = true.
Proof.
  unfold category_keys. rewrite names_in, map_map, in_map_iff, existsb_exists.
  split; intros [r [H1 H2]]; exists r.
  - split; [exact H2 | now apply String.eqb_eq].
  - split; [now apply String.eqb_eq | exact H1].
Qed.

(** A hotspot is counted in one category when some row falls in the
    category of its primary type, and in none otherwise: the re-reports of
    the table add up to those of the hotspots whose category has a row. *)
Theorem category_rereports_conservation (df : DataFrame)
  (hotspots_list : list HotspotView) :
  frame_empty df = false -> has_column df "srtype" = true ->
  list_sum (map (fun p => rereports (snd p))
              (category_fix_rates (Some df) hotspots_list))
  = list_sum
      (map (fun h => count_rereports (view_history h))
         (filter (fun h =>
                    existsb (fun r => String.eqb
                                        (categorize_type (srtype r))
                                        (categorize_type (view_primary_type h)))
                            (rows df))
                 hotspots_list)).
Proof.
  intros He Hc. rewrite (rereports_by_key df hotspots_list He Hc).
  do 2 f_equal. apply filter_ext. intros h.
  destruct (in_dec string_dec _ _) as [Hin | Hnin].
  - symmetry. now apply category_key_iff.
  - symmetry. apply not_true_is_false. intros Hex.
    apply Hnin. now apply category_key_iff.
Qed.

(** The theorem at eighty pothole reports and twenty street-light
    reports with three hotspots: the table holds the 23 and 1 re-reports
    of the pothole and street-light hotspots, and not the 3 of the
    sidewalk hotspot, whose category has no row. *)
Lemma category_rereports_conservation_witness :
  list_sum (map (fun p => rereports (snd p))
              (category_fix_rates (Some Samples.potholes_and_lights)
                 Samples.three_hotspots))
  = 24%nat
  /\ list_sum (map (fun h => count_rereports (view_history h))
                Samples.three_hotspots) = 27%nat.
Proof.
  split; [|reflexivity].
  exact (category_rereports_conservation Samples.potholes_and_lights
           Samples.three_hotspots eq_refl eq_refl).
Defined.

(** The table is in descending order of the recurrence percentage, and
    categories with equal percentages are in ascending order of their
    names. *)
Theorem category_stats_order (df_311 : option DataFrame)
  (hotspots_list : list HotspotView) :
  StronglySorted
    (fun a b =>
       (recurrence_pct (snd b) <= recurrence_pct (snd a))%Q
       /\ ((recurrence_pct (snd a) <= recurrence_pct (snd b))%Q ->
           String.ltb (fst a) (fst b) = true))
    (category_fix_rates df_311 hotspots_list).
Proof.
  unfold category_fix_rates. destruct df_311 as [df|]; [|constructor].
  destruct (frame_empty df); [constructor|].
  destruct (has_column df "srtype"); cbn [negb]; [|constructor].
  set (cats := map categorize_type (map srtype (rows df))).
  pose proof (stable_sort_stable stat_le
                (fun a b => String.ltb (fst a) (fst b) = true)
                stat_le_total stat_le_trans
                (map (fun cat =>
                        (cat, category_stat cat
                                (count_occ string_dec cats cat)
                                hotspots_list))
                   (category_keys cats))) as Hs.
  eapply StronglySorted_weaken; [|apply Hs].
  - intros a b [Hab Hba]. unfold stat_le in Hab, Hba.
    rewrite Qle_bool_iff in Hab, Hba. split.
    + apply Qopp_le_compat in Hab. now rewrite !Qopp_opp in Hab.
    + intros H. apply Hba. now apply Qopp_le_compat.
  - apply (StronglySorted_map
             (fun a b : string * CategoryStat =>
                String.ltb (fst a) (fst b) = true)).
    exact (names_sorted cats).
Qed.

End CategoryMore.

(** ** Location Clusterer: the frame [cluster_locations] returns *)

Module ClusterMore.
Import PyStr Frame Dbscan SortFacts DbscanFacts.
Local Open Scope list_scope.

Section Fit.
Context {P : Type} (within_eps : P -> P -> bool).
Hypothesis within_sym : forall p q, within_eps p q = within_eps q p.
Hypothesis within_refl : forall p, within_eps p p = true.
Variable X : list P.

(** A label is the noise label or a cluster number from 0 up. *)
Lemma fit_labels_range (L : list Z) :
  fit_labels within_eps X = Some L ->
  forall v, label_of L v = NOISE \/ 0 <= label_of L v.
Proof.
  unfold fit_labels, dbscan_inner. rewrite repeat_length.
  set (nbs := radius_neighbors within_eps X).
  set (cores := map (fun neighb =>
                       (MIN_CLUSTER_SAMPLES <=? List.length neighb)%nat) nbs).
  destruct (label_loop_returns nbs cores (List.length X)) 
    with (todo := seq 0 (List.length X)) (c := 0)
         (L := repeat NOISE (List.length X)) as [L' [c' [HL HO]]].
  - unfold nbs, radius_neighbors. now rewrite length_map.
  - intros u v H. apply edge_iff in H as [p [q [_ [Hv _]]]].
    apply nth_error_Some. congruence.
  - exact (edge_symmetric within_eps within_sym X).
  - intros u v Hu Huv. unfold cores, nbs in *.
    rewrite core_samples_nth in *. apply Nat.leb_le. apply Nat.leb_le in Hu.
    destruct (Nat.eq_dec u v) as [->|Hne]; [exact Hu|].
    apply (two_members _ u v);
      [now apply (edge_symmetric within_eps within_sym) | | exact Hne].
    apply edge_iff in Huv as [_ [q [_ [Hv _]]]].
    exact (edge_self within_eps within_refl X v q Hv).
  - unfold labelling_inv. rewrite repeat_length.
    split; [reflexivity|]. split; [lia|].
    split; [intros v; left; apply label_of_repeat|].
    split; [intros v Hv; now elim Hv; apply label_of_repeat|].
    split; [intros u v Hu; now elim Hu; apply label_of_repeat|].
    split; [intros u v Hu; now elim Hu; apply label_of_repeat|].
    intros v Hv Hnin. elim Hnin. apply in_seq. lia.
  - intros v Hv. apply in_seq in Hv. lia.
  - intros H. rewrite HL in H. injection H as <-.
    destruct HO as [_ [_ [O1 _]]]. intros v.
    destruct (O1 v) as [Hn | Hr]; [now left | right; lia].
Qed.

(** No cluster is a single row. *)
Lemma cluster_has_company (L : list Z) (i : nat) :
  fit_labels within_eps X = Some L ->
  (i < List.length X)%nat -> label_of L i <> NOISE ->
  exists j, j <> i /\ (j < List.length X)%nat
            /\ label_of L j = label_of L i.
Proof.
  intros HL Hi Hn.
  destruct (fit_labels_components within_eps within_sym within_refl X)
    as [L' [HL' [Hlen [Hnoise Hsame]]]].
  rewrite HL in HL'. injection HL' as <-.
  destruct (nth_error X i) as [p|] eqn:Ep;
    [|apply nth_error_None in Ep; lia].
  assert (Hcore : (2 <= neighbour_count within_eps X p)%nat).
  { destruct (le_lt_dec 2 (neighbour_count within_eps X p)) as [H|H];
      [exact H|]. exfalso. apply Hn. now apply (Hnoise i p Ep). }
  destruct (proj1 (neighbour_count_other within_eps within_refl X i p Ep)
              Hcore) as [j [q [Hji [Eq Hw]]]].
  exists j. split; [exact Hji|].
  split; [apply nth_error_Some; congruence|].
  symmetry. apply (Hsame i j p q Ep Eq Hcore).
  apply rt_step. unfold linked.
  split; [eapply nth_error_In; exact Ep|].
  split; [eapply nth_error_In; exact Eq | exact Hw].
Qed.
End Fit.

Lemma assign_labels_rows (rs : list Row) :
  forall L : list Z,
    List.length L = List.length rs ->
    Forall2 (fun r r' => r' = with_cluster_id r (cluster_id r'))
      rs (assign_labels rs L).
Proof.
  induction rs as [|r t IH]; intros [|l L] Hlen; try discriminate Hlen;
    cbn [assign_labels]; constructor.
  - reflexivity.
  - apply IH. now injection Hlen.
Qed.

Lemma clustered_row_origin (rs rs' : list Row) (r' : Row) :
  Forall2 (fun r r' => r' = with_cluster_id r (cluster_id r')) rs rs' ->
  In r' rs' ->
  exists r, In r rs /\ r' = with_cluster_id r (cluster_id r').
Proof.
  induction 1 as [|a a' t t' Ha _ IH]; intros Hin; [contradiction|].
  destruct Hin as [<- | Hin].
  - exists a. split; [now left | exact Ha].
  - destruct (IH Hin) as [r [Hr E]]. exists r. split; [now right | exact E].
Qed.

Lemma clustered_columns (df : DataFrame) (c : string) :
  existsb (String.eqb c)
    (if has_column df "cluster_id" then columns df
     else columns df ++ ["cluster_id"])
  = has_column df c || String.eqb c "cluster_id".
Proof.
  unfold has_column.
  destruct (existsb (String.eqb "cluster_id") (columns df)) eqn:E.
  - destruct (String.eqb_spec c "cluster_id") as [->|_];
      [now rewrite E | now rewrite orb_false_r].
  - rewrite existsb_app. cbn [existsb]. now rewrite orb_false_r.
Qed.

(** The frame the clusterer returns, for a symmetric and reflexive radius
    test. *)
Lemma cluster_locations_frame (within_eps : Q * Q -> Q * Q -> bool)
  (df : DataFrame) :
  (forall p q, within_eps p q = within_eps q p) ->
  (forall p, within_eps p p = true) ->
  has_column df "latitude" && has_column df "longitude" = true ->
  rows df <> [] ->
  exists L,
    fit_labels within_eps (map coords (rows df)) = Some L
    /\ List.length L = List.length (rows df)
    /\ cluster_locations within_eps df
       = Some (mkFrame (if has_column df "cluster_id" then columns df
                        else columns df ++ ["cluster_id"])
                       (assign_labels (rows df) L)).
Proof.
  intros Hsym Hrefl Hcols Hrows.
  destruct (fit_labels_components within_eps Hsym Hrefl
              (map coords (rows df))) as [L [HL [Hlen _]]].
  rewrite length_map in Hlen.
  exists L. split; [exact HL|]. split; [exact Hlen|].
  unfold cluster_locations. rewrite Hcols. cbn [require bind].
  rewrite dbscan_labels_nonempty, HL; [reflexivity|].
  destruct (rows df); [congruence | discriminate].
Qed.

Lemma cluster_locations_no_row (within_eps : Q * Q -> Q * Q -> bool)
  (df : DataFrame) :
  rows df = [] -> cluster_locations within_eps df = None.
Proof.
  intros H. unfold cluster_locations. rewrite H.
  now destruct (has_column df "latitude" && has_column df "longitude").
Qed.

(** On a frame with both coordinate columns and at least one row the
    clusterer returns the same rows in the same order, changed only in
    their cluster id, and the same columns with the cluster id added; an
    id is -1 or a number from 0 up, and every row with an id from 0 up
    shares it with another row. On a frame without a row the clusterer
    raises. *)
Theorem cluster_locations_rows (within_eps : Q * Q -> Q * Q -> bool)
  (df : DataFrame) :
  (forall p q, within_eps p q = within_eps q p) ->
  (forall p, within_eps p p = true) ->
  has_column df "latitude" && has_column df "longitude" = true ->
  match rows df with
  | [] => cluster_locations within_eps df = None
  | _ :: _ =>
      exists df',
        cluster_locations within_eps df = Some df'
        /\ Forall2 (fun r r' => r' = with_cluster_id r (cluster_id r'))
             (rows df) (rows df')
        /\ (forall c, has_column df' c
                      = has_column df c || String.eqb c "cluster_id")
        /\ (forall i r', nth_error (rows df') i = Some r' ->
              cluster_id r' = NOISE
              \/ (0 <= cluster_id r'
                  /\ exists j r2,
                       j <> i /\ nth_error (rows df') j = Some r2
                       /\ cluster_id r2 = cluster_id r'))
  end.
Proof.
  intros Hsym Hrefl Hcols.
  destruct (rows df) as [|r0 rest] eqn:Hrows;
    [now apply cluster_locations_no_row|].
  rewrite <- Hrows.
  assert (Hne : rows df <> []) by (rewrite Hrows; discriminate).
  clear r0 rest Hrows.
  destruct (cluster_locations_frame within_eps df Hsym Hrefl Hcols Hne)
    as [L [HL [Hlen Hdf]]].
  eexists. split; [exact Hdf|]. cbn [rows columns].
  split; [now apply assign_labels_rows|].
  split; [intros c; apply clustered_columns|].
  destruct (assign_labels_columns (rows df) L Hlen) as [Hids _].
  assert (Hlabel : forall i r', nth_error (assign_labels (rows df) L) i
                                = Some r' ->
                                label_of L i = cluster_id r').
  { intros i r' Hi. unfold label_of. rewrite <- Hids.
    rewrite (nth_indep _ NOISE (cluster_id r')).
    - rewrite map_nth. f_equal. now apply nth_error_nth.
    - rewrite length_map. apply nth_error_Some. congruence. }
  assert (Hsize : List.length (assign_labels (rows df) L)
                  = List.length (rows df)).
  { rewrite <- (length_map cluster_id), Hids. exact Hlen. }
  intros i r' Hi.
  destruct (fit_labels_range within_eps Hsym Hrefl _ L HL i) as [Hn | Hp].
  - left. now rewrite <- (Hlabel i r' Hi).
  - destruct (Z.eq_dec (cluster_id r') NOISE) as [E | NE]; [now left|].
    right. rewrite <- (Hlabel i r' Hi). split; [exact Hp|].
    assert (Hi' : (i < List.length (map coords (rows df)))%nat).
    { rewrite length_map, <- Hsize. apply nth_error_Some. congruence. }
    destruct (cluster_has_company within_eps Hsym Hrefl _ L i HL Hi')
      as [j [Hji [Hj Hsame]]].
    { now rewrite (Hlabel i r' Hi). }
    rewrite length_map, <- Hsize in Hj.
    destruct (nth_error (assign_labels (rows df) L) j) as [r2|] eqn:Ej;
      [|apply nth_error_None in Ej; lia].
    exists j, r2. split; [exact Hji|]. split; [exact Ej|].
    now rewrite <- (Hlabel j r2 Ej).
Qed.

(** The theorem at a chain of three points and a distant fourth. *)
Lemma cluster_locations_rows_witness :
  exists df',
    cluster_locations Samples.flat_within Samples.chain_and_far = Some df'
    /\ Forall2 (fun r r' => r' = with_cluster_id r (cluster_id r'))
         (rows Samples.chain_and_far) (rows df').
Proof.
  pose proof (cluster_locations_rows Samples.flat_within
                Samples.chain_and_far flat_within_sym flat_within_refl
                eq_refl) as H.
  cbn [rows Samples.chain_and_far] in H.
  destruct H as [df' [H1 [H2 _]]].
  exists df'. split; [exact H1 | exact H2].
Defined.

(** The clusterer raises exactly when a coordinate column is missing or
    the frame has no row. *)
Theorem cluster_locations_raises_iff (within_eps : Q * Q -> Q * Q -> bool)
  (df : DataFrame) :
  (forall p q, within_eps p q = within_eps q p) ->
  (forall p, within_eps p p = true) ->
  cluster_locations within_eps df = None
  <-> has_column df "latitude" && has_column df "longitude" = false
      \/ rows df = [].
Proof.
  intros Hsym Hrefl.
  destruct (has_column df "latitude" && has_column df "longitude") eqn:Hcols.
  - destruct (rows df) as [|r0 rest] eqn:Hrows.
    + split; [now right | intros _; now apply cluster_locations_no_row].
    + assert (Hne : rows df <> []) by (rewrite Hrows; discriminate).
      destruct (cluster_locations_frame within_eps df Hsym Hrefl Hcols Hne)
        as [L [_ [_ Hdf]]].
      rewrite Hdf. split; [discriminate | intros [H | H]; discriminate].
  - unfold cluster_locations. rewrite Hcols.
    split; [now left | reflexivity].
Qed.

(** The theorem at a frame without coordinate columns and at a frame
    with the columns and no row, for the haversine test. *)
Lemma cluster_locations_raises_iff_witness :
  cluster_locations haversine_within
    (mkFrame ["createddate"] (rows Samples.chain_and_far)) = None
  /\ cluster_locations haversine_within (mkFrame Samples.COLUMNS_311 [])
     = None.
Proof.
  split.
  - apply (cluster_locations_raises_iff haversine_within
             (mkFrame ["createddate"] (rows Samples.chain_and_far))
             haversine_within_sym haversine_within_refl).
    left. reflexivity.
  - apply (cluster_locations_raises_iff haversine_within
             (mkFrame Samples.COLUMNS_311 [])
             haversine_within_sym haversine_within_refl).
    right. reflexivity.
Defined.

End ClusterMore.

(** ** The run: what [main] writes *)

Module PipelineMore.
Import PyStr Frame Tables Rereport Hotspots Gap Neighborhoods Dbscan.
Import Category CategoryStats Pipeline.
Import SortFacts TablesFacts HotspotFacts HotspotMore NameOrderFacts.
Import NeighborhoodFacts DbscanFacts ClusterMore CategoryMore.
Import GapFacts GapMore.
Local Open Scope list_scope.

(** *** The steps of a run that returns *)

Lemma analyze_parts (within_eps : Q * Q -> Q * Q -> bool) (now : Z)
  (df_311 : DataFrame) (df_reddit : option (list Post)) (out : Output) :
  analyze within_eps now df_311 df_reddit = Some out ->
  exists df_clustered,
    cluster_locations within_eps df_311 = Some df_clustered
    /\ identify_chronic_hotspots df_clustered = Some (hotspots out)
    /\ neighborhood_summary now df_311 = Some (neighborhoods out)
    /\ has_column df_311 "createddate" = true
    /\ gap_analysis (Some df_311) df_reddit = Some (gaps out)
    /\ category_stats out
       = category_fix_rates (Some df_311)
           (map (hotspot_view df_clustered) (hotspots out))
    /\ summary_total_requests (summary out) = List.length (rows df_311)
    /\ chronic_hotspots (summary out) = List.length (hotspots out)
    /\ high_priority_hotspots (summary out)
       = List.length (filter is_high_priority (hotspots out))
    /\ neighborhoods_analyzed (summary out)
       = List.length (neighborhoods out)
    /\ gap_neighborhoods (summary out) = List.length (gaps out).
Proof.
  unfold analyze.
  destruct (cluster_locations within_eps df_311) as [dfc|]; [|discriminate].
  cbn [bind].
  destruct (identify_chronic_hotspots dfc) as [hs|] eqn:Ehs; [|discriminate].
  cbn [bind].
  destruct (neighborhood_summary now df_311) as [nbs|]; [|discriminate].
  cbn [bind].
  destruct (gap_analysis (Some df_311) df_reddit) as [gs|]; [|discriminate].
  cbn [bind].
  destruct (has_column df_311 "createddate"); [|discriminate].
  cbn [require bind]. intros H. injection H as <-.
  exists dfc.
  cbn [summary hotspots neighborhoods gaps category_stats
       summary_total_requests chronic_hotspots high_priority_hotspots
       neighborhoods_analyzed gap_neighborhoods].
  split; [reflexivity|]. split; [exact Ehs|].
  repeat (split; [reflexivity|]). reflexivity.
Qed.

Lemma cluster_locations_shape (within_eps : Q * Q -> Q * Q -> bool)
  (df df' : DataFrame) :
  cluster_locations within_eps df = Some df' ->
  exists L,
    columns df' = (if has_column df "cluster_id" then columns df
                   else columns df ++ ["cluster_id"])
    /\ rows df' = assign_labels (rows df) L.
Proof.
  unfold cluster_locations.
  destruct (has_column df "latitude" && has_column df "longitude");
    [|discriminate]. cbn [require bind].
  destruct (dbscan_labels within_eps (map coords (rows df))) as [L|];
    [|discriminate]. cbn [bind].
  intros H. injection H as <-. exists L. now split.
Qed.

Lemma assign_labels_length_le (rs : list Row) :
  forall L : list Z,
    (List.length (assign_labels rs L) <= List.length rs)%nat.
Proof.
  induction rs as [|r t IH]; intros [|l L]; cbn [assign_labels List.length];
    try lia. specialize (IH L). lia.
Qed.

Lemma assign_labels_origin (rs : list Row) (r' : Row) :
  forall L : list Z,
    In r' (assign_labels rs L) ->
    exists r l, In r rs /\ r' = with_cluster_id r l.
Proof.
  induction rs as [|a t IH]; intros [|l L]; cbn [assign_labels];
    try contradiction.
  intros [<- | Hin].
  - exists a, l. split; [now left | reflexivity].
  - destruct (IH L Hin) as [r [l' [Hr E]]].
    exists r, l'. split; [now right | exact E].
Qed.

(** *** The primary type of a group is the type of one of its rows *)

Lemma fold_max_in (l : list nat) :
  l <> [] -> In (fold_right Nat.max 0%nat l) l.
Proof.
  induction l as [|a t IH]; [congruence|]. intros _.
  destruct t as [|b t'].
  - left. cbn. lia.
  - change (fold_right Nat.max 0%nat (a :: b :: t'))
      with (Nat.max a (fold_right Nat.max 0%nat (b :: t'))).
    destruct (Nat.max_spec a (fold_right Nat.max 0%nat (b :: t')))
      as [[_ E]|[_ E]]; rewrite E.
    + right. apply IH. discriminate.
    + now left.
Qed.

Lemma mode_cases (cells : list (option string)) :
  (present cells = [] /\ mode cells = [])
  \/ exists s rest, mode cells = s :: rest /\ In s (present cells).
Proof.
  unfold mode. destruct (present cells) as [|c t] eqn:Ep.
  - left. split; reflexivity.
  - right.
    set (counts := fold_left count_one (c :: t) []).
    set (top := fold_right Nat.max 0%nat (map snd counts)).
    assert (Hkeys : forall k, In k (dict_keys counts) <-> In k (c :: t)).
    { intros k. unfold counts. rewrite counting_keys. cbn. tauto. }
    assert (Hne : map snd counts <> []).
    { destruct counts as [|kv l] eqn:Ec; [|discriminate].
      exfalso. apply (proj2 (Hkeys c)). now left. }
    pose proof (fold_max_in _ Hne) as Htop. fold top in Htop.
    apply in_map_iff in Htop as [kv [Hkv Hin]].
    set (winners := map fst (filter (fun kv => (snd kv =? top)%nat) counts)).
    assert (Hw : In (fst kv) winners).
    { apply in_map, filter_In. split; [exact Hin | now apply Nat.eqb_eq]. }
    apply (proj2 (names_in winners (fst kv))) in Hw.
    destruct (fold_right insert_name [] winners) as [|s rest] eqn:Em;
      [contradiction|].
    exists s, rest. split; [reflexivity|].
    assert (Hs : In s (fold_right insert_name [] winners))
      by (rewrite Em; now left).
    apply (proj1 (names_in _ _)) in Hs.
    apply in_map_iff in Hs as [kv' [<- Hf]].
    apply filter_In in Hf as [Hf _].
    apply Hkeys. unfold dict_keys. now apply in_map.
Qed.

Lemma fold_max_ge (l : list nat) (x : nat) :
  In x l -> (x <= fold_right Nat.max 0%nat l)%nat.
Proof.
  induction l as [|a t IH]; [contradiction|].
  cbn [fold_right]. intros [<- | Hin]; [lia|].
  specialize (IH Hin). lia.
Qed.

(** The first mode occurs, no value occurs more often, and a value that
    occurs as often comes after it in name order. *)
Lemma mode_head (cells : list (option string)) (s : string)
  (rest : list string) :
  mode cells = s :: rest ->
  In s (present cells)
  /\ forall t,
       (count_occ string_dec (present cells) t
        <= count_occ string_dec (present cells) s)%nat
       /\ (count_occ string_dec (present cells) t
           = count_occ string_dec (present cells) s ->
           t = s \/ String.ltb s t = true).
Proof.
  unfold mode.
  set (counts := fold_left count_one (present cells) []).
  set (top := fold_right Nat.max 0%nat (map snd counts)).
  set (winners := map fst (filter (fun kv => (snd kv =? top)%nat) counts)).
  intros Hm.
  assert (Hnd : NoDup (dict_keys counts))
    by (apply counting_NoDup; constructor).
  assert (Hget : forall k, dict_get counts k 0%nat
                           = count_occ string_dec (present cells) k)
    by (intros k; unfold counts; now rewrite counting_get).
  assert (Hkeys : forall k, In k (dict_keys counts)
                            <-> In k (present cells)).
  { intros k. unfold counts. rewrite counting_keys. cbn. tauto. }
  assert (Hwin : forall k, In k winners
                           <-> In k (dict_keys counts)
                               /\ dict_get counts k 0%nat = top).
  { intros k. unfold winners. rewrite in_map_iff. split.
    - intros [[k' v] [<- Hf]]. apply filter_In in Hf as [Hin Hv].
      apply Nat.eqb_eq in Hv. cbn [fst snd] in *. split.
      + unfold dict_keys. apply in_map_iff. now exists (k', v).
      + now rewrite (dict_get_in counts k' v 0%nat Hnd Hin).
    - intros [Hk Hv]. exists (k, dict_get counts k 0%nat).
      split; [reflexivity|]. apply filter_In.
      split; [now apply dict_in_get | now apply Nat.eqb_eq]. }
  assert (Hsorted : StronglySorted (fun a b => String.ltb a b = true)
                      (s :: rest))
    by (rewrite <- Hm; apply names_sorted).
  assert (Hs : In s winners).
  { apply (proj1 (names_in winners s)). rewrite Hm. now left. }
  apply Hwin in Hs as [Hsk Hsv].
  split; [now apply Hkeys|]. intros t. rewrite <- !Hget, Hsv. split.
  - destruct (in_dec string_dec t (dict_keys counts)) as [Ht | Ht].
    + apply fold_max_ge. apply in_map_iff.
      exists (t, dict_get counts t 0%nat).
      split; [reflexivity | now apply dict_in_get].
    + rewrite (dict_get_absent counts t 0%nat Ht). lia.
  - intros Ht.
    assert (Hpos : (1 <= top)%nat).
    { rewrite <- Hsv, Hget. apply Hkeys in Hsk.
      apply (count_occ_In string_dec) in Hsk. lia. }
    assert (Htk : In t (dict_keys counts)).
    { apply Hkeys. apply (count_occ_In string_dec). rewrite <- Hget. lia. }
    assert (Htw : In t (s :: rest)).
    { rewrite <- Hm. apply (proj2 (names_in winners t)).
      apply Hwin. now split. }
    destruct Htw as [<- | Htr]; [now left | right].
    inversion Hsorted as [|? ? _ Hall]; subst.
    rewrite Forall_forall in Hall. now apply Hall.
Qed.

Lemma primary_type_category (g : DataFrame) :
  has_column g "srtype" = true -> rows g <> [] ->
  exists r,
    In r (rows g)
    /\ categorize_type (srtype r)
       = categorize_type (Some (primary_type_of g)).
Proof.
  intros Hcol Hne. unfold primary_type_of. rewrite Hcol.
  destruct (mode_cases (map srtype (rows g)))
    as [[Hp Hm] | [s [rest [Hm Hs]]]]; rewrite Hm.
  - destruct (rows g) as [|r t]; [congruence|].
    exists r. split; [now left|].
    cbn [map] in Hp. unfold present in Hp. cbn [flat_map] in Hp.
    destruct (srtype r); [discriminate Hp | reflexivity].
  - apply in_present, in_map_iff in Hs as [r [Hr Hin]].
    exists r. split; [exact Hin | now rewrite Hr].
Qed.

(** Some row of the input falls in the category of each hotspot. *)
Lemma hotspot_category_has_row (within_eps : Q * Q -> Q * Q -> bool)
  (df dfc : DataFrame) (hs : list Hotspot) (h : Hotspot) :
  cluster_locations within_eps df = Some dfc ->
  has_column df "srtype" = true ->
  identify_chronic_hotspots dfc = Some hs -> In h hs ->
  existsb (fun r => String.eqb
                      (categorize_type (srtype r))
                      (categorize_type
                         (view_primary_type (hotspot_view dfc h))))
          (rows df) = true.
Proof.
  intros Hc Hcol Hhs Hin.
  destruct (cluster_locations_shape _ _ _ Hc) as [L [Hcols Hrows]].
  destruct (hotspot_facts dfc hs h Hhs Hin) as [_ [Hfour _]].
  destruct (hotspot_of_frame dfc hs h Hhs Hin) as [_ Hb].
  destruct (build_hotspot_shape _ _ h Hb) as [_ [Hn _]].
  set (g := cluster_frame dfc (hs_cluster_id h)) in *.
  assert (Hg : has_column g "srtype" = true).
  { change (has_column g "srtype")
      with (existsb (String.eqb "srtype") (columns dfc)).
    rewrite Hcols, clustered_columns, Hcol. reflexivity. }
  assert (Hne : rows g <> []).
  { intros E. rewrite E in Hn. cbn in Hn. lia. }
  destruct (primary_type_category g Hg Hne) as [r' [Hr' Hcat]].
  apply filter_In in Hr' as [Hr' _]. rewrite Hrows in Hr'.
  apply assign_labels_origin in Hr' as [r [l [Hr E]]].
  apply existsb_exists. exists r. split; [exact Hr|].
  apply String.eqb_eq. cbn [hotspot_view view_primary_type]. fold g.
  rewrite <- Hcat, E. reflexivity.
Qed.

Lemma filter_all {A : Type} (f : A -> bool) (l : list A) :
  (forall x, In x l -> f x = true) -> filter f l = l.
Proof.
  induction l as [|a t IH]; intros H; [reflexivity|]. cbn [filter].
  rewrite (H a (or_introl eq_refl)). f_equal.
  apply IH. intros x Hx. apply H. now right.
Qed.

(** The primary type of a group is "Unknown" when the frame has no type
    column or no row of the group has a type; otherwise it is the type of
    one of the rows, no type occurs in more rows, and among the types that
    occur as often it is the first in name order. *)
Theorem primary_type_most_common (g : DataFrame) :
  let types := present (map srtype (rows g)) in
  if has_column g "srtype" && negb (Nat.eqb (List.length types) 0)
  then
    In (primary_type_of g) types
    /\ forall t,
         (count_occ string_dec types t
          <= count_occ string_dec types (primary_type_of g))%nat
         /\ (count_occ string_dec types t
             = count_occ string_dec types (primary_type_of g) ->
             t = primary_type_of g
             \/ String.ltb (primary_type_of g) t = true)
  else primary_type_of g = "Unknown".
Proof.
  intros types. unfold primary_type_of.
  destruct (has_column g "srtype"); [|reflexivity]. cbn [andb].
  destruct (mode_cases (map srtype (rows g)))
    as [[Hp Hm] | [s [rest [Hm Hs]]]].
  - subst types. rewrite Hp, Hm. reflexivity.
  - destruct (Nat.eqb_spec (List.length types) 0) as [E | _]; cbn [negb].
    + subst types. destruct (present (map srtype (rows g)));
        [contradiction | discriminate E].
    + rewrite Hm. exact (mode_head _ s rest Hm).
Qed.

(** *** The run *)

(** The run completes on every frame that has at least one row, the
    coordinate, creation time, status and status time columns, no missing
    status and timestamps between 1970 and 2116, without weak-signal posts
    or with posts whose hint cells the loop over the hints can run
    through. *)
Theorem analyze_returns (within_eps : Q * Q -> Q * Q -> bool) (now : Z)
  (df_311 : DataFrame) (df_reddit : option (list Post)) :
  (forall p q, within_eps p q = within_eps q p) ->
  (forall p, within_eps p p = true) ->
  rows df_311 <> [] ->
  has_column df_311 "latitude" = true ->
  has_column df_311 "longitude" = true ->
  has_column df_311 "createddate" = true ->
  has_column df_311 "srstatus" = true ->
  has_column df_311 "statusdate" = true ->
  forallb (fun r => notna (srstatus r)) (rows df_311) = true ->
  timestamps_in_era df_311 = true ->
  match df_reddit with
  | Some posts =>
      forallb (fun p => match location_hints p with
                        | HintsJsonOther => false
                        | _ => true
                        end) posts = true
  | None => True
  end ->
  exists out, analyze within_eps now df_311 df_reddit = Some out.
Proof.
  intros Hsym Hrefl Hrows Hlat Hlon Hcreated Hstatus Hsdate Hcells _ Hposts.
  destruct (gap_analysis_runs (Some df_311) df_reddit Hposts) as [gs Hgs].
  destruct (cluster_locations_frame within_eps df_311 Hsym Hrefl)
    as [L [_ [Hlen Hdf]]]; [now rewrite Hlat, Hlon | exact Hrows |].
  set (dfc := mkFrame (if has_column df_311 "cluster_id" then columns df_311
                       else columns df_311 ++ ["cluster_id"])
                      (assign_labels (rows df_311) L)) in *.
  assert (Hcol : forall c, has_column dfc c
                           = has_column df_311 c || String.eqb c "cluster_id")
    by (intros c; apply clustered_columns).
  assert (Hreadable : readable dfc = true).
  { unfold readable. rewrite !Hcol, Hlat, Hlon, Hcreated, Hstatus, Hsdate.
    rewrite String.eqb_refl, orb_true_r. cbn [orb andb].
    apply forallb_forall. intros r' Hr'.
    apply assign_labels_origin in Hr' as [r [l [Hr ->]]].
    unfold status_cell, get_str. rewrite Hcol, Hstatus. cbn [orb srstatus with_cluster_id].
    rewrite forallb_forall in Hcells. specialize (Hcells r Hr).
    destruct (srstatus r) as [s|]; [|discriminate Hcells].
    unfold or_empty. now destruct (truthy (Some s)). }
  destruct (identify_chronic_hotspots_total dfc Hreadable) as [hs Hhs].
  assert (Hnb : exists nbs, neighborhood_summary now df_311 = Some nbs).
  { unfold neighborhood_summary.
    destruct (has_column df_311 "neighborhood"); cbn [negb];
      [|now exists []].
    destruct (summary_loop_returns now df_311 (group_names (rows df_311)))
      as [ss [Hss _]]; [|now exists ss].
    rewrite Hcreated, Hstatus. now rewrite orb_true_r. }
  destruct Hnb as [nbs Hnbs].
  unfold analyze. rewrite Hdf. cbn [bind]. rewrite Hhs. cbn [bind].
  rewrite Hnbs. cbn [bind]. rewrite Hgs. cbn [bind].
  rewrite Hcreated. cbn [require bind].
  eexists. reflexivity.
Qed.

(** The theorem at the run, with the haversine test, on three reports in
    Canton, ten in Hampden and two posts that mention Canton. *)
Lemma analyze_returns_witness :
  exists out,
    analyze haversine_within (days 200) Samples.canton_hampden
      (Some Samples.canton_posts) = Some out.
Proof.
  apply (analyze_returns haversine_within (days 200) Samples.canton_hampden
           (Some Samples.canton_posts)
           haversine_within_sym haversine_within_refl);
    try reflexivity.
  discriminate.
Defined.

(** The header of a run that returns is consistent with its tables: the
    hotspot count is the number of hotspot records, the high-priority
    hotspots are among them, no cluster gives two records, every record
    has at least 4 reports, so four times the hotspot count is at most the
    number of requests, and there are no more neighborhoods than
    requests. *)
Theorem analyze_summary_counts (within_eps : Q * Q -> Q * Q -> bool)
  (now : Z) (df_311 : DataFrame) (df_reddit : option (list Post))
  (out : Output) :
  analyze within_eps now df_311 df_reddit = Some out ->
  chronic_hotspots (summary out) = List.length (hotspots out)
  /\ (high_priority_hotspots (summary out)
      <= chronic_hotspots (summary out))%nat
  /\ (4 * chronic_hotspots (summary out)
      <= summary_total_requests (summary out))%nat
  /\ (neighborhoods_analyzed (summary out)
      <= summary_total_requests (summary out))%nat
  /\ gap_neighborhoods (summary out) = List.length (gaps out)
  /\ NoDup (map hs_cluster_id (hotspots out))
  /\ (forall h, In h (hotspots out) ->
        0 <= hs_cluster_id h /\ (4 <= report_count h)%nat).
Proof.
  intros H.
  destruct (analyze_parts _ _ _ _ _ H)
    as [dfc [Hc [Hhs [Hnb [_ [_ [_ [Ht [Hn [Hp [Hna Hg]]]]]]]]]]].
  destruct (hotspot_counts dfc _ Hhs) as [Hnd [_ Hfour]].
  destruct (cluster_locations_shape _ _ _ Hc) as [L [_ Hrows]].
  pose proof (assign_labels_length_le (rows df_311) L) as Hle.
  rewrite <- Hrows in Hle.
  pose proof (summaries_le_rows now df_311 _ Hnb) as Hs.
  pose proof (List.filter_length_le is_high_priority (hotspots out)) as Hh.
  rewrite Hn, Hp, Ht, Hna.
  split; [reflexivity|]. split; [exact Hh|]. split; [lia|].
  split; [exact Hs|]. split; [exact Hg|]. split; [exact Hnd|].
  intros h Hin. destruct (hotspot_facts dfc _ h Hhs Hin) as [H0 [H4 _]].
  now split.
Qed.

(** The theorem at the run on the five-report sample. *)
Lemma analyze_summary_counts_witness :
  exists out,
    analyze Samples.flat_within (days 200) Samples.five_reports None
    = Some out
    /\ (4 * chronic_hotspots (summary out)
        <= summary_total_requests (summary out))%nat.
Proof.
  eexists.
  assert (H : analyze Samples.flat_within (days 200) Samples.five_reports
                None = Some ?[out])
    by (vm_compute; reflexivity).
  split; [exact H|].
  exact (proj1 (proj2 (proj2 (analyze_summary_counts _ _ _ _ _ H)))).
Defined.

(** In a run on a frame with a type column every flagged history entry of
    every hotspot is counted in exactly one category: the re-reports of
    the category table add up to the flagged entries of the hotspots. *)
Theorem analyze_rereports_conserved (within_eps : Q * Q -> Q * Q -> bool)
  (now : Z) (df_311 : DataFrame) (df_reddit : option (list Post))
  (out : Output) :
  analyze within_eps now df_311 df_reddit = Some out ->
  has_column df_311 "srtype" = true ->
  list_sum (map (fun p => rereports (snd p)) (category_stats out))
  = list_sum (map (fun h => count_rereports (history h)) (hotspots out)).
Proof.
  intros H Hcol.
  destruct (analyze_parts _ _ _ _ _ H)
    as [dfc [Hc [Hhs [_ [_ [_ [Hcat _]]]]]]].
  rewrite Hcat.
  destruct (frame_empty df_311) eqn:He.
  - assert (Hrows : rows df_311 = []).
    { unfold frame_empty in He. destruct (rows df_311); [reflexivity|].
      destruct (columns df_311) eqn:Ec; [|discriminate He].
      unfold has_column in Hcol. rewrite Ec in Hcol. discriminate Hcol. }
    destruct (hotspot_counts dfc _ Hhs) as [_ [_ Hfour]].
    destruct (cluster_locations_shape _ _ _ Hc) as [L [_ Hr]].
    pose proof (assign_labels_length_le (rows df_311) L) as Hle.
    rewrite <- Hr, Hrows in Hle. cbn [List.length] in Hle.
    destruct (hotspots out); [|cbn [List.length] in Hfour; lia].
    unfold category_fix_rates. rewrite He. reflexivity.
  - rewrite (rereports_by_key df_311 _ He Hcol).
    rewrite filter_all.
    + rewrite map_map. reflexivity.
    + intros v Hv. apply in_map_iff in Hv as [h [<- Hin]].
      destruct (in_dec string_dec _ _) as [_ | Hnin]; [reflexivity|].
      exfalso. apply Hnin. apply category_key_iff.
      exact (hotspot_category_has_row within_eps df_311 dfc _ h
               Hc Hcol Hhs Hin).
Qed.

(** The theorem at the run on the five-report sample. *)
Lemma analyze_rereports_conserved_witness :
  exists out,
    analyze Samples.flat_within (days 200) Samples.five_reports None
    = Some out
    /\ list_sum (map (fun p => rereports (snd p)) (category_stats out))
       = list_sum (map (fun h => count_rereports (history h))
                     (hotspots out)).
Proof.
  eexists.
  assert (H : analyze Samples.flat_within (days 200) Samples.five_reports
                None = Some ?[out])
    by (vm_compute; reflexivity).
  split; [exact H|].
  exact (analyze_rereports_conserved _ _ _ _ _ H eq_refl).
Defined.

(** The two neighborhood tables of a run agree: the official count of a
    gap record is the total of that neighborhood's summary. *)
Theorem gap_counts_match_summary (within_eps : Q * Q -> Q * Q -> bool)
  (now : Z) (df_311 : DataFrame) (df_reddit : option (list Post))
  (out : Output) (g : GapRecord) :
  analyze within_eps now df_311 df_reddit = Some out ->
  In g (gaps out) -> gap_neighborhood g <> "" ->
  exists s,
    In (gap_neighborhood g, s) (neighborhoods out)
    /\ total_reports s = reports_311 g.
Proof.
  intros H Hin Hname.
  destruct (analyze_parts _ _ _ _ _ H)
    as [dfc [_ [_ [Hnb [_ [Hg _]]]]]].
  destruct (gap_analysis_in _ _ _ g Hg Hin) as [Hk [_ [Hb _]]].
  destruct (has_column df_311 "neighborhood") eqn:Hcol.
  2: { unfold report_counts_of in Hk. rewrite Hcol in Hk. contradiction. }
  rewrite (report_counts_of_count df_311 _ Hcol) in Hb.
  unfold report_counts_of in Hk. rewrite Hcol in Hk.
  apply value_counts_keys in Hk.
  unfold neighborhood_summary in Hnb. rewrite Hcol in Hnb. cbn [negb] in Hnb.
  pose proof (summary_loop_keys _ _ _ _ Hnb) as Hkeys.
  assert (Hkey : In (gap_neighborhood g) (map fst (neighborhoods out))).
  { rewrite Hkeys. apply filter_In. split.
    - now apply (proj2 (names_in _ _)).
    - destruct (String.eqb_spec (gap_neighborhood g) "");
        [contradiction | reflexivity]. }
  apply in_map_iff in Hkey as [[n s] [Hn Hs]]. cbn [fst] in Hn. subst n.
  exists s. split; [exact Hs|].
  rewrite (summarize_total _ _ _ _ (summary_loop_entries _ _ _ _ Hnb _ _ Hs)).
  now rewrite Hb, count_in_neighborhood.
Qed.

(** The theorem at the run on three reports in Canton, ten in Hampden and
    two posts that mention Canton. *)
Lemma gap_counts_match_summary_witness :
  exists out g s,
    analyze Samples.flat_within (days 200) Samples.canton_hampden
      (Some Samples.canton_posts) = Some out
    /\ In g (gaps out)
    /\ In (gap_neighborhood g, s) (neighborhoods out)
    /\ total_reports s = reports_311 g.
Proof.
  assert (Hrun : exists out g,
            analyze Samples.flat_within (days 200) Samples.canton_hampden
              (Some Samples.canton_posts) = Some out
            /\ In g (gaps out) /\ gap_neighborhood g <> "").
  { eexists. eexists. split; [vm_compute; reflexivity|].
    split; [cbn [gaps]; left; reflexivity | discriminate]. }
  destruct Hrun as [out [g [H [Hin Hne]]]].
  destruct (gap_counts_match_summary _ _ _ _ _ _ H Hin Hne) as [s [H1 H2]].
  exists out, g, s. split; [exact H|]. split; [exact Hin|].
  split; [exact H1 | exact H2].
Defined.

End PipelineMore.
